(** * Hyperform: property installer, wrapper, entry point and submit catching

    A shallow embedding of the parts of the hyperform polyfill that install
    property overrides on DOM elements ([tools/property_installer.js]), wrap
    a form ([components/wrapper.js]), resolve the settings of the public
    entry point ([hyperform.js]) and catch implicit submission
    ([tools/catch_submit.js]).

    JavaScript objects are modelled by their own-property table (a finite map
    from property names to properties), their prototype chain and their
    [[Extensible]] flag. The property installer works on one object, seen
    with the properties of its prototypes; the wrapper and the entry point
    work on a page, a store of objects by identity in which controls and
    prototypes are shared. Code that mutates an object is written in a small
    state-and-exception monad: a computation takes the current state and
    returns an outcome (normal completion or a thrown [TypeError]) together
    with the state it left behind. *)

From Stdlib Require Import ZArith.
From stdpp Require Import gmap strings list fin_maps.

Set Warnings "-register-all,-clear-no-such-hyp".
Set Default Proof Using "Type".


(** ** Values *)

(** ECMAScript values. Objects and functions are references: [id] is their
    identity, [callable] tells functions from other objects, and [hyperform]
    is the value of their [hyperform] property (the polyfill marks what it
    installs by setting it to [true]). *)
Inductive value : Type :=
| VUndefined
| VNull
| VBool (b : bool)
| VNumber (n : Z)
| VString (s : string)
| VObject (callable : bool) (id : N) (hyperform : value).

#[global] Instance value_eq_dec : EqDecision value.
Proof. solve_decision. Defined.

(** [ToBoolean], the truthiness test of [!], [&&], [?:] and [if]. *)
Definition ToBoolean (v : value) : bool :=
  match v with
  | VUndefined | VNull => false
  | VBool b => b
  | VNumber n => negb (n =? 0)%Z
  | VString s => negb (String.eqb s "")
  | VObject _ _ _ => true
  end.

Definition IsCallable (v : value) : bool :=
  match v with
  | VObject c _ _ => c
  | _ => false
  end.

(** Strict equality [===] on the values modelled here. *)
Definition strict_equal (a b : value) : bool := bool_decide (a = b).

(** ** Outcomes and the state monad *)

Inductive error : Type := TypeError.

Inductive outcome (A : Type) : Type :=
| Normal (a : A)
| Throw (e : error).
Arguments Normal {A} a.
Arguments Throw {A} e.

Definition JS (S A : Type) : Type := S -> outcome A * S.

Definition ret {S A} (a : A) : JS S A := fun s => (Normal a, s).

Definition throw {S A} (e : error) : JS S A := fun s => (Throw e, s).

Definition bind {S A B} (m : JS S A) (k : A -> JS S B) : JS S B :=
  fun s =>
    match m s with
    | (Normal a, s') => k a s'
    | (Throw e, s') => (Throw e, s')
    end.

Definition get_state {S} : JS S S := fun s => (Normal s, s).

Definition modify {S} (f : S -> S) : JS S unit := fun s => (Normal tt, f s).

(** A pure expression that may throw, evaluated without touching the state. *)
Definition lift_outcome {S A} (o : outcome A) : JS S A := fun s => (o, s).

Declare Scope js_scope.
Delimit Scope js_scope with js.
Notation "x <- m ;; k" := (bind m (fun x => k))
  (at level 100, m at next level, k at level 200, right associativity) : js_scope.
Notation "m ;;; k" := (bind m (fun _ => k))
  (at level 100, k at level 200, right associativity) : js_scope.

(** Run the statements of a [for] loop body over the members of a list. *)
Fixpoint for_each {S A} (body : A -> JS S unit) (l : list A) : JS S unit :=
  match l with
  | [] => ret tt
  | x :: rest => bind (body x) (fun _ => for_each body rest)
  end.

(** [Array.prototype.map.call(array, f)]: the results of [f] on the members,
    in order; a throwing call ends the loop. *)
Fixpoint map_call {S A B} (f : A -> JS S B) (array : list A) : JS S (list B) :=
  match array with
  | [] => ret []
  | x :: rest =>
      bind (f x) (fun y => bind (map_call f rest) (fun ys => ret (y :: ys)))
  end.

(** ** Properties and property descriptors *)

(** A property as an object stores it: a data property or an accessor
    property, every attribute present. An absent getter or setter is
    [VUndefined]. *)
Inductive property : Type :=
| DataProperty (v : value) (writable enumerable configurable : bool)
| AccessorProperty (get set : value) (enumerable configurable : bool).

#[global] Instance property_eq_dec : EqDecision property.
Proof. solve_decision. Defined.

Definition configurable_of (p : property) : bool :=
  match p with
  | DataProperty _ _ _ c => c
  | AccessorProperty _ _ _ c => c
  end.

Definition enumerable_of (p : property) : bool :=
  match p with
  | DataProperty _ _ e _ => e
  | AccessorProperty _ _ e _ => e
  end.

(** A property descriptor as [Object.defineProperty] receives it: every field
    may be absent. *)
Record descriptor : Type := Descriptor {
  d_value : option value;
  d_writable : option bool;
  d_get : option value;
  d_set : option value;
  d_enumerable : option bool;
  d_configurable : option bool;
}.

#[global] Instance descriptor_eq_dec : EqDecision descriptor.
Proof. solve_decision. Defined.

Definition IsAccessorDescriptor (d : descriptor) : bool :=
  bool_decide (is_Some (d_get d)) || bool_decide (is_Some (d_set d)).

Definition IsDataDescriptor (d : descriptor) : bool :=
  bool_decide (is_Some (d_value d)) || bool_decide (is_Some (d_writable d)).

Definition IsGenericDescriptor (d : descriptor) : bool :=
  negb (IsAccessorDescriptor d) && negb (IsDataDescriptor d).

(** [FromPropertyDescriptor]: the descriptor object
    [Object.getOwnPropertyDescriptor] builds for a stored property. *)
Definition FromPropertyDescriptor (p : property) : descriptor :=
  match p with
  | DataProperty v w e c =>
      Descriptor (Some v) (Some w) None None (Some e) (Some c)
  | AccessorProperty g s e c =>
      Descriptor None None (Some g) (Some s) (Some e) (Some c)
  end.

(** The checks of [ToPropertyDescriptor]: a descriptor has no accessor field
    next to a data field, and a getter or setter is callable or undefined. *)
Definition callable_or_undefined (o : option value) : bool :=
  match o with
  | None | Some VUndefined => true
  | Some f => IsCallable f
  end.

Definition valid_descriptor (d : descriptor) : bool :=
  callable_or_undefined (d_get d) && callable_or_undefined (d_set d)
  && negb (IsAccessorDescriptor d && IsDataDescriptor d).

(** A stored accessor property has a callable or undefined getter and
    setter. *)
Definition wf_property (cur : property) : bool :=
  match cur with
  | DataProperty _ _ _ _ => true
  | AccessorProperty g s _ _ =>
      callable_or_undefined (Some g) && callable_or_undefined (Some s)
  end.

(** The property a descriptor creates on a key that does not exist yet:
    absent fields take their defaults (ES5 8.12.9 step 4). *)
Definition new_property (d : descriptor) : property :=
  if IsAccessorDescriptor d then
    AccessorProperty (default VUndefined (d_get d)) (default VUndefined (d_set d))
                     (default false (d_enumerable d)) (default false (d_configurable d))
  else
    DataProperty (default VUndefined (d_value d)) (default false (d_writable d))
                 (default false (d_enumerable d)) (default false (d_configurable d)).

(** Is field [o] of a descriptor absent, or the same as the stored [x]? *)
Definition same_or_absent {A} `{EqDecision A} (o : option A) (x : A) : bool :=
  match o with
  | None => true
  | Some y => bool_decide (y = x)
  end.

(** ES5 8.12.9 step 6: every field of the descriptor occurs in the current
    property with the same value. *)
Definition already_same (d : descriptor) (cur : property) : bool :=
  match cur with
  | DataProperty v w e c =>
      same_or_absent (d_value d) v && same_or_absent (d_writable d) w
      && negb (IsAccessorDescriptor d)
      && same_or_absent (d_enumerable d) e && same_or_absent (d_configurable d) c
  | AccessorProperty g s e c =>
      same_or_absent (d_get d) g && same_or_absent (d_set d) s
      && negb (IsDataDescriptor d)
      && same_or_absent (d_enumerable d) e && same_or_absent (d_configurable d) c
  end.

(** ES5 8.12.9 steps 7 to 11: may the descriptor be applied to the current
    property? *)
Definition change_allowed (d : descriptor) (cur : property) : bool :=
  if configurable_of cur then true
  else
    negb (bool_decide (d_configurable d = Some true))
    && same_or_absent (d_enumerable d) (enumerable_of cur)
    && (if IsGenericDescriptor d then true
        else
          match cur with
          | DataProperty v w _ _ =>
              IsDataDescriptor d
              && (w || (negb (bool_decide (d_writable d = Some true))
                        && same_or_absent (d_value d) v))
          | AccessorProperty g s _ _ =>
              negb (IsDataDescriptor d)
              && same_or_absent (d_get d) g && same_or_absent (d_set d) s
          end).

(** ES5 8.12.9 steps 9 and 12: the property after the descriptor is applied.
    When the kind changes, enumerable and configurable are kept and the other
    attributes start from their defaults. *)
Definition apply_descriptor (d : descriptor) (cur : property) : property :=
  let e := default (enumerable_of cur) (d_enumerable d) in
  let c := default (configurable_of cur) (d_configurable d) in
  if IsGenericDescriptor d then
    match cur with
    | DataProperty v w _ _ => DataProperty v w e c
    | AccessorProperty g s _ _ => AccessorProperty g s e c
    end
  else if IsDataDescriptor d then
    match cur with
    | DataProperty v w _ _ =>
        DataProperty (default v (d_value d)) (default w (d_writable d)) e c
    | AccessorProperty _ _ _ _ =>
        DataProperty (default VUndefined (d_value d)) (default false (d_writable d)) e c
    end
  else
    match cur with
    | DataProperty _ _ _ _ =>
        AccessorProperty (default VUndefined (d_get d)) (default VUndefined (d_set d)) e c
    | AccessorProperty g s _ _ =>
        AccessorProperty (default g (d_get d)) (default s (d_set d)) e c
    end.

(** ** Elements *)

(** A DOM element (or any object the installer is applied to): its own
    property table, the own-property tables of the objects on its prototype
    chain, nearest first, and its [[Extensible]] flag. *)
Record element : Type := Element {
  own : gmap string property;
  prototype : list (gmap string property);
  extensible : bool;
}.

#[global] Instance element_eq_dec : EqDecision element.
Proof. solve_decision. Defined.

Definition set_own (f : gmap string property -> gmap string property)
    (el : element) : element :=
  Element (f (own el)) (prototype el) (extensible el).

Fixpoint chain_lookup (chain : list (gmap string property)) (p : string)
    : option property :=
  match chain with
  | [] => None
  | t :: rest =>
      match t !! p with
      | Some x => Some x
      | None => chain_lookup rest p
      end
  end.

(** [[GetProperty]]: the own property, or else the first one found along the
    prototype chain. *)
Definition GetProperty (el : element) (p : string) : option property :=
  chain_lookup (own el :: prototype el) p.

(** [p in el]. *)
Definition HasProperty (el : element) (p : string) : bool :=
  bool_decide (is_Some (GetProperty el p)).

(** [Object.getOwnPropertyDescriptor(el, p)]: [None] is [undefined]. *)
Definition Object_getOwnPropertyDescriptor (el : element) (p : string)
    : option descriptor :=
  FromPropertyDescriptor <$> (own el !! p).

(** [[DefineOwnProperty]] with Throw = true (ES5 8.12.9). *)
Definition DefineOwnProperty (p : string) (d : descriptor) : JS element unit :=
  fun el =>
    match own el !! p with
    | None =>
        if extensible el
        then (Normal tt, set_own (insert p (new_property d)) el)
        else (Throw TypeError, el)
    | Some cur =>
        if already_same d cur then (Normal tt, el)
        else if change_allowed d cur
        then (Normal tt, set_own (insert p (apply_descriptor d cur)) el)
        else (Throw TypeError, el)
    end.

(** [Object.defineProperty(el, p, attributes)]. [attributes] is [None] when
    the caller passes [undefined], which [ToPropertyDescriptor] rejects. *)
Definition Object_defineProperty (p : string) (attributes : option descriptor)
    : JS element unit :=
  match attributes with
  | None => throw TypeError
  | Some d =>
      if valid_descriptor d then DefineOwnProperty p d else throw TypeError
  end.

(** [delete el[p]] in strict code: removing a non-configurable own property
    throws; an inherited or missing property is left alone. *)
Definition delete_property (p : string) : JS element unit :=
  fun el =>
    match own el !! p with
    | None => (Normal tt, el)
    | Some cur =>
        if configurable_of cur
        then (Normal tt, set_own (delete p) el)
        else (Throw TypeError, el)
    end.

(** [v.hyperform]: reading a property of [undefined] or [null] throws; a
    primitive has no such property. *)
Definition get_hyperform (v : value) : outcome value :=
  match v with
  | VUndefined | VNull => Throw TypeError
  | VObject _ _ h => Normal h
  | _ => Normal VUndefined
  end.

(** ** The property installer and uninstaller *)

Section Installer.

(** What calling a getter function with [this] bound to the element
    yields. Getters are code of the page or of the polyfill modules; the
    installer only looks at what they return. *)
Variable call_getter : value -> element -> outcome value.

(** [el[p]]: the value of a data property, the result of the getter of an
    accessor property, [undefined] when there is no such property or no
    getter. *)
Definition Get (el : element) (p : string) : outcome value :=
  match GetProperty el p with
  | None => Normal VUndefined
  | Some (DataProperty v _ _ _) => Normal v
  | Some (AccessorProperty VUndefined _ _ _) => Normal VUndefined
  | Some (AccessorProperty g _ _ _) => call_getter g el
  end.

(** [property in element && ! element[property].hyperform] *)
Definition needs_backup (property : string) : JS element bool :=
  (element <- get_state ;;
   if HasProperty element property
   then
     v <- lift_outcome (Get element property) ;;
     h <- lift_outcome (get_hyperform v) ;;
     ret (negb (ToBoolean h))
   else ret false)%js.

(** [tools/property_installer.js]: the function the installer returns,
    applied to an element. *)
Definition installer (property : string) (descriptor : descriptor)
    : JS element unit :=
  (backup <- needs_backup property ;;
   (if backup : bool
    then
      element <- get_state ;;
      Object_defineProperty ("_original_" +:+ property)
        (Object_getOwnPropertyDescriptor element property)
    else ret tt) ;;;
   delete_property property ;;;
   Object_defineProperty property (Some descriptor))%js.

(** Modelled from the spec: [tools/property_uninstaller.js], which the
    wrapper imports as [uninstall], is not among the sources. The spec says
    that the original descriptor is kept under the renamed key "so it can
    be restored on uninstall" and that uninstall reverses the installation
    per property, per element: the override is deleted and the descriptor
    kept under ['_original_' + property], if there is one, is defined again
    under [property]. *)
Definition property_uninstaller (property : string) : JS element unit :=
  (delete_property property ;;;
   element <- get_state ;;
   match Object_getOwnPropertyDescriptor element ("_original_" +:+ property) with
   | Some original => Object_defineProperty property (Some original)
   | None => ret tt
   end)%js.

End Installer.

(** ** The wrapper: installing on elements *)

(** The properties [Wrapper.uninstall] removes from each element, in the
    order of its ten [uninstall] calls; [Wrapper.install] installs them in
    the same order ([ValidityState.install] is the one for [validity]). *)
Definition polyfill_names : list string :=
  [ "checkValidity"; "reportValidity"; "setCustomValidity"; "stepDown";
    "stepUp"; "validationMessage"; "validity"; "valueAsDate";
    "valueAsNumber"; "willValidate" ].

(** The loop of [Wrapper.install] and [Wrapper.uninstall]: the body runs on
    [els[i]] for each index in turn, and a throwing body leaves the later
    members untouched. The members are distinct objects. *)
Fixpoint for_each_member {A} (body : JS A unit) (els : list A)
    : outcome unit * list A :=
  match els with
  | [] => (Normal tt, [])
  | x :: rest =>
      match body x with
      | (Normal _, x') =>
          let '(o, rest') := for_each_member body rest in (o, x' :: rest')
      | (Throw e, x') => (Throw e, x' :: rest)
      end
  end.

Section WrapperInstall.

Variable call_getter : value -> element -> outcome value.

(** The descriptor each polyfill module hands to the property installer,
    by property name. *)
Variable polyfill_descriptor : string -> descriptor.

(** The property getters of [polyfills/properties.js], with their
    descriptors. *)
Variable property_getters : list (string * descriptor).

(** Modelled from the spec: the polyfill modules ([polyfills/checkValidity]
    and the like) are not among the sources. Each exposes [install], which
    by the spec is the property installer applied to the polyfill's
    property name and descriptor; the descriptors are left open. *)
Definition polyfill_install (name : string) : JS element unit :=
  installer call_getter name (polyfill_descriptor name).

(** Modelled from the spec: [polyfills/properties.js] is not among the
    sources. [install_properties] installs the polyfill's versions of the
    property getters ([Wrapper.uninstall] calls them "our versions of
    property getters") through the property installer; which properties,
    and with which descriptors, is left open. *)
Definition install_properties : JS element unit :=
  for_each (fun '(name, d) => installer call_getter name d) property_getters.

(** The per-property uninstaller that [wrapper.js] imports from
    [tools/property_uninstaller], which is not among the sources. *)
Variable uninstall : string -> JS element unit.

(** The body of the loop of [Wrapper.install]. *)
Definition install_element : JS element unit :=
  (polyfill_install "checkValidity" ;;;
   polyfill_install "reportValidity" ;;;
   polyfill_install "setCustomValidity" ;;;
   polyfill_install "stepDown" ;;;
   polyfill_install "stepUp" ;;;
   polyfill_install "validationMessage" ;;;
   polyfill_install "validity" ;;;
   polyfill_install "valueAsDate" ;;;
   polyfill_install "valueAsNumber" ;;;
   polyfill_install "willValidate" ;;;
   install_properties)%js.

(** [Wrapper.install(els)]; a single [HTMLElement] is first wrapped in a
    one-member array. *)
Definition Wrapper_install : JS (list element) unit :=
  for_each_member install_element.

(** [Wrapper.install_form(form)] *)
Definition Wrapper_install_form : JS element unit :=
  (polyfill_install "checkValidity" ;;;
   polyfill_install "reportValidity")%js.

(** The body of the loop of [Wrapper.uninstall]; the getters of
    [install_properties] are not uninstalled ("TODO uninstall our versions
    of property getters"). *)
Definition uninstall_element : JS element unit :=
  (uninstall "checkValidity" ;;;
   uninstall "reportValidity" ;;;
   uninstall "setCustomValidity" ;;;
   uninstall "stepDown" ;;;
   uninstall "stepUp" ;;;
   uninstall "validationMessage" ;;;
   uninstall "validity" ;;;
   uninstall "valueAsDate" ;;;
   uninstall "valueAsNumber" ;;;
   uninstall "willValidate")%js.

(** [Wrapper.uninstall(els)] *)
Definition Wrapper_uninstall : JS (list element) unit :=
  for_each_member uninstall_element.

End WrapperInstall.

(** ** Catching submission ([tools/catch_submit.js]) *)

(** What the listeners do to the page: the calls they make on the event,
    on a member of [form.elements] and on the form, in order. What a call
    sets off in turn (the listeners that a click runs) is not recorded. *)
Inductive action : Type :=
| PreventDefault           (* event.preventDefault() *)
| Click (i : nat)          (* form.elements[i].click() *)
| ReportValidity           (* reportValidity(form) *)
| Submit.                  (* form.submit() *)

#[global] Instance action_eq_dec : EqDecision action.
Proof. solve_decision. Defined.

(** [array.indexOf(x) > -1] on an array of strings. *)
Definition includes (array : list string) (x : string) : bool :=
  bool_decide (x ∈ array).

(** An element associated with a form: its [nodeName], the value of its
    [type] property (the empty string stands for an element without one),
    and its [id] and [name], the names under which the form exposes it. *)
Record control : Type := Control {
  control_nodeName : string;
  control_type : string;
  control_names : list string;
}.

#[global] Instance control_eq_dec : EqDecision control.
Proof. solve_decision. Defined.

(** The form an event target belongs to: whether it carries the [novalidate]
    attribute, and the elements associated with it (its controls and its
    images), in tree order. *)
Record form_state : Type := FormState {
  has_novalidate : bool;
  form_controls : list control;
}.

(** The listed elements of the HTML standard. *)
Definition is_listed (c : control) : bool :=
  includes ["BUTTON"; "FIELDSET"; "INPUT"; "OBJECT"; "OUTPUT"; "SELECT"; "TEXTAREA"]
           (control_nodeName c).

(** An image button, [<input type=image>]. *)
Definition is_image_button (c : control) : bool :=
  String.eqb (control_nodeName c) "INPUT" && String.eqb (control_type c) "image".

(** The members of the collection [form.elements]: the listed elements of
    the form; for historical reasons the DOM leaves image buttons out. *)
Definition in_elements (c : control) : bool :=
  is_listed c && negb (is_image_button c).

Definition form_elements (f : form_state) : list control :=
  filter (λ c, in_elements c = true) (form_controls f).

(** The elements a form exposes as its property [name]: the members of
    [form.elements] with that [id] or [name], or else the images with it.
    (Names an element had earlier in the life of the page are not
    modelled.) *)
Definition named_elements (f : form_state) (name : string) : list control :=
  match filter (λ c, in_elements c = true ∧ name ∈ control_names c) (form_controls f) with
  | [] =>
      filter (λ c, control_nodeName c = "IMG" ∧ name ∈ control_names c)
             (form_controls f)
  | candidates => candidates
  end.

(** [form.hasAttribute('novalidate')]. The elements a form exposes by name
    shadow its built-in members: when one is exposed as [hasAttribute], that
    element (or node list) is what is called, and it is no function. *)
Definition form_hasAttribute_novalidate (f : form_state) : outcome bool :=
  match named_elements f "hasAttribute" with
  | [] => Normal (has_novalidate f)
  | _ => Throw TypeError
  end.

(** [form.elements] as the loop of the keypress listener reads it: the
    [type] of the member at each index below [length]. Shadowed by a single
    element, it has no member the loop can match (no [length], or for a
    [select] the options, which have no [type]); shadowed by several, it is
    the node list of those. *)
Definition form_elements_types (f : form_state) : list string :=
  match named_elements f "elements" with
  | [] => control_type <$> form_elements f
  | [_] => []
  | candidates => control_type <$> candidates
  end.

Record event_target : Type := EventTarget {
  nodeName : string;
  target_type : string;
  has_formnovalidate : bool;
  target_form : option form_state;
}.

Record event : Type := Event {
  defaultPrevented : bool;
  keyCode : Z;
  target : event_target;
}.

Definition emit (a : action) : JS (list action) unit :=
  modify (fun trace => trace ++ [a]).

(** [form.submit()]: the method of the form, unless an element exposed as
    [submit] shadows it. *)
Definition form_submit (f : form_state) : JS (list action) unit :=
  match named_elements f "submit" with
  | [] => emit Submit
  | _ => throw TypeError
  end.

(** The loop of the keypress listener: the index of the first member whose
    type is ['image'] or ['submit'], counting from [i]. *)
Fixpoint first_submit (i : nat) (types : list string) : option nat :=
  match types with
  | [] => None
  | t :: rest =>
      if includes ["image"; "submit"] t then Some i
      else first_submit (S i) rest
  end.

(** [event.target.form && ! event.target.form.hasAttribute('novalidate')] *)
Definition form_validates (e : event) : outcome bool :=
  match target_form (target e) with
  | Some f =>
      match form_hasAttribute_novalidate f with
      | Normal b => Normal (negb b)
      | Throw err => Throw err
      end
  | None => Normal false
  end.

Section CatchSubmit.

(** The array [text] of [components/types], which is not among the
    sources. *)
Variable text_types : list string.

(** What the [reportValidity] polyfill, which is not among the sources,
    returns for the form of the event's target. *)
Variable reportValidity : option form_state -> bool.

(** [check(event)] *)
Definition check (e : event) : JS (list action) unit :=
  (emit PreventDefault ;;;
   emit ReportValidity ;;;
   if reportValidity (target_form (target e))
   then
     match target_form (target e) with
     | Some f => form_submit f
     | None => throw TypeError
     end
   else ret tt)%js.

(** The condition of the [if] of the keypress listener; [&&] evaluates its
    right operand only when the left one is truthy. *)
Definition implicit_submission (e : event) : outcome bool :=
  if negb (defaultPrevented e)
     && (keyCode e =? 13)%Z
     && String.eqb (nodeName (target e)) "INPUT"
     && includes text_types (target_type (target e))
  then form_validates e
  else Normal false.

(** The listener for [keypress] ("catch implicit submission"). *)
Definition keypress_listener (e : event) : JS (list action) unit :=
  (implicit <- lift_outcome (implicit_submission e) ;;
   if implicit : bool then
     match first_submit 0 (from_option form_elements_types []
                             (target_form (target e))) with
     | Some i => emit PreventDefault ;;; emit (Click i)
     | None => check e
     end
   else ret tt)%js.

(** The condition of the [if] of the click listener. *)
Definition explicit_submission (e : event) : outcome bool :=
  if negb (defaultPrevented e)
     && (String.eqb (nodeName (target e)) "INPUT"
         || String.eqb (nodeName (target e)) "BUTTON")
     && includes ["image"; "submit"] (target_type (target e))
     && negb (has_formnovalidate (target e))
  then form_validates e
  else Normal false.

(** The listener for [click] ("catch explicit submission"). *)
Definition click_listener (e : event) : JS (list action) unit :=
  (explicit <- lift_outcome (explicit_submission e) ;;
   if explicit : bool then check e else ret tt)%js.

End CatchSubmit.

(** ** The page *)

(** What the constructor of the wrapper tells apart with [===] and
    [instanceof]: the window, a document, a form, a fieldset, anything
    else. *)
Inductive node_class : Type :=
| Window | HTMLDocument | HTMLFormElement | HTMLFieldSetElement | OtherNode.

#[global] Instance node_class_eq_dec : EqDecision node_class.
Proof. solve_decision. Defined.

(** A registered event listener: event type, identity of the callback
    function, and the capture flag. *)
Record listener : Type := Listener {
  l_type : string;
  l_callback : N;
  l_capture : bool;
}.

#[global] Instance listener_eq_dec : EqDecision listener.
Proof. solve_decision. Defined.

(** An object of the page as it is stored: its own property table, the
    identities of the objects on its prototype chain, nearest first, and its
    [[Extensible]] flag. Objects are shared: a control is the same object in
    [form.elements], in the [elements] of the fieldset around it and as a
    node of its own, and a prototype is the same object for every element
    that inherits from it. *)
Record object : Type := Object {
  object_own : gmap string property;
  object_prototypes : list N;
  object_extensible : bool;
}.

#[global] Instance object_eq_dec : EqDecision object.
Proof. solve_decision. Defined.

Abbreviation heap := (gmap N object).

(** An event target: its class, the identities of the members of its
    [elements] collection, and its listeners in registration order. These
    are the DOM's own: the properties the polyfills install are taken not to
    be among the members the wrapper itself reads from a node ([elements],
    [addEventListener], [removeEventListener]). *)
Record node : Type := Node {
  class_of : node_class;
  node_elements : list N;
  node_listeners : list listener;
}.

#[global] Instance node_eq_dec : EqDecision node.
Proof. solve_decision. Defined.

(** A [Wrapper] instance: [this.form], [this.settings], [this.revalidator]. *)
Record wrapper : Type := Wrapper {
  wrapper_form : N;
  wrapper_settings : gmap string value;
  wrapper_revalidator : N;
}.

(** The page. Values the code is handed are named by an identity. [objects]
    holds the property tables of the objects of the page, [nodes] what the
    DOM knows of those that are event targets; an identity in neither stands
    for a primitive value (a selector string, [null]). Then the identities of
    the five element prototypes the document-wide installation patches and
    of the [HTMLFormElement] constructor, the [instances] map of
    [wrapper.js], and the identity the next function or object created will
    get. *)
Record world : Type := World {
  objects : heap;
  nodes : gmap N node;
  element_prototypes : list N;
  HTMLFormElement_object : N;
  instances : gmap N wrapper;
  next_id : N;
}.

Definition set_node_listeners (f : list listener -> list listener) (n : node) : node :=
  Node (class_of n) (node_elements n) (f (node_listeners n)).

Definition set_objects (f : heap -> heap) (w : world) : world :=
  World (f (objects w)) (nodes w) (element_prototypes w) (HTMLFormElement_object w)
        (instances w) (next_id w).

Definition set_nodes (f : gmap N node -> gmap N node) (w : world) : world :=
  World (objects w) (f (nodes w)) (element_prototypes w) (HTMLFormElement_object w)
        (instances w) (next_id w).

Definition set_instances (f : gmap N wrapper -> gmap N wrapper) (w : world) : world :=
  World (objects w) (nodes w) (element_prototypes w) (HTMLFormElement_object w)
        (f (instances w)) (next_id w).

(** Run a computation on one component of the state. *)
Definition zoom {S T A} (proj : S -> T) (upd : (T -> T) -> S -> S)
    (m : JS T A) : JS S A :=
  fun s => let '(o, t) := m (proj s) in (o, upd (fun _ => t) s).

(** The own property table of the object [id]. *)
Definition own_table (h : heap) (id : N) : gmap string property :=
  from_option object_own ∅ (h !! id).

(** An object as the property installer sees it: its own properties, and the
    properties its prototypes have at this moment. *)
Definition element_of (h : heap) (o : object) : element :=
  Element (object_own o) (own_table h <$> object_prototypes o) (object_extensible o).

(** What a computation on an object leaves behind is stored in the object;
    none changes the prototype chain. *)
Definition store_element (el : element) (o : object) : object :=
  Object (own el) (object_prototypes o) (extensible el).

(** Run a computation on the object [id]. A value that is no object
    ([undefined], for one) has no properties to look at: [property in
    element] throws. *)
Definition with_object {A} (id : N) (m : JS element A) : JS heap A :=
  fun h =>
    match h !! id with
    | None => (Throw TypeError, h)
    | Some o =>
        let '(r, el) := m (element_of h o) in (r, <[id := store_element el o]> h)
    end.

(** Run a computation on the node [form]; a value that is no event target
    has none of the methods called on it. *)
Definition with_node {A} (form : N) (m : JS node A) : JS world A :=
  fun w =>
    match nodes w !! form with
    | None => (Throw TypeError, w)
    | Some n => let '(o, n') := m n in (o, set_nodes (insert form n') w)
    end.

(** A function or object created while the code runs gets a new identity. *)
Definition fresh : JS world N :=
  fun w => (Normal (next_id w),
            World (objects w) (nodes w) (element_prototypes w)
                  (HTMLFormElement_object w) (instances w) (N.succ (next_id w))).

(** The listener list of an event target after a registration: a listener
    already registered with the same type, callback and capture flag is not
    added again. *)
Definition add_listener (l : listener) (ls : list listener) : list listener :=
  if bool_decide (l ∈ ls) then ls else ls ++ [l].

(** [node.addEventListener(type, callback, capture)] *)
Definition addEventListener (type : string) (callback : N) (capture : bool)
    : JS node unit :=
  modify (set_node_listeners (add_listener (Listener type callback capture))).

(** [catch_submit(listening_node)]: the two listeners are function
    expressions, new functions at every call. *)
Definition catch_submit (listening_node : N) : JS world unit :=
  (on_click <- fresh ;;
   with_node listening_node (addEventListener "click" on_click false) ;;;
   on_keypress <- fresh ;;
   with_node listening_node (addEventListener "keypress" on_keypress false))%js.

(** [object.property], [undefined] when the object has no such property. *)
Definition member (object : gmap string value) (property : string) : value :=
  default VUndefined (object !! property).

(** Is the value an object? Event targets are. *)
Definition is_object (w : world) (id : N) : bool :=
  bool_decide (is_Some (objects w !! id) ∨ is_Some (nodes w !! id)).

(** [instances.set(form, this)]: [instances] is a [WeakMap], whose keys are
    objects; for any other key [set] throws a [TypeError]. *)
Definition instances_set (form : N) (this : wrapper) : JS world unit :=
  fun w =>
    if is_object w form
    then (Normal tt, set_instances (insert form this) w)
    else (Throw TypeError, w).

Section WrapperConstructor.

Variable call_getter : value -> element -> outcome value.
Variable polyfill_descriptor : string -> descriptor.
Variable property_getters : list (string * descriptor).

(** [this.install(els)] on objects of the page: the loop of
    [Wrapper_install], its body run on the object each member names. *)
Definition install (els : list N) : JS heap unit :=
  for_each (fun el =>
    with_object el (install_element call_getter polyfill_descriptor property_getters))
    els.

(** [this.install_form(form)] on an object of the page. *)
Definition install_form (form : N) : JS heap unit :=
  with_object form (Wrapper_install_form call_getter polyfill_descriptor).

(** Lines 111 to 117 of [wrapper.js]: the fields of the new instance, its
    registration in [instances], and [catch_submit]. The second argument of
    the call, [settings.revalidate === 'never'], has no parameter to go to
    in the [catch_submit] of the sources. *)
Definition Wrapper_setup (form : N) (settings : gmap string value)
    : JS world wrapper :=
  (revalidator <- fresh ;;
   let this := Wrapper form settings revalidator in
   instances_set form this ;;;
   catch_submit form ;;;
   ret this)%js.

(** Lines 119 to 135: where the polyfills are installed depends on what is
    wrapped. *)
Definition Wrapper_install_phase (form : N) : JS world unit :=
  (w <- get_state ;;
   match nodes w !! form with
   | Some n =>
       zoom objects set_objects
         match class_of n with
         | Window | HTMLDocument =>
             install (element_prototypes w) ;;;
             install_form (HTMLFormElement_object w)
         | HTMLFormElement =>
             install (node_elements n) ;;;
             install_form form
         | HTMLFieldSetElement =>
             install (node_elements n)
         | OtherNode => ret tt
         end
   | None => ret tt
   end)%js.

(** Lines 137 to 148: the revalidation listeners. *)
Definition Wrapper_attach (this : wrapper) : JS world unit :=
  let form := wrapper_form this in
  let revalidate := member (wrapper_settings this) "revalidate" in
  ((if strict_equal revalidate (VString "oninput")
       || strict_equal revalidate (VString "hybrid")
    then
      with_node form (addEventListener "keyup" (wrapper_revalidator this) false) ;;;
      with_node form (addEventListener "change" (wrapper_revalidator this) false)
    else ret tt) ;;;
   (if strict_equal revalidate (VString "onblur")
       || strict_equal revalidate (VString "hybrid")
    then with_node form (addEventListener "blur" (wrapper_revalidator this) true)
    else ret tt))%js.

(** [new Wrapper(form, settings)] *)
Definition Wrapper_constructor (form : N) (settings : gmap string value)
    : JS world wrapper :=
  (this <- Wrapper_setup form settings ;;
   Wrapper_install_phase form ;;;
   Wrapper_attach this ;;;
   ret this)%js.

End WrapperConstructor.

(** ** The public entry point ([hyperform.js]) *)

(** What [hyperform] is called on: a single node (a form, the document, the
    window), or a [NodeList], [HTMLCollection] or [Array] of such. *)
Inductive form_argument : Type :=
| Single (form : N)
| Collection (members : list form_argument).

(** What [hyperform] returns: a wrapper, or an array of results. *)
Inductive result : Type :=
| RWrapper (w : wrapper)
| RArray (results : list result).

(** The object literal [{}]. *)
Definition new_object : JS world value :=
  (id <- fresh ;; ret (VObject false id VUndefined))%js.

(** A destructured parameter with a default, and the
    [if (x === undefined) x = ...] that follow. *)
Definition or_default (v dflt : value) : value :=
  if strict_equal v VUndefined then dflt else v.

(** Lines 25 to 51: the options are destructured, the defaults filled in,
    and the settings object built. *)
Definition resolve_settings (options : gmap string value)
    : JS world (gmap string value) :=
  let strict := or_default (member options "strict") (VBool false) in
  let revalidate :=
    or_default (member options "revalidate")
      (if ToBoolean strict then VString "onsubmit" else VString "hybrid") in
  let valid_event :=
    or_default (member options "valid_event") (VBool (negb (ToBoolean strict))) in
  let extend_fieldset :=
    or_default (member options "extend_fieldset") (VBool (negb (ToBoolean strict))) in
  let novalidate_on_elements :=
    or_default (member options "novalidate_on_elements")
      (VBool (negb (ToBoolean strict))) in
  (classes <- (if negb (ToBoolean (member options "classes"))
               then new_object
               else ret (member options "classes")) ;;
   ret (<["strict" := strict]>
        (<["revalidate" := revalidate]>
         (<["valid_event" := valid_event]>
          (<["extend_fieldset" := extend_fieldset]>
           (<["classes" := classes]> ∅))))))%js.

Section Hyperform.

Variable call_getter : value -> element -> outcome value.
Variable polyfill_descriptor : string -> descriptor.
Variable property_getters : list (string * descriptor).

(** [hyperform(form, options)]; [options] is [None] when the argument is
    left out or [undefined], and the parameter defaults to [{}]. *)
Fixpoint hyperform (form : form_argument) (options : option (gmap string value))
    : JS world result :=
  bind (resolve_settings (default ∅ options)) (fun settings =>
    match form with
    | Collection members =>
        bind (map_call (fun element => hyperform element (Some settings)) members)
             (fun results => ret (RArray results))
    | Single form =>
        bind (Wrapper_constructor call_getter polyfill_descriptor
                property_getters form settings)
             (fun this => ret (RWrapper this))
    end).

End Hyperform.

(** ** The hook registry *)

Module Hooks.

(** The [this] of a callback. *)
Record context : Type := Context {
  state : value;
  hook : string;
}.

(** A registered callback: its identity as a function object, and what a
    call returns for a given [this] and argument ([VUndefined] when it
    returns nothing). *)
Record callback : Type := Callback {
  cb_id : N;
  cb_call : context -> value -> value;
}.

(** One call of a callback, as [call_hook] made it. *)
Record invocation : Type := Invocation {
  inv_callback : N;
  inv_this : context;
  inv_argument : value;
}.

(** Modelled from the spec: [components/hooks.js] is not among the sources,
    only its test is. The registry is a "mapping from hook name to ordered
    list of callback functions". *)
Abbreviation registry := (gmap string (list callback)).

Definition callbacks (reg : registry) (name : string) : list callback :=
  default [] (reg !! name).

(** Modelled from the spec: [add_hook(name, fn)] of the absent
    [components/hooks.js]; callbacks are kept in insertion order. *)
Definition add_hook (name : string) (fn : callback) (reg : registry) : registry :=
  <[name := callbacks reg name ++ [fn]]> reg.

(** Modelled from the spec: [remove_hook(name, fn)] of the absent
    [components/hooks.js]; [fn] is taken off the list of [name], functions
    being compared by identity. *)
Definition remove_hook (name : string) (fn : callback) (reg : registry) : registry :=
  match reg !! name with
  | Some cbs => <[name := filter (fun cb => cb_id cb ≠ cb_id fn) cbs]> reg
  | None => reg
  end.

(** Modelled from the spec: the fan-out of [call_hook]. Every callback is
    called in turn with [this] carrying [{state, hook}] and with the value
    being dispatched; a callback overrides the value by returning one
    (anything but [undefined]). The calls made are recorded next to the
    value returned. *)
Fixpoint dispatch (name : string) (cbs : list callback) (v : value)
    : value * list invocation :=
  match cbs with
  | [] => (v, [])
  | cb :: rest =>
      let this := Context v name in
      let returned := cb_call cb this v in
      let v' := if strict_equal returned VUndefined then v else returned in
      let '(final, calls) := dispatch name rest v' in
      (final, Invocation (cb_id cb) this v :: calls)
  end.

(** Modelled from the spec: [call_hook(name, value)] of the absent
    [components/hooks.js]. *)
Definition call_hook (name : string) (v : value) (reg : registry)
    : value * list invocation :=
  dispatch name (callbacks reg name) v.

(** A callback that does not override the value: it returns nothing, or
    hands back the argument it was given. *)
Definition passive (cb : callback) : Prop :=
  ∀ this arg, cb_call cb this arg = VUndefined ∨ cb_call cb this arg = arg.

(** The callbacks of the tests: [arg => called = arg], which hands back its
    argument, and a function that looks at [this] and returns nothing. *)
Definition test_callback (id : N) : callback :=
  Callback id (fun _ arg => arg).

Definition reading_callback (id : N) : callback :=
  Callback id (fun _ _ => VUndefined).

End Hooks.

(** ** Sample data *)

(** A getter semantics for examples without accessor properties. *)
Definition getters_return_undefined : value -> element -> outcome value :=
  fun _ _ => Normal VUndefined.

(** A function of the browser, and a function the polyfill has marked. *)
Definition native_function (id : N) : value := VObject true id VUndefined.
Definition marked_function (id : N) : value := VObject true id (VBool true).

(** The descriptor of a polyfilled method: a configurable, enumerable,
    writable data property holding a marked function. *)
Definition method_descriptor (id : N) : descriptor :=
  Descriptor (Some (marked_function id)) (Some true) None None (Some true) (Some true).

(** An input element of a browser with native constraint validation:
    [checkValidity] lives on the prototype, the element itself has no own
    properties. *)
Definition native_input : element :=
  Element ∅ [ {[ "checkValidity" := DataProperty (native_function 1) true true true ]} ] true.

(** An element on which [checkValidity] has been polyfilled, the native
    method it had as an own property kept under the renamed key. *)
Definition polyfilled_input : element :=
  Element (<["checkValidity" := new_property (method_descriptor 7)]>
           {[ "_original_checkValidity" := DataProperty (native_function 1) true true true ]})
          [] true.

(** A computation that leaves the own property [q] of the element as it
    was, whatever its outcome. *)
Definition keeps {A} (q : string) (m : JS element A) : Prop :=
  ∀ el, own (m el).2 !! q = own el !! q.

(** A control of a browser without native constraint validation: it has
    none of the polyfilled properties, only [value] on its prototype. *)
Definition legacy_input : element :=
  Element ∅ [ {[ "value" := DataProperty (VString "") true true true ]} ] true.

(** Every polyfill installed as a marked method, and one property getter,
    [required], installed as an accessor with a marked getter. *)
Definition sample_polyfills : string -> descriptor :=
  fun _ => method_descriptor 7.

Definition sample_getters : list (string * descriptor) :=
  [ ("required",
     Descriptor None None (Some (marked_function 8)) (Some (marked_function 9))
                (Some true) (Some true)) ].





(** A search form whose only button is an image button, one whose hidden
    field is named [submit], and the Enter keypress on the text input of a
    form. *)
Definition image_form : form_state :=
  FormState false [ Control "INPUT" "text" ["q"]; Control "INPUT" "image" ["go"] ].

Definition shadowing_form : form_state :=
  FormState false [ Control "INPUT" "text" ["q"]; Control "INPUT" "hidden" ["submit"] ].

Definition enter_in (f : form_state) : event :=
  Event false 13 (EventTarget "INPUT" "text" false (Some f)).

(** The listeners registered on an event target of the page. *)
Definition listeners_of (w : world) (form : N) : list listener :=
  from_option node_listeners [] (nodes w !! form).

(** The objects of a page in a browser without native constraint
    validation: a form (1) with a fieldset (3) in it and an input (5) in the
    fieldset, a [div] (2), the document (4), the five element prototypes (50
    to 54, the input's with a [value]) and the [HTMLFormElement] constructor
    (60). None has any of the polyfilled properties. *)
Definition legacy_object (prototypes : list N) : object := Object ∅ prototypes true.

Definition legacy_heap : heap :=
  list_to_map
    [ (1%N, legacy_object []); (2%N, legacy_object []); (3%N, legacy_object [54%N]);
      (4%N, legacy_object []); (5%N, legacy_object [51%N]);
      (50%N, legacy_object []);
      (51%N, Object {[ "value" := DataProperty (VString "") true true true ]} [] true);
      (52%N, legacy_object []); (53%N, legacy_object []); (54%N, legacy_object []);
      (60%N, legacy_object []) ].

(** The form of that page; the fieldset and the input are its [elements].
    Nothing is registered on it yet. *)
Definition sample_form : node := Node HTMLFormElement [3%N; 5%N] [].

(** The page with the form as its only event target. *)
Definition sample_world : world :=
  World legacy_heap {[ 1%N := sample_form ]} [50; 51; 52; 53; 54]%N 60 ∅ 10.

(** The objects the polyfills are installed on when the node [form] is
    wrapped, in the order of lines 119 to 135 of [wrapper.js]. *)
Definition install_targets (w : world) (form : N) : list N :=
  match nodes w !! form with
  | Some n =>
      match class_of n with
      | Window | HTMLDocument => element_prototypes w ++ [HTMLFormElement_object w]
      | HTMLFormElement => node_elements n ++ [form]
      | HTMLFieldSetElement => node_elements n
      | OtherNode => []
      end
  | None => []
  end.

(** Induction over what [hyperform] is called on, with the hypothesis for
    every member of a collection. *)
Definition form_argument_rect'
    (P : form_argument -> Type)
    (Q : list form_argument -> Type)
    (HS : ∀ form, P (Single form))
    (HC : ∀ members, Q members -> P (Collection members))
    (Hnil : Q [])
    (Hcons : ∀ m members, P m -> Q members -> Q (m :: members))
    : ∀ form, P form :=
  fix go (form : form_argument) : P form :=
    match form with
    | Single f => HS f
    | Collection members =>
        HC members
          ((fix go_members (ms : list form_argument) : Q ms :=
              match ms with
              | [] => Hnil
              | m :: rest => Hcons m rest (go m) (go_members rest)
              end) members)
    end.

(** The result [r] of [hyperform] has the shape of the argument: a wrapper
    bound to the node and to [settings] for a single node, an array with one
    such result per member for a collection. *)
Inductive bound_to (settings : gmap string value) : form_argument -> result -> Prop :=
| bound_single (form : N) (this : wrapper) :
    wrapper_form this = form ->
    wrapper_settings this = settings ->
    bound_to settings (Single form) (RWrapper this)
| bound_collection (members : list form_argument) (results : list result) :
    Forall2 (bound_to settings) members results ->
    bound_to settings (Collection members) (RArray results).

(** Every wrapper in a result, members of arrays included. *)
Fixpoint wrappers_of (r : result) : list wrapper :=
  match r with
  | RWrapper this => [this]
  | RArray results =>
      (fix wrappers_of_list (rs : list result) : list wrapper :=
         match rs with
         | [] => []
         | r :: rest => wrappers_of r ++ wrappers_of_list rest
         end) results
  end.

(** The nodes [hyperform] will wrap, members of collections included. *)
Fixpoint nodes_of (form : form_argument) : list N :=
  match form with
  | Single f => [f]
  | Collection members =>
      (fix nodes_of_list (ms : list form_argument) : list N :=
         match ms with
         | [] => []
         | m :: rest => nodes_of m ++ nodes_of_list rest
         end) members
  end.

(** A computation that leaves a part of the state as it was, whatever its
    outcome. *)
Definition preserves {S A X} (part : S -> X) (m : JS S A) : Prop :=
  ∀ s, part (m s).2 = part s.

(** The objects the polyfills are installed on when [hyperform] is called
    on [form], members of collections included. *)
Definition all_targets (w : world) (form : form_argument) : list N :=
  nodes_of form ≫= install_targets w.

(** An event target for which the installation of the polyfills completes
    on the page as it is: no [TypeError] from the installer on any of the
    objects it is applied to. *)
Definition installable
    (call_getter : value -> element -> outcome value)
    (polyfill_descriptor : string -> descriptor)
    (property_getters : list (string * descriptor)) (w : world) (form : N) : Prop :=
  is_Some (nodes w !! form)
  ∧ (Wrapper_install_phase call_getter polyfill_descriptor property_getters
       form w).1 = Normal tt.

(** An object of a browser without constraint validation, as far as the
    installation of the polyfills goes: it is extensible, has none of the
    properties [names], of its own or inherited, and none of its prototypes
    is among the objects [targets] that are patched. *)
Definition fresh_object (names : list string) (targets : list N)
    (h : heap) (id : N) : Prop :=
  ∃ o, h !! id = Some o
     ∧ object_extensible o = true
     ∧ (∀ p, p ∈ object_prototypes o → p ∉ targets)
     ∧ (∀ name, name ∈ names → HasProperty (element_of h o) name = false).

(** The listeners of a node after [catch_submit], when the next new
    function gets the identity [N.succ r]. *)
Definition caught_listeners (r : N) (ls : list listener) : list listener :=
  add_listener (Listener "keypress" (N.succ (N.succ r)) false)
    (add_listener (Listener "click" (N.succ r) false) ls).

(** Lines 119 to 135 of [wrapper.js] for a node of class [c] with the
    [elements] [els], as a computation on the objects of the page. *)
Definition install_program
    (call_getter : value -> element -> outcome value)
    (polyfill_descriptor : string -> descriptor)
    (property_getters : list (string * descriptor))
    (c : node_class) (els prototypes : list N) (constructor form : N)
    : JS heap unit :=
  match c with
  | Window | HTMLDocument =>
      (install call_getter polyfill_descriptor property_getters prototypes ;;;
       install_form call_getter polyfill_descriptor constructor)%js
  | HTMLFormElement =>
      (install call_getter polyfill_descriptor property_getters els ;;;
       install_form call_getter polyfill_descriptor form)%js
  | HTMLFieldSetElement =>
      install call_getter polyfill_descriptor property_getters els
  | OtherNode => ret tt
  end.

(** The objects [install_program] is applied to. *)
Definition program_targets
    (c : node_class) (els prototypes : list N) (constructor form : N) : list N :=
  match c with
  | Window | HTMLDocument => prototypes ++ [constructor]
  | HTMLFormElement => els ++ [form]
  | HTMLFieldSetElement => els
  | OtherNode => []
  end.

(** Two heaps hold the same objects at the identities in [S]. *)
Definition agree (S : N -> Prop) (h1 h2 : heap) : Prop :=
  ∀ j, S j → h1 !! j = h2 !! j.

(** The objects [ids] and the objects on their prototype chains are among
    the identities in [S]. *)
Definition closed (S : N -> Prop) (ids : list N) (h : heap) : Prop :=
  ∀ id, id ∈ ids →
    S id ∧ ∀ o p, h !! id = Some o → p ∈ object_prototypes o → S p.

(** A computation on the heap that looks at nothing but the objects [ids]
    and their prototypes: on two heaps that hold the same objects in [S] it
    has the same outcome, and leaves heaps that still do. *)
Definition respects {A} (S : N -> Prop) (ids : list N) (m : JS heap A) : Prop :=
  ∀ h1 h2, agree S h1 h2 → closed S ids h1 →
    (m h1).1 = (m h2).1 ∧ agree S (m h1).2 (m h2).2 ∧ closed S ids (m h1).2.

(** Two states of the page with the same event targets, of the same classes
    and with the same [elements], and the same prototypes and
    [HTMLFormElement]: they differ in properties, listeners and instances
    only. *)
Definition same_structure (w0 w : world) : Prop :=
  element_prototypes w = element_prototypes w0
  ∧ HTMLFormElement_object w = HTMLFormElement_object w0
  ∧ ∀ g, (λ n, (class_of n, node_elements n)) <$> nodes w !! g
         = (λ n, (class_of n, node_elements n)) <$> nodes w0 !! g.

(** The page with all its event targets: the form (1), the [div] (2), the
    fieldset (3) and the document (4); and a collection of the form and the
    [div]. *)
Definition sample_page : world :=
  World legacy_heap
        (list_to_map [ (1%N, sample_form); (2%N, Node OtherNode [] []);
                       (3%N, Node HTMLFieldSetElement [5%N] []);
                       (4%N, Node HTMLDocument [] []) ])
        [50; 51; 52; 53; 54]%N 60 ∅ 10.

Definition sample_collection : form_argument :=
  Collection [Single 1; Single 2].

Definition sample_options : gmap string value :=
  <["strict" := VBool true]> {[ "novalidate_on_elements" := VBool true ]}.

(** ** Revalidation, destruction and lookup of wrappers ([wrapper.js]) *)

(** What [Wrapper.revalidate] tells apart with [instanceof] on the target of
    an event. *)
Inductive target_class : Type :=
| HTMLButtonElement | HTMLTextAreaElement | HTMLSelectElement
| HTMLInputElement | OtherTarget.

(** The event a revalidation listener receives: its type, and of its target
    the identity, the class, [value], [defaultValue] and [validity.valid]. *)
Record input_event : Type := InputEvent {
  ev_type : string;
  ev_target : N;
  ev_class : target_class;
  ev_value : value;
  ev_defaultValue : value;
  ev_valid : bool;
}.

(** [reportValidity(event.target)], recorded by the identity of the target. *)
Definition report (e : input_event) : JS (list N) unit :=
  modify (fun reported => reported ++ [ev_target e]).

(** [Wrapper.revalidate(event)], for a wrapper with the given settings. *)
Definition Wrapper_revalidate (settings : gmap string value) (e : input_event)
    : JS (list N) unit :=
  match ev_class e with
  | HTMLButtonElement | HTMLTextAreaElement | HTMLSelectElement
  | HTMLInputElement =>
      if strict_equal (member settings "revalidate") (VString "hybrid") then
        if String.eqb (ev_type e) "blur"
           && negb (strict_equal (ev_value e) (ev_defaultValue e))
           || ev_valid e
        then report e
        else if String.eqb (ev_type e) "keyup"
                || String.eqb (ev_type e) "change"
        then (if ev_valid e then report e else ret tt)
        else ret tt
      else report e
  | OtherTarget => ret tt
  end.

(** The listener list of an event target after [removeEventListener]: the
    listener with that type, callback and capture flag is gone. *)
Definition remove_listener (l : listener) (ls : list listener) : list listener :=
  filter (fun l' => l' ≠ l) ls.

(** [node.removeEventListener(type, callback, capture)] *)
Definition removeEventListener (type : string) (callback : N) (capture : bool)
    : JS node unit :=
  modify (set_node_listeners (remove_listener (Listener type callback capture))).

(** Lines 153 to 156 of [Wrapper.destroy]: the form is taken out of
    [instances] and the revalidator is removed from the three events it may
    be registered for. *)
Definition Wrapper_detach (this : wrapper) : JS world unit :=
  let form := wrapper_form this in
  (modify (set_instances (delete form)) ;;;
   with_node form (removeEventListener "keyup" (wrapper_revalidator this) false) ;;;
   with_node form (removeEventListener "change" (wrapper_revalidator this) false) ;;;
   with_node form (removeEventListener "blur" (wrapper_revalidator this) true))%js.

(** The loop of [get_wrapper]: [chain] holds the element, its parent node,
    the parent of that, and so on up to the document; the first one found in
    [instances] ends the walk. *)
Fixpoint walk_up (instances : gmap N wrapper) (chain : list N) : option wrapper :=
  match chain with
  | [] => None
  | element :: parents =>
      match instances !! element with
      | Some wrapped => Some wrapped
      | None => walk_up instances parents
      end
  end.

(** [get_wrapper(element)]: [form] is [element.form] ([None] when the
    element has none), [chain] the element and its ancestors, [window] the
    identity of the window; [None] is [undefined]. *)
Definition get_wrapper (instances : gmap N wrapper) (window : N)
    (form : option N) (chain : list N) : option wrapper :=
  let wrapped :=
    match form with
    | Some f => instances !! f
    | None => None
    end in
  let wrapped :=
    match wrapped with
    | Some w => Some w
    | None => walk_up instances chain
    end in
  match wrapped with
  | Some w => Some w
  | None => instances !! window
  end.

(** An element with a native [checkValidity] as an own, configurable
    property, one whose own [checkValidity] cannot be reconfigured, and one
    whose [onclick] handler is [null], as on any element without a handler. *)
Definition own_native_input : element :=
  Element {[ "checkValidity" := DataProperty (native_function 1) true true true ]}
          [] true.

Definition sealed_input : element :=
  Element {[ "checkValidity" := DataProperty (native_function 1) false true false ]}
          [] true.

Definition input_without_handler : element :=
  Element {[ "onclick" := DataProperty VNull true true true ]} [] true.

(** The descriptor of the installer's own example,
    [installer('foo', { value: 'bar' })], made configurable. *)
Definition bar_descriptor : descriptor :=
  Descriptor (Some (VString "bar")) None None None None (Some true).


(** A required text field that is empty, as it was when the page loaded,
    and the events of typing into it and of leaving it. *)
Definition untouched_field_event (type : string) : input_event :=
  InputEvent type 5 HTMLInputElement (VString "") (VString "") false.

Definition hybrid_settings : gmap string value :=
  {[ "revalidate" := VString "hybrid" ]}.

(** The same page in a browser with native constraint validation: the
    input inherits [checkValidity] from its prototype, and the installer
    throws on it. *)
Definition native_page : world :=
  World (<[ 51%N := Object {[ "checkValidity" :=
                                DataProperty (native_function 1) true true true ]}
                           [] true ]> legacy_heap)
        {[ 1%N := sample_form ]} [50; 51; 52; 53; 54]%N 60 ∅ 10.

(** Wrappers registered for a form, node 1, and for a fieldset inside it,
    node 3; an input, node 5, sits in the fieldset. *)
Definition sample_instances : gmap N wrapper :=
  <[ 1%N := Wrapper 1 hybrid_settings 10 ]> {[ 3%N := Wrapper 3 hybrid_settings 20 ]}.

(** What a listener of [catch_submit] may do with an event: the outcome and
    the calls it makes. Only the keypress listener clicks. *)
Inductive listener_outcome (reportValidity : option form_state -> bool)
    (e : event) (click_allowed : bool)
    : outcome unit -> list action -> Prop :=
| does_nothing :
    listener_outcome reportValidity e click_allowed (Normal tt) []
| fails_on_hasAttribute (f : form_state) :
    target_form (target e) = Some f →
    named_elements f "hasAttribute" ≠ [] →
    listener_outcome reportValidity e click_allowed (Throw TypeError) []
| clicks (i : nat) :
    click_allowed = true →
    listener_outcome reportValidity e click_allowed (Normal tt) [PreventDefault; Click i]
| finds_invalid :
    reportValidity (target_form (target e)) = false →
    listener_outcome reportValidity e click_allowed (Normal tt) [PreventDefault; ReportValidity]
| submits (f : form_state) :
    reportValidity (target_form (target e)) = true →
    target_form (target e) = Some f →
    named_elements f "submit" = [] →
    listener_outcome reportValidity e click_allowed (Normal tt)
      [PreventDefault; ReportValidity; Submit]
| fails_on_submit (f : form_state) :
    reportValidity (target_form (target e)) = true →
    target_form (target e) = Some f →
    named_elements f "submit" ≠ [] →
    listener_outcome reportValidity e click_allowed (Throw TypeError)
      [PreventDefault; ReportValidity].

(** * Properties *)

(** ** The monad and the object model *)

Ltac js_unfold :=
  unfold bind, ret, throw, get_state, modify, lift_outcome, zoom in *.

Lemma bind_Normal {S A B} (m : JS S A) (k : A -> JS S B) (s s' : S) (a : A) :
  m s = (Normal a, s') → bind m k s = k a s'.
Proof. intros H. unfold bind. by rewrite H. Qed.

Lemma bind_Throw {S A B} (m : JS S A) (k : A -> JS S B) (s s' : S) (e : error) :
  m s = (Throw e, s') → bind m k s = (Throw e, s').
Proof. intros H. unfold bind. by rewrite H. Qed.

Lemma map_call_cons {S A B} (f : A -> JS S B) (x : A) (rest : list A) :
  map_call f (x :: rest)
  = bind (f x) (fun y => bind (map_call f rest) (fun ys => ret (y :: ys))).
Proof. reflexivity. Qed.

(** The state a sequence leaves behind. *)
Lemma bind_state {S A B} (m : JS S A) (k : A -> JS S B) (s : S) :
  (bind m k s).2
  = match m s with
    | (Normal a, s') => (k a s').2
    | (Throw _, s') => s'
    end.
Proof. unfold bind. by destruct (m s) as [[a|e] s']. Qed.

Lemma bind_ret_state {S A B} (m : JS S A) (f : A -> B) (s : S) :
  (bind m (fun a => ret (f a)) s).2 = (m s).2.
Proof. rewrite bind_state. by destruct (m s) as [[a|e] s']. Qed.

Lemma preserves_bind {S A B X} (part : S -> X) (m : JS S A) (k : A -> JS S B) :
  preserves part m → (∀ a, preserves part (k a)) → preserves part (bind m k).
Proof.
  intros Hm Hk s. unfold bind. specialize (Hm s).
  destruct (m s) as [[a|e] s1]; simpl in *; [|done].
  by rewrite Hk.
Qed.

Lemma length_append (a b : string) :
  String.length (a +:+ b) = String.length a + String.length b.
Proof.
  induction a as [|c a IH]; [reflexivity|].
  change (S (String.length (a +:+ b)) = S (String.length a + String.length b)).
  by rewrite IH.
Qed.

(** The renamed key never collides with the property it backs up. *)
Lemma original_key_ne (property : string) : "_original_" +:+ property ≠ property.
Proof.
  intros H. apply (f_equal String.length) in H.
  rewrite length_append in H. simpl in H. lia.
Qed.

Lemma HasProperty_own_None (el : element) (p : string) :
  HasProperty el p = false → own el !! p = None.
Proof.
  unfold HasProperty, GetProperty. intros H%bool_decide_eq_false. simpl in H.
  destruct (own el !! p); [|done]. exfalso. apply H. eauto.
Qed.

Lemma HasProperty_set_own_ne (el : element) (p q : string) (x : property) :
  p ≠ q → HasProperty (set_own (insert p x) el) q = HasProperty el q.
Proof.
  intros Hne. unfold HasProperty, GetProperty. simpl.
  by rewrite lookup_insert_ne.
Qed.

(** A descriptor read back from a stored property defines that property. *)
Lemma new_property_FromPropertyDescriptor (cur : property) :
  new_property (FromPropertyDescriptor cur) = cur.
Proof. by destruct cur. Qed.

Lemma valid_FromPropertyDescriptor (cur : property) :
  wf_property cur = true → valid_descriptor (FromPropertyDescriptor cur) = true.
Proof.
  destruct cur as [v w e c|g s e c]; simpl; [done|].
  unfold valid_descriptor. simpl. intros ->. done.
Qed.

(** Frame: [delete] and [Object.defineProperty] touch one key. *)
Lemma delete_property_other (p q : string) (el : element) :
  q ≠ p → own (delete_property p el).2 !! q = own el !! q.
Proof.
  intros Hne. unfold delete_property.
  destruct (own el !! p) as [cur|]; [|done].
  destruct (configurable_of cur); [|done].
  simpl. by rewrite lookup_delete_ne.
Qed.

Lemma Object_defineProperty_other (p q : string) (a : option descriptor) (el : element) :
  q ≠ p → own (Object_defineProperty p a el).2 !! q = own el !! q.
Proof.
  intros Hne. unfold Object_defineProperty, DefineOwnProperty, throw.
  destruct a as [d|]; [|done].
  destruct (valid_descriptor d); [|done].
  destruct (own el !! p) as [cur|].
  - destruct (already_same d cur); [done|].
    destruct (change_allowed d cur); [|done].
    simpl. by rewrite lookup_insert_ne.
  - destruct (extensible el); [|done].
    simpl. by rewrite lookup_insert_ne.
Qed.

(** ** The property installer *)

Section InstallerProperties.

Variable call_getter : value -> element -> outcome value.

(** The test of the installer, when the element has the property and what
    it reads there carries no marker. *)
Lemma needs_backup_unmarked (p : string) (el : element) (v h : value) :
  HasProperty el p = true →
  Get call_getter el p = Normal v →
  get_hyperform v = Normal h →
  ToBoolean h = false →
  needs_backup call_getter p el = (Normal true, el).
Proof.
  intros Hin Hget Hh Hm. unfold needs_backup. js_unfold.
  by rewrite Hin, Hget, Hh, Hm.
Qed.

(** The test of the installer, when what it reads carries the marker. *)
Lemma needs_backup_marked (p : string) (el : element) (v h : value) :
  HasProperty el p = true →
  Get call_getter el p = Normal v →
  get_hyperform v = Normal h →
  ToBoolean h = true →
  needs_backup call_getter p el = (Normal false, el).
Proof.
  intros Hin Hget Hh Hm. unfold needs_backup. js_unfold.
  by rewrite Hin, Hget, Hh, Hm.
Qed.

Lemma needs_backup_absent (p : string) (el : element) :
  HasProperty el p = false →
  needs_backup call_getter p el = (Normal false, el).
Proof. intros Hin. unfold needs_backup. js_unfold. by rewrite Hin. Qed.

(** On an element that does not have the property at all, the installer
    just defines it. *)
Lemma installer_absent (p : string) (d : descriptor) (el : element) :
  HasProperty el p = false →
  extensible el = true →
  valid_descriptor d = true →
  installer call_getter p d el
  = (Normal tt, set_own (insert p (new_property d)) el).
Proof.
  intros Hin Hext Hd. unfold installer.
  unfold bind at 1. rewrite (needs_backup_absent _ _ Hin).
  pose proof (HasProperty_own_None _ _ Hin) as Hown.
  js_unfold. unfold delete_property. rewrite Hown.
  unfold Object_defineProperty, DefineOwnProperty. by rewrite Hd, Hown, Hext.
Qed.

(** An own, configurable property without the marker is backed up under
    the renamed key, descriptor for descriptor, and then overwritten. *)
Lemma installer_own_property (p : string) (d : descriptor)
    (el : element) (cur : property) (v h : value) :
  own el !! p = Some cur →
  Get call_getter el p = Normal v →
  get_hyperform v = Normal h →
  ToBoolean h = false →
  wf_property cur = true →
  configurable_of cur = true →
  own el !! ("_original_" +:+ p) = None →
  extensible el = true →
  valid_descriptor d = true →
  installer call_getter p d el
  = (Normal tt,
     set_own (fun t => <[p := new_property d]>
                         (<["_original_" +:+ p := cur]> t)) el).
Proof.
  intros Hown Hget Hh Hm Hwf Hconf Horig Hext Hd.
  assert (HasProperty el p = true) as Hin.
  { unfold HasProperty, GetProperty. simpl. rewrite Hown.
    apply bool_decide_eq_true. eauto. }
  unfold installer. unfold bind at 1.
  rewrite (needs_backup_unmarked _ _ _ _ Hin Hget Hh Hm).
  js_unfold. unfold Object_getOwnPropertyDescriptor. rewrite Hown. simpl.
  rewrite (valid_FromPropertyDescriptor _ Hwf).
  unfold DefineOwnProperty at 1. rewrite Horig, Hext.
  rewrite new_property_FromPropertyDescriptor.
  unfold delete_property. simpl.
  rewrite lookup_insert_ne by apply original_key_ne.
  rewrite Hown, Hconf. simpl.
  rewrite Hd. unfold DefineOwnProperty. simpl.
  rewrite lookup_delete_eq, Hext. simpl.
  unfold set_own. simpl. f_equal. f_equal.
  apply map_eq. intros k.
  destruct (decide (k = p)) as [->|Hk].
  - by rewrite !lookup_insert_eq.
  - rewrite !(lookup_insert_ne _ p) by done.
    by rewrite lookup_delete_ne.
Qed.

End InstallerProperties.

(** C2, for the inherited case. When the element has the property only
    through its prototype chain and what is read there carries no marker,
    the installer does not back anything up and does not overwrite the
    property: [Object.getOwnPropertyDescriptor] finds no own property, and
    [Object.defineProperty] throws a [TypeError] on the [undefined] it is
    handed. The element is left as it was. *)
Theorem installer_inherited_property_throws
    (call_getter : value -> element -> outcome value)
    (p : string) (d : descriptor) (el : element) (v h : value) :
  own el !! p = None →
  HasProperty el p = true →
  Get call_getter el p = Normal v →
  get_hyperform v = Normal h →
  ToBoolean h = false →
  installer call_getter p d el = (Throw TypeError, el).
Proof.
  intros Hown Hin Hget Hh Hm. unfold installer. unfold bind at 1.
  rewrite (needs_backup_unmarked _ _ _ _ _ Hin Hget Hh Hm).
  js_unfold. unfold Object_getOwnPropertyDescriptor. by rewrite Hown.
Qed.

(** C3. When the element has the property and what is read there carries a
    truthy [hyperform] marker, the installer skips the backup and continues
    with [delete] and [Object.defineProperty]: its outcome is theirs; the
    ['_original_' + property] slot of the element is the same afterwards,
    whatever the outcome; and where the property can be redefined (no own
    property, or a configurable one, on an extensible element, with a
    descriptor [Object.defineProperty] accepts) the installer completes
    normally with the property overwritten. *)
Theorem reinstall_keeps_original
    (call_getter : value -> element -> outcome value)
    (p : string) (d : descriptor) (el : element) (v h : value) :
  HasProperty el p = true →
  Get call_getter el p = Normal v →
  get_hyperform v = Normal h →
  ToBoolean h = true →
  installer call_getter p d el
  = (delete_property p ;;; Object_defineProperty p (Some d))%js el
  ∧ own (installer call_getter p d el).2 !! ("_original_" +:+ p)
    = own el !! ("_original_" +:+ p)
  ∧ (from_option configurable_of true (own el !! p) = true →
     extensible el = true →
     valid_descriptor d = true →
     installer call_getter p d el
     = (Normal tt, set_own (insert p (new_property d)) el)).
Proof.
  intros Hin Hget Hh Hm.
  assert (installer call_getter p d el
          = (delete_property p ;;; Object_defineProperty p (Some d))%js el) as Heq.
  { unfold installer. unfold bind at 1.
    rewrite (needs_backup_marked _ _ _ _ _ Hin Hget Hh Hm).
    reflexivity. }
  split; [exact Heq|]. rewrite Heq. split.
  - unfold bind.
    pose proof (delete_property_other p ("_original_" +:+ p) el
                  (original_key_ne p)) as Hdel.
    destruct (delete_property p el) as [[[]|e] el1]; simpl in Hdel |- *; [|done].
    rewrite <- Hdel.
    apply (Object_defineProperty_other p _ (Some d) el1), original_key_ne.
  - intros Hconf Hext Hd. unfold bind, delete_property.
    unfold Object_defineProperty. rewrite Hd. unfold DefineOwnProperty.
    destruct (own el !! p) as [cur|] eqn:Hown; simpl in Hconf.
    + rewrite Hconf. simpl. rewrite lookup_delete_eq, Hext.
      unfold set_own. simpl. by rewrite insert_delete_eq.
    + by rewrite Hown, Hext.
Qed.

Lemma installer_inherited_property_throws_witness :
  installer getters_return_undefined "checkValidity" (method_descriptor 7) native_input
  = (Throw TypeError, native_input).
Proof.
  apply (installer_inherited_property_throws getters_return_undefined
           "checkValidity" (method_descriptor 7) native_input
           (native_function 1) VUndefined); reflexivity.
Defined.

Lemma reinstall_keeps_original_witness :
  own (installer getters_return_undefined "checkValidity" (method_descriptor 8)
         polyfilled_input).2 !! "_original_checkValidity"
  = Some (DataProperty (native_function 1) true true true)
  ∧ installer getters_return_undefined "checkValidity" (method_descriptor 8)
      polyfilled_input
    = (Normal tt,
       set_own (insert "checkValidity" (new_property (method_descriptor 8)))
         polyfilled_input).
Proof.
  destruct (reinstall_keeps_original getters_return_undefined
              "checkValidity" (method_descriptor 8) polyfilled_input
              (marked_function 7) (VBool true)
              eq_refl eq_refl eq_refl eq_refl) as (_ & Hslot & Hok).
  split.
  - etrans; [exact Hslot | reflexivity].
  - apply Hok; reflexivity.
Defined.

(** ** Installing and uninstalling through the wrapper *)

Lemma keeps_bind {A B} (q : string) (m : JS element A) (k : A -> JS element B) :
  keeps q m → (∀ a, keeps q (k a)) → keeps q (bind m k).
Proof.
  intros Hm Hk el. unfold bind. specialize (Hm el).
  destruct (m el) as [[a|e] el1]; simpl in *; [|done].
  by rewrite Hk.
Qed.

(** The per-property uninstaller modelled from the spec touches the named
    property only. *)
Lemma property_uninstaller_keeps (p q : string) :
  q ≠ p → keeps q (property_uninstaller p).
Proof.
  intros Hne. unfold property_uninstaller.
  apply keeps_bind; [intros el; by apply delete_property_other|].
  intros _. apply keeps_bind; [done|]. intros el1.
  destruct (Object_getOwnPropertyDescriptor el1 ("_original_" +:+ p)); [|done].
  intros el. by apply Object_defineProperty_other.
Qed.

Section WrapperInstallProperties.

Variable call_getter : value -> element -> outcome value.
Variable polyfill_descriptor : string -> descriptor.
Variable uninstall : string -> JS element unit.

(** [Wrapper.uninstall] leaves every property alone that is not one of the
    ten it names, provided the per-property uninstaller only touches the
    property it is called for. *)
Lemma uninstall_element_keeps (q : string) :
  (∀ p q', q' ≠ p → keeps q' (uninstall p)) →
  q ∉ polyfill_names →
  keeps q (uninstall_element uninstall).
Proof.
  intros Hframe Hq. unfold uninstall_element.
  repeat (apply keeps_bind; [|intros _]);
    apply Hframe; intros ->; apply Hq; set_solver.
Qed.

(** [install_properties] on an element that has none of the properties:
    every getter is defined, and nothing else changes. *)
Lemma install_properties_absent
    (property_getters : list (string * descriptor)) (el : element) :
  NoDup property_getters.*1 →
  (∀ n d, (n, d) ∈ property_getters →
          HasProperty el n = false ∧ valid_descriptor d = true) →
  extensible el = true →
  ∃ el', install_properties call_getter property_getters el = (Normal tt, el')
       ∧ (∀ n d, (n, d) ∈ property_getters → own el' !! n = Some (new_property d))
       ∧ (∀ q, q ∉ property_getters.*1 → own el' !! q = own el !! q).
Proof.
  unfold install_properties.
  revert el. induction property_getters as [|[n d] rest IH]; intros el Hnd Hok Hext.
  - exists el. split; [done|]. split; [|done].
    intros n d Hin. by apply elem_of_nil in Hin.
  - simpl in Hnd. apply NoDup_cons in Hnd as [Hn Hnd].
    destruct (Hok n d) as [Habs Hvalid]; [left|].
    simpl. unfold bind.
    rewrite (installer_absent _ _ _ _ Habs Hext Hvalid).
    destruct (IH (set_own (insert n (new_property d)) el))
      as (el' & Hrun & Hall & Hrest); [done| |done|].
    { intros n' d' Hin'. destruct (Hok n' d') as [Habs' Hvalid']; [by right|].
      split; [|done]. rewrite HasProperty_set_own_ne; [done|].
      intros ->. apply Hn. apply list_elem_of_fmap. by exists (n', d'). }
    exists el'. split; [done|]. split.
    + intros n' d' [Heq|Hin']%elem_of_cons; [|by apply Hall].
      injection Heq as -> ->.
      rewrite (Hrest n Hn). simpl. by rewrite lookup_insert_eq.
    + intros q Hq. apply not_elem_of_cons in Hq as [Hqn Hq].
      rewrite (Hrest q Hq). simpl. by rewrite lookup_insert_ne.
Qed.

(** The body of the loop of [Wrapper.install] is one run of the property
    installer over the ten polyfills and then the property getters. *)
Lemma install_element_for_each (property_getters : list (string * descriptor)) :
  install_element call_getter polyfill_descriptor property_getters
  = install_properties call_getter
      (((λ n, (n, polyfill_descriptor n)) <$> polyfill_names) ++ property_getters).
Proof. reflexivity. Qed.

End WrapperInstallProperties.

(** C1, evaluated where it fails. Take an element that has none of the
    polyfilled properties (a control of a browser without native constraint
    validation). [Wrapper.install] completes and defines the ten polyfills
    and the property getters of [install_properties] on it. Whatever the
    per-property uninstaller does to the property it is called for,
    [Wrapper.uninstall] then calls it for the ten polyfills only: every
    property getter is still on the element afterwards, where there was none
    before, so install followed by uninstall is not the identity. *)
Theorem Wrapper_uninstall_leaves_property_getters
    (call_getter : value -> element -> outcome value)
    (polyfill_descriptor : string -> descriptor)
    (property_getters : list (string * descriptor))
    (uninstall : string -> JS element unit)
    (el : element) :
  (∀ p q, q ≠ p → keeps q (uninstall p)) →
  extensible el = true →
  NoDup (polyfill_names ++ property_getters.*1) →
  (∀ n, n ∈ polyfill_names ++ property_getters.*1 → HasProperty el n = false) →
  (∀ n, n ∈ polyfill_names → valid_descriptor (polyfill_descriptor n) = true) →
  (∀ n d, (n, d) ∈ property_getters → valid_descriptor d = true) →
  ∃ el1 el2,
    Wrapper_install call_getter polyfill_descriptor property_getters [el]
    = (Normal tt, [el1])
    ∧ (Wrapper_uninstall uninstall [el1]).2 = [el2]
    ∧ ∀ n d, (n, d) ∈ property_getters →
        own el !! n = None ∧ own el2 !! n = Some (new_property d).
Proof.
  intros Hframe Hext Hnd Habs Hpd Hgd.
  set (polyfills := (λ n, (n, polyfill_descriptor n)) <$> polyfill_names).
  assert ((polyfills ++ property_getters).*1
          = polyfill_names ++ property_getters.*1) as Hnames.
  { rewrite fmap_app. f_equal. }
  destruct (install_properties_absent call_getter
              (polyfills ++ property_getters) el) as (el1 & Hrun & Hall & _).
  { by rewrite Hnames. }
  { intros n d Hin. split.
    - apply Habs. rewrite <- Hnames. apply list_elem_of_fmap. by exists (n, d).
    - apply elem_of_app in Hin as [Hin|Hin]; [|by eapply Hgd].
      apply list_elem_of_fmap in Hin as (m & [= -> ->] & Hm). by apply Hpd. }
  { done. }
  exists el1, (uninstall_element uninstall el1).2. split; [|split].
  - unfold Wrapper_install. simpl.
    rewrite install_element_for_each. fold polyfills. by rewrite Hrun.
  - unfold Wrapper_uninstall. simpl.
    by destruct (uninstall_element uninstall el1) as [[[]|e] el2].
  - intros n d Hin.
    assert (n ∈ property_getters.*1) as Hn.
    { apply list_elem_of_fmap. by exists (n, d). }
    split.
    + apply HasProperty_own_None, Habs, elem_of_app. by right.
    + rewrite uninstall_element_keeps.
      * apply Hall, elem_of_app. by right.
      * done.
      * intros Hp. apply NoDup_app in Hnd as (_ & Hdisj & _).
        by apply (Hdisj n).
Qed.

Lemma Wrapper_uninstall_leaves_property_getters_witness :
  ∃ el1 el2,
    Wrapper_install getters_return_undefined sample_polyfills sample_getters
      [legacy_input]
    = (Normal tt, [el1])
    ∧ (Wrapper_uninstall property_uninstaller [el1]).2 = [el2]
    ∧ ∀ n d, (n, d) ∈ sample_getters →
        own legacy_input !! n = None ∧ own el2 !! n = Some (new_property d).
Proof.
  apply (Wrapper_uninstall_leaves_property_getters getters_return_undefined
           sample_polyfills sample_getters property_uninstaller legacy_input).
  - intros p q Hne. by apply property_uninstaller_keeps.
  - reflexivity.
  - compute_done.
  - apply Forall_forall. compute_done.
  - intros n _. reflexivity.
  - intros n d Hin. apply list_elem_of_singleton in Hin. by injection Hin as -> ->.
Defined.

(** The same run, computed: after [Wrapper.install] and [Wrapper.uninstall]
    the element has an own [required] it did not have before. *)
Example install_uninstall_not_identity :
  let installed :=
    (Wrapper_install getters_return_undefined sample_polyfills sample_getters
       [legacy_input]).2 in
  Wrapper_uninstall property_uninstaller installed
  = (Normal tt,
     [set_own (insert "required" (AccessorProperty (marked_function 8)
                                    (marked_function 9) true true))
        legacy_input])
  ∧ (Wrapper_uninstall property_uninstaller installed).2 ≠ [legacy_input].
Proof. split; [vm_compute; reflexivity|]. vm_compute. discriminate. Qed.

(** What does hold per property, for the uninstaller modelled from the spec:
    after a backup of an own property and the installation of a configurable
    override, uninstalling puts the original property back under its name;
    the copy under the renamed key stays on the element. *)
Lemma property_uninstaller_restores
    (call_getter : value -> element -> outcome value)
    (p : string) (d : descriptor) (el : element) (cur : property) (v h : value) :
  own el !! p = Some cur →
  Get call_getter el p = Normal v →
  get_hyperform v = Normal h →
  ToBoolean h = false →
  wf_property cur = true →
  configurable_of cur = true →
  own el !! ("_original_" +:+ p) = None →
  extensible el = true →
  valid_descriptor d = true →
  d_configurable d = Some true →
  (installer call_getter p d ;;; property_uninstaller p)%js el
  = (Normal tt, set_own (insert ("_original_" +:+ p) cur) el).
Proof.
  intros Hown Hget Hh Hm Hwf Hconf Horig Hext Hd Hdc.
  unfold bind at 1.
  rewrite (installer_own_property _ _ _ _ _ _ _ Hown Hget Hh Hm Hwf Hconf Horig Hext Hd).
  unfold property_uninstaller. js_unfold. unfold delete_property. simpl.
  rewrite lookup_insert_eq.
  assert (configurable_of (new_property d) = true) as ->.
  { unfold new_property. destruct (IsAccessorDescriptor d); simpl; by rewrite Hdc. }
  simpl. unfold Object_getOwnPropertyDescriptor. simpl.
  rewrite lookup_delete_ne by (apply not_eq_sym, original_key_ne).
  rewrite lookup_insert_ne by (apply not_eq_sym, original_key_ne).
  rewrite lookup_insert_eq. simpl.
  rewrite (valid_FromPropertyDescriptor _ Hwf).
  unfold DefineOwnProperty. simpl. rewrite lookup_delete_eq, Hext.
  rewrite new_property_FromPropertyDescriptor.
  unfold set_own. simpl. f_equal. f_equal.
  apply map_eq. intros k.
  destruct (decide (k = p)) as [->|Hk].
  - rewrite lookup_insert_eq.
    by rewrite lookup_insert_ne by apply original_key_ne.
  - rewrite lookup_insert_ne by done. rewrite lookup_delete_ne by done.
    by rewrite lookup_insert_ne by done.
Qed.

(** ** The hook registry *)

Module HooksProperties.
Import Hooks.

(** The calls made are the registered callbacks, each once, in list order. *)
Lemma dispatch_calls (name : string) (cbs : list callback) (v : value) :
  inv_callback <$> (dispatch name cbs v).2 = cb_id <$> cbs.
Proof.
  revert v. induction cbs as [|cb rest IH]; intros v; [done|].
  simpl.
  destruct (dispatch name rest _) as [final calls] eqn:Hd.
  simpl. f_equal. specialize (IH (if strict_equal (cb_call cb (Context v name) v) VUndefined
                                  then v else cb_call cb (Context v name) v)).
  by rewrite Hd in IH.
Qed.

(** Every call gets the hook's name and the value being dispatched. *)
Lemma dispatch_context (name : string) (cbs : list callback) (v : value) :
  Forall (λ inv, hook (inv_this inv) = name
                 ∧ state (inv_this inv) = inv_argument inv)
         (dispatch name cbs v).2.
Proof.
  revert v. induction cbs as [|cb rest IH]; intros v; [by constructor|].
  simpl.
  specialize (IH (if strict_equal (cb_call cb (Context v name) v) VUndefined
                  then v else cb_call cb (Context v name) v)).
  destruct (dispatch name rest _) as [final calls].
  simpl in *. by constructor.
Qed.

(** A passive callback leaves the dispatched value as it is. *)
Lemma passive_step (cb : callback) (this : context) (v : value) :
  passive cb →
  (if strict_equal (cb_call cb this v) VUndefined then v else cb_call cb this v) = v.
Proof.
  intros Hp. unfold strict_equal.
  destruct (Hp this v) as [H|H]; rewrite H; [done|].
  by destruct (bool_decide (v = VUndefined)).
Qed.

(** With passive callbacks only, the value goes through unchanged and every
    call sees it. *)
Lemma dispatch_passive (name : string) (cbs : list callback) (v : value) :
  Forall passive cbs →
  (dispatch name cbs v).1 = v
  ∧ Forall (λ inv, state (inv_this inv) = v ∧ inv_argument inv = v)
           (dispatch name cbs v).2.
Proof.
  induction 1 as [|cb rest Hcb Hrest IH]; [by split|].
  simpl. rewrite (passive_step _ _ _ Hcb).
  destruct (dispatch name rest v) as [final calls].
  simpl in *. destruct IH as [-> IH]. split; [done|]. by constructor.
Qed.

End HooksProperties.

(** C4. [call_hook] calls every callback registered under the name, each
    once and in order, within the call itself; the value it returns is the
    one it was given unless a callback overrides it, that is, whenever every
    callback is passive; in particular with a single registered callback that
    only reads its argument and returns nothing. *)
Theorem call_hook_returns_input
    (name : string) (v : value) (reg : Hooks.registry) :
(Hooks.inv_callback <$> (Hooks.call_hook name v reg).2)
  = (Hooks.cb_id <$> Hooks.callbacks reg name)
  ∧ (Forall Hooks.passive (Hooks.callbacks reg name) →
     (Hooks.call_hook name v reg).1 = v)
  ∧ (∀ cb, Hooks.callbacks reg name = [cb] →
           (∀ this arg, Hooks.cb_call cb this arg = VUndefined) →
           (Hooks.call_hook name v reg).1 = v).
Proof.
  unfold Hooks.call_hook. split; [apply HooksProperties.dispatch_calls|]. split.
  - intros Hp. by apply HooksProperties.dispatch_passive.
  - intros cb Hcb Hread. apply HooksProperties.dispatch_passive.
    rewrite Hcb. constructor; [|constructor]. intros this arg. left. apply Hread.
Qed.

(** C5. Every callback registered under the name is called, and every call
    is made with a [this] whose [hook] is the name and whose [state] is the
    value being dispatched: the argument of that call, which for the first
    call is the value [call_hook] was given, and for all of them when no
    callback overrides it. *)
Theorem call_hook_context
    (name : string) (v : value) (reg : Hooks.registry) :
(Hooks.inv_callback <$> (Hooks.call_hook name v reg).2)
  = (Hooks.cb_id <$> Hooks.callbacks reg name)
  ∧ Forall (λ inv, Hooks.hook (Hooks.inv_this inv) = name
                   ∧ Hooks.state (Hooks.inv_this inv) = Hooks.inv_argument inv)
           (Hooks.call_hook name v reg).2
  ∧ (∀ inv, (Hooks.call_hook name v reg).2 !! 0 = Some inv →
            Hooks.state (Hooks.inv_this inv) = v)
  ∧ (Forall Hooks.passive (Hooks.callbacks reg name) →
     Forall (λ inv, Hooks.state (Hooks.inv_this inv) = v)
            (Hooks.call_hook name v reg).2).
Proof.
  unfold Hooks.call_hook.
  split; [apply HooksProperties.dispatch_calls|].
  split; [apply HooksProperties.dispatch_context|]. split.
  - destruct (Hooks.callbacks reg name) as [|cb rest]; [done|].
    simpl. destruct (Hooks.dispatch name rest _) as [final calls].
    simpl. by intros inv [= <-].
  - intros Hp.
    destruct (HooksProperties.dispatch_passive name _ v Hp) as [_ Hall].
    eapply Forall_impl; [exact Hall|]. by intros inv [? _].
Qed.

(** C6. A callback added and then removed is not called by a later
    [call_hook] of that name, whatever the registry held before; a callback
    added is called after the ones already registered under the name, so
    callbacks run in insertion order; and adding or removing under one name
    leaves the other names as they were. *)
Theorem removed_hook_not_called
    (name : string) (fn : Hooks.callback) (v : value) (reg : Hooks.registry) :
  (Hooks.cb_id fn ∉
     (Hooks.inv_callback <$>
        (Hooks.call_hook name v
           (Hooks.remove_hook name fn (Hooks.add_hook name fn reg))).2))
  ∧ (Hooks.inv_callback <$> (Hooks.call_hook name v (Hooks.add_hook name fn reg)).2)
    = (Hooks.cb_id <$> Hooks.callbacks reg name) ++ [Hooks.cb_id fn]
  ∧ (∀ other, other ≠ name →
       Hooks.callbacks (Hooks.add_hook name fn reg) other = Hooks.callbacks reg other
       ∧ Hooks.callbacks (Hooks.remove_hook name fn reg) other
         = Hooks.callbacks reg other).
Proof.
  unfold Hooks.call_hook. rewrite !HooksProperties.dispatch_calls.
  split; [|split].
  - unfold Hooks.remove_hook, Hooks.add_hook, Hooks.callbacks.
    rewrite lookup_insert_eq. rewrite lookup_insert_eq. simpl.
    intros Hin. apply list_elem_of_fmap in Hin as (cb & Hid & Hcb).
    apply list_elem_of_filter in Hcb as [Hne _]. by apply Hne.
  - unfold Hooks.add_hook, Hooks.callbacks at 1.
    rewrite lookup_insert_eq. simpl. by rewrite fmap_app.
  - intros other Hne. unfold Hooks.add_hook, Hooks.remove_hook, Hooks.callbacks.
    split.
    + by rewrite lookup_insert_ne.
    + destruct (reg !! name); [|done]. by rewrite lookup_insert_ne.
Qed.

Lemma call_hook_returns_input_witness :
  (Hooks.call_hook "hooks1" (VNumber 1)
     (Hooks.add_hook "hooks1" (Hooks.test_callback 1) ∅)).1 = VNumber 1
  ∧ (Hooks.call_hook "hooks1" (VNumber 1)
       (Hooks.add_hook "hooks1" (Hooks.reading_callback 2) ∅)).1 = VNumber 1.
Proof.
  split.
  - apply (call_hook_returns_input "hooks1" (VNumber 1)
             (Hooks.add_hook "hooks1" (Hooks.test_callback 1) ∅)).
    constructor; [|constructor]. intros this arg. by right.
  - apply (proj2 (proj2 (call_hook_returns_input "hooks1" (VNumber 1)
             (Hooks.add_hook "hooks1" (Hooks.reading_callback 2) ∅)))
             (Hooks.reading_callback 2)); reflexivity.
Defined.

Lemma call_hook_context_witness :
  Forall (λ inv, Hooks.state (Hooks.inv_this inv) = VNumber 2)
    (Hooks.call_hook "hooks2" (VNumber 2)
       (Hooks.add_hook "hooks2" (Hooks.reading_callback 2)
          (Hooks.add_hook "hooks2" (Hooks.test_callback 1) ∅))).2.
Proof.
  apply (call_hook_context "hooks2" (VNumber 2)
           (Hooks.add_hook "hooks2" (Hooks.reading_callback 2)
              (Hooks.add_hook "hooks2" (Hooks.test_callback 1) ∅))).
  constructor; [|constructor; [|constructor]]; intros this arg; [by right|by left].
Defined.

(** ** Catching implicit submission *)




(** [form.elements] holds no image button. *)
Lemma form_elements_no_image_button (f : form_state) (c : control) :
  c ∈ form_elements f → is_image_button c = false.
Proof.
  unfold form_elements, in_elements. rewrite list_elem_of_filter.
  intros [[_ H]%andb_true_iff _]. by apply negb_true_iff in H.
Qed.




(** Nor does it hold for every form that contains an element of type
    ['image']: an image button is not in [form.elements], so a form whose
    only button is one is validated and submitted by the listener itself,
    and nothing is clicked. *)
Example keypress_listener_image_button_only :
  Control "INPUT" "image" ["go"] ∈ form_controls image_form
  ∧ keypress_listener ["text"; "password"] (λ _, true) (enter_in image_form) []
    = (Normal tt, [PreventDefault; ReportValidity; Submit]).
Proof. split; [compute_done|reflexivity]. Qed.

(** ** The constructor of the wrapper *)

Lemma elem_of_add_listener (l l' : listener) (ls : list listener) :
  l ∈ add_listener l' ls ↔ l = l' ∨ l ∈ ls.
Proof.
  unfold add_listener. case_bool_decide as Hin.
  - split; [by right|]. by intros [->|?].
  - rewrite elem_of_app, list_elem_of_singleton. tauto.
Qed.

(** [catch_submit] registers its two listeners and uses up two identities. *)
Lemma catch_submit_run (form : N) (n : node) (w : world) :
  nodes w !! form = Some n →
  ∃ w', catch_submit form w = (Normal tt, w')
      ∧ nodes w' !! form
        = Some (set_node_listeners
                  (λ ls, add_listener (Listener "keypress" (N.succ (next_id w)) false)
                           (add_listener (Listener "click" (next_id w) false) ls)) n)
      ∧ next_id w' = N.succ (N.succ (next_id w)).
Proof.
  intros Hn. unfold catch_submit, fresh. js_unfold.
  unfold with_node at 1. simpl. rewrite Hn. simpl.
  unfold with_node. simpl. rewrite lookup_insert_eq. simpl.
  eexists. split; [reflexivity|]. simpl. rewrite lookup_insert_eq. done.
Qed.

Lemma with_node_modify (form : N) (f : node -> node) (n : node) (w : world) :
  nodes w !! form = Some n →
  with_node form (modify f) w = (Normal tt, set_nodes (insert form (f n)) w).
Proof. intros Hn. unfold with_node. by rewrite Hn. Qed.

(** What [Wrapper_attach] leaves on the wrapped node. *)
Lemma Wrapper_attach_run (this : wrapper) (n : node) (w : world) :
  nodes w !! wrapper_form this = Some n →
  let r := wrapper_revalidator this in
  let revalidate := member (wrapper_settings this) "revalidate" in
  let on_input :=
    if strict_equal revalidate (VString "oninput")
       || strict_equal revalidate (VString "hybrid")
    then add_listener (Listener "change" r false)
           (add_listener (Listener "keyup" r false) (node_listeners n))
    else node_listeners n in
  let on_blur :=
    if strict_equal revalidate (VString "onblur")
       || strict_equal revalidate (VString "hybrid")
    then add_listener (Listener "blur" r true) on_input
    else on_input in
  Wrapper_attach this w
  = (Normal tt,
     set_nodes (insert (wrapper_form this) (set_node_listeners (λ _, on_blur) n)) w).
Proof.
  intros Hn r revalidate on_input on_blur.
  assert (∀ m : gmap N node, m !! wrapper_form this = Some n →
            <[wrapper_form this := n]> m = m) as Hid.
  { intros m Hm. by apply insert_id. }
  unfold Wrapper_attach. fold revalidate r. subst on_blur on_input.
  unfold addEventListener.
  destruct (strict_equal revalidate (VString "oninput")
            || strict_equal revalidate (VString "hybrid"));
  destruct (strict_equal revalidate (VString "onblur")
            || strict_equal revalidate (VString "hybrid"));
    unfold bind, ret;
    repeat (erewrite with_node_modify;
            [|first [exact Hn | apply lookup_insert_eq]]; simpl);
    f_equal; destruct w as [h ns ps fo ins nx]; unfold set_nodes; simpl in *;
    f_equal; rewrite ?insert_insert_eq; destruct n; try done.
  by rewrite insert_id.
Qed.

(** *** Objects of the page *)

Lemma with_object_other {A} (id j : N) (m : JS element A) :
  j ≠ id → preserves (λ h : heap, h !! j) (with_object id m).
Proof.
  intros Hne h. unfold with_object. destruct (h !! id) as [o|]; [|done].
  destruct (m _) as [r el]. simpl. by rewrite lookup_insert_ne.
Qed.

Lemma with_object_respects {A} (S : N -> Prop) (ids : list N) (id : N)
    (m : JS element A) :
  id ∈ ids → respects S ids (with_object id m).
Proof.
  intros Hid h1 h2 Hagree Hclosed.
  destruct (Hclosed id Hid) as [HS Hprotos].
  assert (h2 !! id = h1 !! id) as H2 by (symmetry; by apply Hagree).
  unfold with_object. rewrite H2.
  destruct (h1 !! id) as [o|] eqn:Ho; [|done].
  assert (element_of h2 o = element_of h1 o) as ->.
  { unfold element_of. f_equal. apply Forall_fmap_ext, Forall_forall.
    intros p Hp. unfold own_table. rewrite (Hagree p); [done|].
    by apply (Hprotos o). }
  destruct (m (element_of h1 o)) as [r el]. simpl. split; [done|]. split.
  - intros j Hj. destruct (decide (j = id)) as [->|Hne].
    + by rewrite !lookup_insert_eq.
    + rewrite !lookup_insert_ne by done. by apply Hagree.
  - intros id' Hid'. destruct (Hclosed id' Hid') as [HS' Hp']. split; [done|].
    intros o' p. destruct (decide (id' = id)) as [->|Hne].
    + rewrite lookup_insert_eq. intros [= <-]. simpl. by apply Hprotos.
    + rewrite lookup_insert_ne by done. apply Hp'.
Qed.

Lemma respects_ret {A} (S : N -> Prop) (ids : list N) (a : A) :
  respects S ids (ret a).
Proof. by intros h1 h2 Hagree Hclosed. Qed.

Lemma respects_bind {A B} (S : N -> Prop) (ids : list N)
    (m : JS heap A) (k : A -> JS heap B) :
  respects S ids m → (∀ a, respects S ids (k a)) → respects S ids (bind m k).
Proof.
  intros Hm Hk h1 h2 Hagree Hclosed. unfold bind.
  destruct (Hm h1 h2 Hagree Hclosed) as (Ho & Ha & Hc).
  destruct (m h1) as [[a|e] h1'], (m h2) as [[a2|e2] h2'];
    simpl in *; try discriminate.
  - injection Ho as <-. by apply Hk.
  - by injection Ho as <-.
Qed.

Lemma respects_for_each (S : N -> Prop) (ids : list N)
    (body : N -> JS heap unit) (els : list N) :
  (∀ el, el ∈ els → respects S ids (body el)) →
  respects S ids (for_each body els).
Proof.
  induction els as [|el rest IH]; intros Hbody; simpl.
  - apply respects_ret.
  - apply respects_bind; [apply Hbody; by left|].
    intros _. apply IH. intros el' Hel'. apply Hbody. by right.
Qed.

Lemma preserves_for_each {S A X} (part : S -> X) (body : A -> JS S unit)
    (els : list A) :
  (∀ el, el ∈ els → preserves part (body el)) →
  preserves part (for_each body els).
Proof.
  induction els as [|el rest IH]; intros Hbody; simpl; [done|].
  apply preserves_bind; [apply Hbody; by left|].
  intros _. apply IH. intros el' Hel'. apply Hbody. by right.
Qed.

Lemma set_objects_id (w : world) : set_objects (λ _, objects w) w = w.
Proof. by destruct w. Qed.

Section ConstructorProperties.

Variable call_getter : value -> element -> outcome value.
Variable polyfill_descriptor : string -> descriptor.
Variable property_getters : list (string * descriptor).

Lemma install_respects (S : N -> Prop) (ids els : list N) :
  (∀ el, el ∈ els → el ∈ ids) →
  respects S ids (install call_getter polyfill_descriptor property_getters els).
Proof.
  intros Hsub. apply respects_for_each. intros el Hel.
  apply with_object_respects. by apply Hsub.
Qed.

Lemma install_other (j : N) (els : list N) :
  j ∉ els →
  preserves (λ h : heap, h !! j)
    (install call_getter polyfill_descriptor property_getters els).
Proof.
  intros Hj. apply preserves_for_each. intros el Hel.
  apply with_object_other. by intros ->.
Qed.

(** The installation, as a computation on the objects of the page. *)
Lemma Wrapper_install_phase_run (form : N) (w : world) :
  Wrapper_install_phase call_getter polyfill_descriptor property_getters form w
  = match nodes w !! form with
    | Some n =>
        zoom objects set_objects
          (install_program call_getter polyfill_descriptor property_getters
             (class_of n) (node_elements n) (element_prototypes w)
             (HTMLFormElement_object w) form) w
    | None => (Normal tt, w)
    end.
Proof.
  unfold Wrapper_install_phase, bind, get_state.
  destruct (nodes w !! form) as [n|]; [|done]. by destruct (class_of n).
Qed.

Lemma install_program_respects (S : N -> Prop) (ids : list N)
    (c : node_class) (els prototypes : list N) (constructor form : N) :
  (∀ id, id ∈ program_targets c els prototypes constructor form → id ∈ ids) →
  respects S ids
    (install_program call_getter polyfill_descriptor property_getters
       c els prototypes constructor form).
Proof.
  intros Hsub. unfold install_program, program_targets in *. destruct c.
  - apply respects_bind; [|intros _].
    + apply install_respects. intros el Hel. apply Hsub, elem_of_app. by left.
    + apply with_object_respects, Hsub, elem_of_app. right. by left.
  - apply respects_bind; [|intros _].
    + apply install_respects. intros el Hel. apply Hsub, elem_of_app. by left.
    + apply with_object_respects, Hsub, elem_of_app. right. by left.
  - apply respects_bind; [|intros _].
    + apply install_respects. intros el Hel. apply Hsub, elem_of_app. by left.
    + apply with_object_respects, Hsub, elem_of_app. right. by left.
  - by apply install_respects.
  - apply respects_ret.
Qed.

Lemma install_program_other (j : N)
    (c : node_class) (els prototypes : list N) (constructor form : N) :
  j ∉ program_targets c els prototypes constructor form →
  preserves (λ h : heap, h !! j)
    (install_program call_getter polyfill_descriptor property_getters
       c els prototypes constructor form).
Proof.
  intros Hj. unfold install_program, program_targets in *. destruct c.
  - apply not_elem_of_app in Hj as [Hj1 Hj2]. apply not_elem_of_cons in Hj2 as [Hj2 _].
    apply preserves_bind; [by apply install_other|intros _].
    by apply with_object_other.
  - apply not_elem_of_app in Hj as [Hj1 Hj2]. apply not_elem_of_cons in Hj2 as [Hj2 _].
    apply preserves_bind; [by apply install_other|intros _].
    by apply with_object_other.
  - apply not_elem_of_app in Hj as [Hj1 Hj2]. apply not_elem_of_cons in Hj2 as [Hj2 _].
    apply preserves_bind; [by apply install_other|intros _].
    by apply with_object_other.
  - by apply install_other.
  - done.
Qed.

Lemma install_targets_program (w : world) (form : N) (n : node) :
  nodes w !! form = Some n →
  install_targets w form
  = program_targets (class_of n) (node_elements n) (element_prototypes w)
      (HTMLFormElement_object w) form.
Proof. intros Hn. unfold install_targets. rewrite Hn. by destruct (class_of n). Qed.

(** Installing the polyfills changes nothing of the page but objects. *)
Lemma Wrapper_install_phase_objects (form : N) (w : world) :
  let w' := (Wrapper_install_phase call_getter polyfill_descriptor
               property_getters form w).2 in
  w' = set_objects (λ _, objects w') w.
Proof.
  cbv zeta. rewrite Wrapper_install_phase_run.
  destruct (nodes w !! form) as [n|]; [|by destruct w].
  unfold zoom. destruct (install_program _ _ _ _ _ _ _ _ _) as [o h]. by destruct w.
Qed.

(** It changes the objects it is applied to only. *)
Lemma Wrapper_install_phase_other (form j : N) (w : world) :
  j ∉ install_targets w form →
  objects (Wrapper_install_phase call_getter polyfill_descriptor
             property_getters form w).2 !! j
  = objects w !! j.
Proof.
  intros Hj. rewrite Wrapper_install_phase_run.
  destruct (nodes w !! form) as [n|] eqn:Hn; [|done].
  rewrite (install_targets_program w form n Hn) in Hj.
  pose proof (install_program_other j _ _ _ _ _ Hj (objects w)) as Hsame.
  unfold zoom. destruct (install_program _ _ _ _ _ _ _ _ _) as [o h]. done.
Qed.

(** Its outcome depends on the objects it is applied to and on their
    prototypes only. *)
Lemma Wrapper_install_phase_respects
    (S : N -> Prop) (form : N) (w1 w2 : world) :
  same_structure w2 w1 →
  agree S (objects w1) (objects w2) →
  closed S (install_targets w1 form) (objects w1) →
  (Wrapper_install_phase call_getter polyfill_descriptor property_getters
     form w1).1
  = (Wrapper_install_phase call_getter polyfill_descriptor property_getters
       form w2).1.
Proof.
  intros (Hprotos & Hconstructor & Hnodes) Hagree Hclosed.
  rewrite !Wrapper_install_phase_run. specialize (Hnodes form).
  destruct (nodes w1 !! form) as [n1|] eqn:Hn1,
           (nodes w2 !! form) as [n2|] eqn:Hn2; try done.
  injection Hnodes as Hclass Hels.
  rewrite (install_targets_program w1 form n1 Hn1) in Hclosed.
  rewrite Hclass, Hels, Hprotos, Hconstructor in *.
  pose proof (install_program_respects S _ _ _ _ _ _ (λ id H, H)
                (objects w1) (objects w2) Hagree Hclosed) as (Hout & _).
  unfold zoom.
  destruct (install_program _ _ _ _ _ _ _ _ (objects w1)),
           (install_program _ _ _ _ _ _ _ _ (objects w2)). done.
Qed.

(** The fields of the new instance, its registration and [catch_submit],
    run on an event target. *)
Lemma Wrapper_setup_run
    (form : N) (settings : gmap string value) (n : node) (w : world) :
  nodes w !! form = Some n →
  let r := next_id w in
  Wrapper_setup form settings w
  = (Normal (Wrapper form settings r),
     World (objects w)
           (<[form := set_node_listeners (caught_listeners r) n]> (nodes w))
           (element_prototypes w) (HTMLFormElement_object w)
           (<[form := Wrapper form settings r]> (instances w))
           (N.succ (N.succ (N.succ r)))).
Proof.
  intros Hn r. unfold Wrapper_setup, instances_set, is_object, catch_submit, fresh.
  js_unfold. simpl. rewrite Hn.
  rewrite bool_decide_eq_true_2 by (right; by eexists). simpl.
  unfold with_node. simpl. rewrite Hn. simpl. rewrite lookup_insert_eq. simpl.
  unfold set_nodes. simpl. rewrite insert_insert_eq. by destruct n.
Qed.

(** The constructor, run on an event target: it completes exactly when the
    installation of the polyfills does, and then leaves on the target the
    listeners it had, the two of [catch_submit], and the revalidation
    listeners its setting asks for, registered in that order. *)
Lemma Wrapper_constructor_run
    (form : N) (settings : gmap string value) (n : node) (w : world) :
  nodes w !! form = Some n →
  let r := next_id w in
  let this := Wrapper form settings r in
  let revalidate := member settings "revalidate" in
  let caught := caught_listeners r (node_listeners n) in
  let on_input :=
    if strict_equal revalidate (VString "oninput")
       || strict_equal revalidate (VString "hybrid")
    then add_listener (Listener "change" r false)
           (add_listener (Listener "keyup" r false) caught)
    else caught in
  let on_blur :=
    if strict_equal revalidate (VString "onblur")
       || strict_equal revalidate (VString "hybrid")
    then add_listener (Listener "blur" r true) on_input
    else on_input in
  ∃ w1, Wrapper_setup form settings w = (Normal this, w1)
      ∧ objects w1 = objects w
      ∧ nodes w1 = <[form := set_node_listeners (λ _, caught) n]> (nodes w)
      ∧ same_structure w w1
      ∧ match Wrapper_install_phase call_getter polyfill_descriptor
                property_getters form w1 with
        | (Normal _, w2) =>
            Wrapper_constructor call_getter polyfill_descriptor
              property_getters form settings w
            = (Normal this,
               set_nodes (insert form (set_node_listeners (λ _, on_blur) n)) w2)
        | (Throw e, w2) =>
            Wrapper_constructor call_getter polyfill_descriptor
              property_getters form settings w = (Throw e, w2)
        end.
Proof.
  intros Hn r this revalidate caught on_input on_blur.
  pose proof (Wrapper_setup_run form settings n w Hn) as Hsetup. cbv zeta in Hsetup.
  fold r this in Hsetup.
  set (n1 := set_node_listeners (caught_listeners r) n) in *.
  set (w1 := World _ _ _ _ _ _) in Hsetup.
  assert (nodes w1 !! form = Some n1) as Hn1 by apply lookup_insert_eq.
  exists w1. split; [done|]. split; [done|]. split; [by destruct n|]. split.
  { split; [done|]. split; [done|]. intros g. simpl.
    destruct (decide (g = form)) as [->|Hne].
    - by rewrite lookup_insert_eq, Hn.
    - by rewrite lookup_insert_ne. }
  unfold Wrapper_constructor. erewrite bind_Normal by exact Hsetup.
  pose proof (Wrapper_install_phase_objects form w1) as Hobj. cbv zeta in Hobj.
  destruct (Wrapper_install_phase _ _ _ form w1) as [[[]|e] w2] eqn:Hinstall;
    [|by erewrite bind_Throw by exact Hinstall].
  erewrite bind_Normal by exact Hinstall. cbn [snd] in Hobj.
  assert (nodes w2 !! form = Some n1) as Hn2 by (by rewrite Hobj).
  erewrite bind_Normal by (apply (Wrapper_attach_run this n1 w2); exact Hn2).
  reflexivity.
Qed.

End ConstructorProperties.

Lemma strict_equal_true (a b : value) : strict_equal a b = true ↔ a = b.
Proof. unfold strict_equal. apply bool_decide_eq_true. Qed.

Lemma revalidate_condition (revalidate : value) (a b : string) :
  strict_equal revalidate (VString a) || strict_equal revalidate (VString b) = true
  ↔ revalidate = VString a ∨ revalidate = VString b.
Proof. rewrite orb_true_iff, !strict_equal_true. done. Qed.

(** C7. Wrapping an event target whose listeners are all older than the
    wrapper's new [revalidator] function: the constructor completes whenever
    the installation of the polyfills does, and on the target it then leaves
    the revalidator registered for [keyup] and for [change] exactly when
    [revalidate] is ['oninput'] or ['hybrid'], registered capturing for
    [blur] exactly when [revalidate] is ['onblur'] or ['hybrid'], and
    registered for nothing else; with ['onsubmit'] or ['never'] it is not
    registered at all. *)
Theorem Wrapper_constructor_revalidation_listeners
    (call_getter : value -> element -> outcome value)
    (polyfill_descriptor : string -> descriptor)
    (property_getters : list (string * descriptor))
    (form : N) (settings : gmap string value) (n : node) (w : world) :
  nodes w !! form = Some n →
  (∀ l, l ∈ node_listeners n → (l_callback l < next_id w)%N) →
  let revalidate := member settings "revalidate" in
  (∀ this w1 w2,
     Wrapper_setup form settings w = (Normal this, w1) →
     Wrapper_install_phase call_getter polyfill_descriptor property_getters form w1
     = (Normal tt, w2) →
     ∃ w', Wrapper_constructor call_getter polyfill_descriptor property_getters
             form settings w = (Normal this, w'))
  ∧ ∀ this w',
      Wrapper_constructor call_getter polyfill_descriptor property_getters
        form settings w = (Normal this, w') →
      let r := wrapper_revalidator this in
      (Listener "keyup" r false ∈ listeners_of w' form
       ↔ revalidate = VString "oninput" ∨ revalidate = VString "hybrid")
      ∧ (Listener "change" r false ∈ listeners_of w' form
         ↔ revalidate = VString "oninput" ∨ revalidate = VString "hybrid")
      ∧ (Listener "blur" r true ∈ listeners_of w' form
         ↔ revalidate = VString "onblur" ∨ revalidate = VString "hybrid")
      ∧ (∀ l, l ∈ listeners_of w' form → l_callback l = r →
              l = Listener "keyup" r false ∨ l = Listener "change" r false
              ∨ l = Listener "blur" r true)
      ∧ (revalidate = VString "onsubmit" ∨ revalidate = VString "never" →
         ∀ l, l ∈ listeners_of w' form → l_callback l ≠ r).
Proof.
  intros Hn Hfresh revalidate.
  destruct (Wrapper_constructor_run call_getter polyfill_descriptor
              property_getters form settings n w Hn)
    as (w1 & Hsetup & _ & _ & _ & Hrun).
  split.
  - intros this w1' w2 Hsetup' Hinstall.
    rewrite Hsetup in Hsetup'. injection Hsetup' as <- <-.
    rewrite Hinstall in Hrun. by eexists.
  - intros this w' Hrun'.
    destruct (Wrapper_install_phase _ _ _ form w1) as [[[]|e] w2];
      [|by rewrite Hrun in Hrun'].
    rewrite Hrun in Hrun'. injection Hrun' as <- <-.
    unfold listeners_of. cbn [nodes set_nodes wrapper_revalidator].
    rewrite lookup_insert_eq. cbn [from_option node_listeners set_node_listeners].
    clear Hrun Hsetup. unfold caught_listeners.
    fold revalidate.
    set (r := next_id w) in *.
    set (Ci := revalidate = VString "oninput" ∨ revalidate = VString "hybrid").
    set (Cb := revalidate = VString "onblur" ∨ revalidate = VString "hybrid").
    set (final := if strict_equal revalidate (VString "onblur") || _ then _ else _).
    assert (∀ l, l ∈ final ↔
              l ∈ node_listeners n
              ∨ l = Listener "click" (N.succ r) false
              ∨ l = Listener "keypress" (N.succ (N.succ r)) false
              ∨ (Ci ∧ (l = Listener "keyup" r false ∨ l = Listener "change" r false))
              ∨ (Cb ∧ l = Listener "blur" r true)) as Hmem.
    { intros l. subst final.
      pose proof (revalidate_condition revalidate "oninput" "hybrid") as Hinput.
      pose proof (revalidate_condition revalidate "onblur" "hybrid") as Hblur.
      fold Ci in Hinput. fold Cb in Hblur.
      destruct (strict_equal revalidate (VString "oninput")
                || strict_equal revalidate (VString "hybrid"));
      destruct (strict_equal revalidate (VString "onblur")
                || strict_equal revalidate (VString "hybrid"));
        rewrite ?elem_of_add_listener;
        assert (Ci ∨ ¬ Ci) as [HCi|HCi]
          by (first [left; by apply Hinput | right; by intros ?%Hinput]);
        assert (Cb ∨ ¬ Cb) as [HCb|HCb]
          by (first [left; by apply Hblur | right; by intros ?%Hblur]);
        try (exfalso; apply Hinput in HCi; discriminate HCi);
        try (exfalso; apply Hblur in HCb; discriminate HCb);
        try (exfalso; apply HCi, Hinput; reflexivity);
        try (exfalso; apply HCb, Hblur; reflexivity);
        tauto. }
    clearbody final.
    assert (∀ l, l ∈ node_listeners n → l_callback l ≠ r) as Hold.
    { intros l Hl. specialize (Hfresh l Hl). lia. }
    assert (N.succ r ≠ r ∧ N.succ (N.succ r) ≠ r) as [Hc1 Hc2] by lia.
    assert (¬ (Listener "keyup" r false ∈ node_listeners n)
            ∧ ¬ (Listener "change" r false ∈ node_listeners n)
            ∧ ¬ (Listener "blur" r true ∈ node_listeners n)) as (Hk & Hc & Hb).
    { repeat split; intros Hin; by apply (Hold _ Hin). }
    split; [|split; [|split; [|split]]].
    + rewrite Hmem. split.
      * intros [?|[[=]|[[=]|[[? _]|[_ [=]]]]]]; done.
      * intros HCi. do 3 right. left. split; [done|by left].
    + rewrite Hmem. split.
      * intros [?|[[=]|[[=]|[[? _]|[_ [=]]]]]]; done.
      * intros HCi. do 3 right. left. split; [done|by right].
    + rewrite Hmem. split.
      * intros [?|[[=]|[[=]|[[_ [[=]|[=]]]|[? _]]]]]; done.
      * intros HCb. do 4 right. done.
    + intros l [Hin|[->|[->|[[_ [->| ->]]|[_ ->]]]]]%Hmem Hcb; simpl in Hcb;
        try done; try (by left); try (by right; left); try (by right; right).
      by apply Hold in Hin.
    + intros Hrev l [Hin|[->|[->|[[HCi _]|[HCb _]]]]]%Hmem; simpl; try done.
      * by apply Hold.
      * exfalso. destruct Hrev as [Hr|Hr], HCi as [Hi|Hi]; rewrite Hr in Hi; discriminate.
      * exfalso. destruct Hrev as [Hr|Hr], HCb as [Hi|Hi]; rewrite Hr in Hi; discriminate.
Qed.

(** On the sample page the constructor completes. *)
Lemma sample_constructor_completes :
  ∃ this w',
    Wrapper_constructor getters_return_undefined sample_polyfills sample_getters
      1 {[ "revalidate" := VString "hybrid" ]} sample_world = (Normal this, w').
Proof. eexists _, _. vm_compute. reflexivity. Qed.

Lemma Wrapper_constructor_revalidation_listeners_witness :
  ∃ this w',
    Wrapper_constructor getters_return_undefined sample_polyfills sample_getters
      1 {[ "revalidate" := VString "hybrid" ]} sample_world = (Normal this, w')
    ∧ Listener "keyup" (wrapper_revalidator this) false ∈ listeners_of w' 1
    ∧ Listener "blur" (wrapper_revalidator this) true ∈ listeners_of w' 1.
Proof.
  assert (∀ l, l ∈ node_listeners sample_form → (l_callback l < next_id sample_world)%N)
    as Hfresh.
  { intros l Hl. by apply elem_of_nil in Hl. }
  destruct sample_constructor_completes as (this & w' & Hrun).
  exists this, w'. split; [exact Hrun|].
  destruct (Wrapper_constructor_revalidation_listeners getters_return_undefined
              sample_polyfills sample_getters 1 {[ "revalidate" := VString "hybrid" ]}
              sample_form sample_world eq_refl Hfresh) as [_ Hlisteners].
  destruct (Hlisteners this w' Hrun) as (Hkeyup & _ & Hblur & _).
  split; [apply Hkeyup|apply Hblur]; right; reflexivity.
Defined.

(** ** The public entry point *)

Lemma or_default_defined (v dflt : value) :
  dflt ≠ VUndefined → or_default v dflt ≠ VUndefined.
Proof.
  intros Hd. unfold or_default, strict_equal. by case_bool_decide.
Qed.

Lemma or_default_id (v dflt : value) :
  v ≠ VUndefined → or_default v dflt = v.
Proof.
  intros Hv. unfold or_default, strict_equal. by case_bool_decide.
Qed.

(** The settings object built from the five resolved values. *)
Lemma member_settings (a b c d e : value) :
  let settings : gmap string value :=
    <["strict" := a]> (<["revalidate" := b]> (<["valid_event" := c]>
      (<["extend_fieldset" := d]> (<["classes" := e]> ∅)))) in
  member settings "strict" = a
  ∧ member settings "revalidate" = b
  ∧ member settings "valid_event" = c
  ∧ member settings "extend_fieldset" = d
  ∧ member settings "classes" = e
  ∧ settings !! "novalidate_on_elements" = None
  ∧ dom settings
    = ({[ "strict"; "revalidate"; "valid_event"; "extend_fieldset"; "classes" ]}
       : gset string).
Proof.
  unfold member. repeat split; try by simplify_map_eq.
Qed.

(** Resolving the options always completes; the classes it settles on are
    truthy and the other four values are defined. *)
Lemma resolve_settings_run (options : gmap string value) (w : world) :
  ∃ strict revalidate valid_event extend_fieldset classes w1,
    resolve_settings options w
    = (Normal (<["strict" := strict]> (<["revalidate" := revalidate]>
                (<["valid_event" := valid_event]>
                  (<["extend_fieldset" := extend_fieldset]>
                    (<["classes" := classes]> ∅))))), w1)
    ∧ strict ≠ VUndefined ∧ revalidate ≠ VUndefined
    ∧ valid_event ≠ VUndefined ∧ extend_fieldset ≠ VUndefined
    ∧ ToBoolean classes = true.
Proof.
  unfold resolve_settings, new_object, fresh. js_unfold.
  destruct (ToBoolean (member options "classes")) eqn:Hc; simpl;
    do 6 eexists; (split; [reflexivity|]);
    repeat split; try apply or_default_defined; try done.
  all: by destruct (ToBoolean (or_default _ _)).
Qed.

(** Settings that have been resolved resolve to themselves, and no object
    is created: this is what the recursive calls of [hyperform] on the
    members of a collection do with the settings they are handed. *)
Lemma resolve_settings_idempotent
    (options settings : gmap string value) (w w1 w2 : world) :
  resolve_settings options w = (Normal settings, w1) →
  resolve_settings settings w2 = (Normal settings, w2).
Proof.
  intros Hres.
  destruct (resolve_settings_run options w)
    as (a & b & c & d & e & w1' & Hrun & Ha & Hb & Hc & Hd & He).
  rewrite Hrun in Hres. injection Hres as <- <-.
  destruct (member_settings a b c d e) as (Hma & Hmb & Hmc & Hmd & Hme & _).
  unfold resolve_settings. rewrite Hma, Hmb, Hmc, Hmd, Hme, He. simpl.
  js_unfold. by rewrite !or_default_id.
Qed.

(** *** What the constructor leaves alone *)

Lemma same_structure_refl (w : world) : same_structure w w.
Proof. by repeat split. Qed.

Lemma same_structure_trans (w0 w1 w2 : world) :
  same_structure w0 w1 → same_structure w1 w2 → same_structure w0 w2.
Proof.
  intros (Hp1 & Hc1 & Hn1) (Hp2 & Hc2 & Hn2). split; [congruence|].
  split; [congruence|]. intros g. by rewrite Hn2, Hn1.
Qed.

Lemma same_structure_node (w0 w : world) (form : N) :
  same_structure w0 w → is_Some (nodes w0 !! form) → is_Some (nodes w !! form).
Proof.
  intros (_ & _ & Hn) [n Hform]. specialize (Hn form). rewrite Hform in Hn.
  destruct (nodes w !! form); [by eexists|done].
Qed.

Lemma install_targets_structure (w0 w : world) (form : N) :
  same_structure w0 w → install_targets w form = install_targets w0 form.
Proof.
  intros (Hp & Hc & Hn). unfold install_targets. specialize (Hn form).
  destruct (nodes w !! form) as [n|], (nodes w0 !! form) as [n0|];
    simpl in Hn; try done.
  injection Hn as -> ->. by rewrite Hp, Hc.
Qed.

Lemma all_targets_structure (w0 w : world) (form : form_argument) :
  same_structure w0 w → all_targets w form = all_targets w0 form.
Proof.
  intros Hs. unfold all_targets.
  induction (nodes_of form) as [|f rest IH]; [done|].
  rewrite !bind_cons. by rewrite IH, (install_targets_structure w0 w f Hs).
Qed.

Lemma all_targets_single (w : world) (form : N) :
  all_targets w (Single form) = install_targets w form.
Proof. unfold all_targets. simpl. apply app_nil_r. Qed.

Lemma nodes_of_cons (m : form_argument) (members : list form_argument) :
  nodes_of (Collection (m :: members)) = nodes_of m ++ nodes_of (Collection members).
Proof. reflexivity. Qed.

Lemma all_targets_cons (w : world) (m : form_argument) (members : list form_argument) :
  all_targets w (Collection (m :: members))
  = all_targets w m ++ all_targets w (Collection members).
Proof. unfold all_targets. rewrite nodes_of_cons. apply bind_app. Qed.

(** Resolving the options uses up identities and changes nothing else. *)
Lemma resolve_settings_world (options : gmap string value) (w : world) :
  let w1 := (resolve_settings options w).2 in
  objects w1 = objects w ∧ nodes w1 = nodes w ∧ instances w1 = instances w
  ∧ same_structure w w1 ∧ (next_id w ≤ next_id w1)%N.
Proof.
  unfold resolve_settings, new_object, fresh. js_unfold.
  destruct (negb _); simpl; repeat split; (done || lia).
Qed.

Lemma resolve_settings_nodes (options : gmap string value) :
  preserves nodes (resolve_settings options).
Proof. intros w. apply resolve_settings_world. Qed.

(** On a value that is no event target the constructor throws: for a
    primitive value when it registers the instance, for an object when
    [catch_submit] calls [addEventListener] on it. Only an object has been
    registered by then. *)
Lemma Wrapper_constructor_missing
    (call_getter : value -> element -> outcome value)
    (polyfill_descriptor : string -> descriptor)
    (property_getters : list (string * descriptor))
    (form : N) (settings : gmap string value) (w : world) :
  nodes w !! form = None →
  ∃ w', Wrapper_constructor call_getter polyfill_descriptor property_getters
          form settings w = (Throw TypeError, w')
      ∧ objects w' = objects w ∧ nodes w' = nodes w
      ∧ same_structure w w'
      ∧ instances w'
        = if is_object w form
          then <[form := Wrapper form settings (next_id w)]> (instances w)
          else instances w.
Proof.
  intros Hn. unfold Wrapper_constructor, Wrapper_setup, instances_set, catch_submit, fresh.
  unfold is_object. js_unfold. simpl.
  case_bool_decide as Hobj; simpl.
  - unfold with_node. simpl. rewrite Hn. eexists. split; [reflexivity|].
    simpl. by repeat split.
  - eexists. split; [reflexivity|]. simpl. by repeat split.
Qed.

Section HyperformProperties.

Variable call_getter : value -> element -> outcome value.
Variable polyfill_descriptor : string -> descriptor.
Variable property_getters : list (string * descriptor).

Lemma Wrapper_setup_this
    (form : N) (settings : gmap string value) (w w1 : world) (this : wrapper) :
  Wrapper_setup form settings w = (Normal this, w1) →
  this = Wrapper form settings (next_id w).
Proof.
  unfold Wrapper_setup, fresh. js_unfold.
  destruct (instances_set form _ _) as [[[]|e] w0]; [|done].
  destruct (catch_submit form _) as [[[]|e] w0']; [|done].
  by intros [= <- _].
Qed.

(** The instance the constructor returns is bound to the node and the
    settings it was given. *)
Lemma Wrapper_constructor_this
    (form : N) (settings : gmap string value) (w w' : world) (this : wrapper) :
  Wrapper_constructor call_getter polyfill_descriptor property_getters
    form settings w = (Normal this, w') →
  this = Wrapper form settings (next_id w).
Proof.
  unfold Wrapper_constructor. unfold bind at 1.
  destruct (Wrapper_setup form settings w) as [[this0|e] w1] eqn:Hsetup; [|done].
  apply Wrapper_setup_this in Hsetup as ->.
  unfold bind, ret.
  destruct (Wrapper_install_phase _ _ _ form w1) as [[[]|e] w2]; [|done].
  destruct (Wrapper_attach _ w2) as [[[]|e] w3]; [|done].
  by intros [= <- _].
Qed.

(** The loop of [Array.prototype.map.call(form, element => hyperform(element,
    settings))], unfolded one member. *)
Lemma hyperform_unfold (form : form_argument) (options : option (gmap string value)) :
  hyperform call_getter polyfill_descriptor property_getters form options
  = bind (resolve_settings (default ∅ options)) (fun settings =>
      match form with
      | Collection members =>
          bind (map_call (fun element =>
                hyperform call_getter polyfill_descriptor property_getters
                  element (Some settings)) members)
             (fun results => ret (RArray results))
      | Single form =>
          bind (Wrapper_constructor call_getter polyfill_descriptor
                  property_getters form settings)
               (fun this => ret (RWrapper this))
      end).
Proof. by destruct form. Qed.

(** What [hyperform] returns is bound to the settings its options resolve
    to, down to the members of nested collections. *)
Lemma hyperform_bound_to (form : form_argument) :
  ∀ (options : option (gmap string value)) (settings : gmap string value)
    (w w1 w' : world) (r : result),
    resolve_settings (default ∅ options) w = (Normal settings, w1) →
    hyperform call_getter polyfill_descriptor property_getters form options w
    = (Normal r, w') →
    bound_to settings form r.
Proof.
  induction form using form_argument_rect' with
    (Q := fun members =>
       ∀ (settings : gmap string value) (w w' : world) (rs : list result),
         (∃ options w0 w1, resolve_settings options w0 = (Normal settings, w1)) →
         map_call (fun element =>
           hyperform call_getter polyfill_descriptor property_getters
             element (Some settings)) members w = (Normal rs, w') →
         Forall2 (bound_to settings) members rs).
  - (* a single node *)
    intros options settings w w1 w' r Hres. rewrite hyperform_unfold.
    erewrite bind_Normal by exact Hres. unfold bind, ret.
    destruct (Wrapper_constructor _ _ _ form settings w1) as [[this|e] w2] eqn:Hnew;
      [|done].
    intros [= <- <-]. apply Wrapper_constructor_this in Hnew as ->.
    by constructor.
  - (* a collection *)
    intros options settings w w1 w' r Hres. rewrite hyperform_unfold.
    erewrite bind_Normal by exact Hres. unfold bind at 1.
    match goal with |- context [?f members w1] =>
      destruct (f members w1) as [[rs|e] w2] eqn:Hmap end; [|done].
    intros [= <- <-]. constructor.
    eapply IHform; [|exact Hmap]. eauto.
  - (* no member *)
    intros settings w w' rs _ [= <- <-]. constructor.
  - (* one more member *)
    intros settings w w' rs Hsettings. simpl. unfold bind at 1.
    destruct (hyperform _ _ _ form (Some settings) w) as [[r|e] w2] eqn:Hr; [|done].
    unfold bind at 1.
    match goal with |- context [?f members w2] =>
      destruct (f members w2) as [[rs'|e] w3] eqn:Hmap end; [|done].
    intros [= <- <-]. constructor.
    + destruct Hsettings as (options & w0 & w1 & Hres).
      eapply IHform; [|exact Hr]. simpl.
      apply (resolve_settings_idempotent _ _ _ _ w Hres).
    + eapply IHform0; [exact Hsettings|exact Hmap].
Qed.

(** What the constructor changes, whether it completes or throws: the
    listeners of the node it wraps, and the objects it installs the
    polyfills on. *)
Lemma Wrapper_constructor_frame
    (form : N) (settings : gmap string value) (w : world) :
  let w' := (Wrapper_constructor call_getter polyfill_descriptor property_getters
               form settings w).2 in
  same_structure w w'
  ∧ (∀ g, g ≠ form → nodes w' !! g = nodes w !! g)
  ∧ (∀ j, j ∉ install_targets w form → objects w' !! j = objects w !! j).
Proof.
  cbv zeta. destruct (nodes w !! form) as [n|] eqn:Hn.
  - destruct (Wrapper_constructor_run call_getter polyfill_descriptor
                property_getters form settings n w Hn)
      as (w1 & Hsetup & Hobj1 & Hnodes1 & Hs1 & Hrun).
    pose proof (Wrapper_install_phase_objects call_getter polyfill_descriptor
                  property_getters form w1) as Hw2.
    pose proof (λ j, Wrapper_install_phase_other call_getter polyfill_descriptor
                       property_getters form j w1) as Hother.
    cbv zeta in Hw2. cbv beta in Hother.
    destruct (Wrapper_install_phase _ _ _ form w1) as [[[]|e] w2];
      rewrite Hrun; cbn [snd] in *.
    + split; [|split].
      * apply (same_structure_trans _ w1); [done|].
        rewrite Hw2. split; [done|]. split; [done|]. intros g. simpl.
        destruct (decide (g = form)) as [->|Hne].
        -- by rewrite lookup_insert_eq, Hnodes1, lookup_insert_eq.
        -- by rewrite lookup_insert_ne.
      * intros g Hg. rewrite Hw2. simpl.
        by rewrite lookup_insert_ne, Hnodes1, lookup_insert_ne.
      * intros j Hj. simpl. rewrite Hother, Hobj1; [done|].
        by rewrite (install_targets_structure w w1).
    + split; [|split].
      * apply (same_structure_trans _ w1); [done|].
        rewrite Hw2. by repeat split.
      * intros g Hg. rewrite Hw2. simpl. by rewrite Hnodes1, lookup_insert_ne.
      * intros j Hj. rewrite Hother, Hobj1; [done|].
        by rewrite (install_targets_structure w w1).
  - destruct (Wrapper_constructor_missing call_getter polyfill_descriptor
                property_getters form settings w Hn)
      as (w' & -> & Hobj & Hnodes & Hs & _).
    cbn [snd]. split; [done|]. split; intros; by rewrite ?Hobj, ?Hnodes.
Qed.

(** What [hyperform] changes, whether it returns or throws: the listeners
    of the nodes it is called on, and the objects the polyfills are
    installed on for them. *)
Lemma hyperform_frame (form : form_argument) :
  ∀ (options : option (gmap string value)) (w : world),
    let w' := (hyperform call_getter polyfill_descriptor property_getters
                 form options w).2 in
    same_structure w w'
    ∧ (∀ g, g ∉ nodes_of form → nodes w' !! g = nodes w !! g)
    ∧ (∀ j, j ∉ all_targets w form → objects w' !! j = objects w !! j).
Proof.
  induction form using form_argument_rect' with
    (Q := fun members =>
       ∀ (settings : gmap string value) (w : world),
         let w' := (map_call (fun element =>
                      hyperform call_getter polyfill_descriptor property_getters
                        element (Some settings)) members w).2 in
         same_structure w w'
         ∧ (∀ g, g ∉ nodes_of (Collection members) → nodes w' !! g = nodes w !! g)
         ∧ (∀ j, j ∉ all_targets w (Collection members) →
                 objects w' !! j = objects w !! j)).
  - (* a single node *)
    intros options w. cbv zeta. rewrite hyperform_unfold.
    destruct (resolve_settings_world (default ∅ options) w)
      as (Hobj & Hnodes & _ & Hs & _).
    destruct (resolve_settings_run (default ∅ options) w)
      as (sa & sb & sc & sd & se & w1 & Hres & _).
    rewrite Hres in Hobj, Hnodes, Hs. cbn [snd] in Hobj, Hnodes, Hs.
    erewrite bind_Normal by exact Hres.
    set (settings := <["strict":=sa]> _).
    rewrite bind_ret_state.
    destruct (Wrapper_constructor_frame form settings w1) as (Hs2 & Hnodes2 & Hobj2).
    split; [by apply (same_structure_trans _ w1)|]. split.
    + intros g Hg. rewrite Hnodes2, Hnodes; [done|].
      intros ->. apply Hg. simpl. by left.
    + intros j Hj. rewrite all_targets_single in Hj.
      rewrite Hobj2, Hobj; [done|]. by rewrite (install_targets_structure w w1).
  - (* a collection *)
    intros options w. cbv zeta. rewrite hyperform_unfold.
    destruct (resolve_settings_world (default ∅ options) w)
      as (Hobj & Hnodes & _ & Hs & _).
    destruct (resolve_settings_run (default ∅ options) w)
      as (sa & sb & sc & sd & se & w1 & Hres & _).
    rewrite Hres in Hobj, Hnodes, Hs. cbn [snd] in Hobj, Hnodes, Hs.
    erewrite bind_Normal by exact Hres.
    set (settings := <["strict":=sa]> _).
    rewrite bind_ret_state.
    destruct (IHform settings w1) as (Hs2 & Hnodes2 & Hobj2).
    split; [by apply (same_structure_trans _ w1)|]. split.
    + intros g Hg. by rewrite Hnodes2, Hnodes.
    + intros j Hj. rewrite Hobj2, Hobj; [done|].
      by rewrite (all_targets_structure w w1).
  - (* no member *)
    intros settings w. cbv zeta. simpl. split; [apply same_structure_refl|done].
  - (* one more member *)
    intros settings w. cbv zeta. rewrite map_call_cons, bind_state.
    destruct (IHform (Some settings) w) as (Hs1 & Hnodes1 & Hobj1).
    destruct (hyperform _ _ _ form (Some settings) w) as [[r|e] w2]; cbn [snd] in *.
    + rewrite bind_ret_state.
      destruct (IHform0 settings w2) as (Hs2 & Hnodes2 & Hobj2).
      split; [by apply (same_structure_trans _ w2)|]. split.
      * intros g Hg. rewrite nodes_of_cons in Hg.
        apply not_elem_of_app in Hg as [Hg1 Hg2]. by rewrite Hnodes2, Hnodes1.
      * intros j Hj. rewrite all_targets_cons in Hj.
        apply not_elem_of_app in Hj as [Hj1 Hj2].
        rewrite Hobj2, Hobj1; [done|done|].
        by rewrite (all_targets_structure w w2).
    + split; [done|]. split.
      * intros g Hg. rewrite nodes_of_cons in Hg.
        apply not_elem_of_app in Hg as [Hg1 Hg2]. by apply Hnodes1.
      * intros j Hj. rewrite all_targets_cons in Hj.
        apply not_elem_of_app in Hj as [Hj1 Hj2]. by apply Hobj1.
Qed.

(** On an event target the constructor completes when the installation
    does on a page that has the same structure and holds the same objects
    outside [D], which the installation does not look at. *)
Lemma Wrapper_constructor_completes
    (w0 w : world) (D : list N) (form : N) (settings : gmap string value) :
  same_structure w0 w →
  agree (λ j, j ∉ D) (objects w) (objects w0) →
  closed (λ j, j ∉ D) (install_targets w0 form) (objects w0) →
  installable call_getter polyfill_descriptor property_getters w0 form →
  ∃ w', Wrapper_constructor call_getter polyfill_descriptor property_getters
          form settings w = (Normal (Wrapper form settings (next_id w)), w').
Proof.
  intros Hs Hagree Hclosed [Hnode Hinstall].
  destruct (same_structure_node w0 w form Hs Hnode) as [n Hn].
  destruct (Wrapper_constructor_run call_getter polyfill_descriptor
              property_getters form settings n w Hn)
    as (w1 & Hsetup & Hobj1 & _ & Hs1 & Hrun).
  assert ((Wrapper_install_phase call_getter polyfill_descriptor property_getters
             form w1).1 = Normal tt) as Hphase.
  { rewrite <- Hinstall.
    apply (Wrapper_install_phase_respects _ _ _ (λ j, j ∉ D)).
    - by apply (same_structure_trans _ w).
    - by rewrite Hobj1.
    - rewrite (install_targets_structure w0 w1)
        by (by apply (same_structure_trans _ w)).
      rewrite Hobj1. intros id Hid. destruct (Hclosed id Hid) as [HD Hp].
      split; [done|]. intros o p. rewrite (Hagree id HD). apply Hp. }
  destruct (Wrapper_install_phase _ _ _ form w1) as [[[]|e] w2]; [|done].
  by eexists.
Qed.

(** On a single node [hyperform] completes when the installation does. *)
Lemma hyperform_single_completes
    (form : N) (options : option (gmap string value)) (w : world) :
  installable call_getter polyfill_descriptor property_getters w form →
  ∃ this w', hyperform call_getter polyfill_descriptor property_getters
               (Single form) options w = (Normal (RWrapper this), w').
Proof.
  intros Hok. rewrite hyperform_unfold.
  destruct (resolve_settings_run (default ∅ options) w)
    as (a & b & c & d & e & w1 & Hres & _).
  erewrite bind_Normal by exact Hres.
  destruct (resolve_settings_world (default ∅ options) w)
    as (Hobj & _ & _ & Hs1 & _).
  rewrite Hres in Hobj, Hs1. cbn [snd] in Hobj, Hs1.
  edestruct (Wrapper_constructor_completes w w1 [] form) as (w' & Hnew);
    [done|by rewrite Hobj| |done|].
  - intros id _. split; [apply not_elem_of_nil|].
    intros o p _ _. apply not_elem_of_nil.
  - erewrite bind_Normal by exact Hnew. by eexists _, _.
Qed.

(** [hyperform] completes when the installation completes for every node
    on the page as it is, and no object is patched for two of them or is
    the prototype of a patched one. *)
Lemma hyperform_completes (w0 : world) (form : form_argument) :
  ∀ (options : option (gmap string value)) (w : world) (D : list N),
    same_structure w0 w →
    agree (λ j, j ∉ D) (objects w) (objects w0) →
    NoDup (all_targets w0 form) →
    (∀ id, id ∈ all_targets w0 form →
       (id ∉ D)
       ∧ (∀ o p, objects w0 !! id = Some o → p ∈ object_prototypes o →
                 (p ∉ D) ∧ (p ∉ all_targets w0 form))) →
    (∀ f, f ∈ nodes_of form →
          installable call_getter polyfill_descriptor property_getters w0 f) →
    ∃ r w', hyperform call_getter polyfill_descriptor property_getters
              form options w = (Normal r, w').
Proof.
  induction form using form_argument_rect' with
    (Q := fun members =>
       ∀ (settings : gmap string value) (w : world) (D : list N),
         same_structure w0 w →
         agree (λ j, j ∉ D) (objects w) (objects w0) →
         NoDup (all_targets w0 (Collection members)) →
         (∀ id, id ∈ all_targets w0 (Collection members) →
            (id ∉ D)
            ∧ (∀ o p, objects w0 !! id = Some o → p ∈ object_prototypes o →
                      (p ∉ D) ∧ (p ∉ all_targets w0 (Collection members)))) →
         (∀ f, f ∈ nodes_of (Collection members) →
               installable call_getter polyfill_descriptor property_getters w0 f) →
         ∃ rs w',
           map_call (fun element =>
             hyperform call_getter polyfill_descriptor property_getters
               element (Some settings)) members w = (Normal rs, w')).
  - (* a single node *)
    intros options w D Hs Hagree _ Hfree Hok. rewrite hyperform_unfold.
    destruct (resolve_settings_run (default ∅ options) w)
      as (a & b & c & d & e & w1 & Hres & _).
    erewrite bind_Normal by exact Hres.
    destruct (resolve_settings_world (default ∅ options) w)
      as (Hobj & _ & _ & Hs1 & _).
    rewrite Hres in Hobj, Hs1. cbn [snd] in Hobj, Hs1.
    rewrite all_targets_single in Hfree.
    edestruct (Wrapper_constructor_completes w0 w1 D form) as (w' & Hnew).
    + by apply (same_structure_trans _ w).
    + by rewrite Hobj.
    + intros id Hid. destruct (Hfree id Hid) as [HD Hp]. split; [done|].
      intros o p Ho Hin. by apply (Hp o p).
    + apply Hok. simpl. by left.
    + erewrite bind_Normal by exact Hnew. by eexists _, _.
  - (* a collection *)
    intros options w D Hs Hagree Hnd Hfree Hok. rewrite hyperform_unfold.
    destruct (resolve_settings_run (default ∅ options) w)
      as (a & b & c & d & e & w1 & Hres & _).
    erewrite bind_Normal by exact Hres.
    destruct (resolve_settings_world (default ∅ options) w)
      as (Hobj & _ & _ & Hs1 & _).
    rewrite Hres in Hobj, Hs1. cbn [snd] in Hobj, Hs1.
    set (settings := <["strict":=a]> _) in *.
    destruct (IHform settings w1 D) as (rs & w' & Hmap);
      [by apply (same_structure_trans _ w)|by rewrite Hobj|done|done|done|].
    erewrite bind_Normal by exact Hmap. by eexists _, _.
  - (* no member *)
    intros settings w D _ _ _ _ _. by eexists _, _.
  - (* one more member *)
    intros settings w D Hs Hagree Hnd Hfree Hok.
    rewrite all_targets_cons in Hnd, Hfree. rewrite nodes_of_cons in Hok.
    apply NoDup_app in Hnd as (Hnd1 & Hdisj & Hnd2).
    destruct (IHform (Some settings) w D Hs Hagree Hnd1) as (r & w2 & Hr).
    { intros id Hid. destruct (Hfree id) as [HD Hp]; [apply elem_of_app; by left|].
      split; [done|]. intros o p Ho Hin. destruct (Hp o p Ho Hin) as [HpD Hpt].
      split; [done|]. intros Hin'. apply Hpt, elem_of_app. by left. }
    { intros f Hf. apply Hok, elem_of_app. by left. }
    simpl. erewrite bind_Normal by exact Hr.
    destruct (hyperform_frame form (Some settings) w) as (Hs2 & _ & Hobj2).
    rewrite Hr in Hs2, Hobj2. cbn [snd] in Hs2, Hobj2.
    rewrite (all_targets_structure w0 w form Hs) in Hobj2.
    destruct (IHform0 settings w2 (D ++ all_targets w0 form)) as (rs & w' & Hrs).
    + by apply (same_structure_trans _ w).
    + intros j Hj. apply not_elem_of_app in Hj as [HjD Hjt].
      rewrite Hobj2 by done. by apply Hagree.
    + done.
    + intros id Hid. destruct (Hfree id) as [HD Hp]; [apply elem_of_app; by right|].
      split.
      * apply not_elem_of_app. split; [done|]. intros Hin. by apply (Hdisj id).
      * intros o p Ho Hin. destruct (Hp o p Ho Hin) as [HpD Hpt].
        apply not_elem_of_app in Hpt as [Hpt1 Hpt2].
        split; [|done]. by apply not_elem_of_app.
    + intros f Hf. apply Hok, elem_of_app. by right.
    + erewrite bind_Normal by exact Hrs. by eexists _, _.
Qed.

End HyperformProperties.

Lemma wrappers_of_cons (r : result) (results : list result) :
  wrappers_of (RArray (r :: results)) = wrappers_of r ++ wrappers_of (RArray results).
Proof. reflexivity. Qed.

(** Every wrapper of a bound result carries the settings. *)
Lemma bound_to_wrappers (settings : gmap string value) (form : form_argument) :
  ∀ r, bound_to settings form r →
       ∀ this, this ∈ wrappers_of r → wrapper_settings this = settings.
Proof.
  induction form using form_argument_rect' with
    (Q := fun members =>
       ∀ results, Forall2 (bound_to settings) members results →
         ∀ this, this ∈ wrappers_of (RArray results) →
                 wrapper_settings this = settings).
  - intros r Hb this Hin. inversion Hb; subst.
    simpl in Hin. apply list_elem_of_singleton in Hin. by subst.
  - intros r Hb this Hin. inversion Hb; subst. by eapply IHform.
  - intros results Hall this Hin. inversion Hall; subst.
    by apply elem_of_nil in Hin.
  - intros results Hall this Hin. inversion Hall as [|? r ? rs Hr Hrs]; subst.
    rewrite wrappers_of_cons in Hin. apply elem_of_app in Hin as [Hin|Hin].
    + by eapply IHform.
    + by eapply IHform0.
Qed.

(** C8. On a collection, [hyperform] resolves the settings and then runs
    [hyperform] on each member with the settings already resolved; on a
    single node it resolves the settings and constructs a wrapper. What it
    returns has the shape of what it was given: a wrapper bound to the node
    and to the resolved settings for a single node (a form, a document, the
    window), an array bound in the same way member for member, so with one
    result per member, for a collection. It does return for a single node
    when the installation of the polyfills for it completes on the page as
    it is; and for a collection when that holds for each node in it, and
    the objects the polyfills are installed on for them are all different
    objects, none of them a prototype of another. *)
Theorem hyperform_returns_wrappers
    (call_getter : value -> element -> outcome value)
    (polyfill_descriptor : string -> descriptor)
    (property_getters : list (string * descriptor))
    (form : form_argument) (options : option (gmap string value)) (w : world) :
  (∀ members, form = Collection members →
     hyperform call_getter polyfill_descriptor property_getters form options w
     = (settings <- resolve_settings (default ∅ options) ;;
        results <- map_call (fun element =>
                     hyperform call_getter polyfill_descriptor property_getters
                       element (Some settings)) members ;;
        ret (RArray results))%js w)
  ∧ (∀ f, form = Single f →
       hyperform call_getter polyfill_descriptor property_getters form options w
       = (settings <- resolve_settings (default ∅ options) ;;
          this <- Wrapper_constructor call_getter polyfill_descriptor
                    property_getters f settings ;;
          ret (RWrapper this))%js w)
  ∧ (∀ settings w1 r w',
       resolve_settings (default ∅ options) w = (Normal settings, w1) →
       hyperform call_getter polyfill_descriptor property_getters form options w
       = (Normal r, w') →
       bound_to settings form r
       ∧ match form, r with
         | Single f, RWrapper this =>
             wrapper_form this = f ∧ wrapper_settings this = settings
         | Collection members, RArray results =>
             length results = length members
         | _, _ => False
         end)
  ∧ (∀ f, form = Single f →
       installable call_getter polyfill_descriptor property_getters w f →
       ∃ this w', hyperform call_getter polyfill_descriptor property_getters
                    form options w = (Normal (RWrapper this), w'))
  ∧ (NoDup (all_targets w form) →
     (∀ id o p, id ∈ all_targets w form → objects w !! id = Some o →
                p ∈ object_prototypes o → p ∉ all_targets w form) →
     (∀ f, f ∈ nodes_of form →
           installable call_getter polyfill_descriptor property_getters w f) →
     ∃ r w', hyperform call_getter polyfill_descriptor property_getters
               form options w = (Normal r, w')).
Proof.
  split; [by intros members ->|]. split; [by intros f ->|]. split; [|split].
  - intros settings w1 r w' Hres Hrun.
    pose proof (hyperform_bound_to _ _ _ form options settings w w1 w' r Hres Hrun)
      as Hb.
    split; [done|]. inversion Hb as [f this Hf Hs|members results Hall]; subst.
    + done.
    + symmetry. by eapply Forall2_length.
  - intros f -> Hok. by apply hyperform_single_completes.
  - intros Hnd Hfree Hok.
    apply (hyperform_completes _ _ _ w form options w []);
      [apply same_structure_refl|done|done| |done].
    intros id Hid. split; [apply not_elem_of_nil|].
    intros o p Ho Hp. split; [apply not_elem_of_nil|by apply (Hfree id o p)].
Qed.

(** C9. The settings [hyperform] builds hold the five fields [strict],
    [revalidate], [valid_event], [extend_fieldset] and [classes] and no
    [novalidate_on_elements]; they are the same whatever the
    [novalidate_on_elements] option was; and they are the settings of every
    wrapper [hyperform] returns. *)
Theorem hyperform_settings_fields
    (call_getter : value -> element -> outcome value)
    (polyfill_descriptor : string -> descriptor)
    (property_getters : list (string * descriptor))
    (form : form_argument) (options : option (gmap string value)) (w : world) :
  ∃ settings w1,
    resolve_settings (default ∅ options) w = (Normal settings, w1)
    ∧ dom settings
      = ({[ "strict"; "revalidate"; "valid_event"; "extend_fieldset"; "classes" ]}
         : gset string)
    ∧ settings !! "novalidate_on_elements" = None
    ∧ (∀ v, resolve_settings (<["novalidate_on_elements" := v]> (default ∅ options)) w
            = (Normal settings, w1))
    ∧ (∀ r w',
         hyperform call_getter polyfill_descriptor property_getters form options w
         = (Normal r, w') →
         ∀ this, this ∈ wrappers_of r → wrapper_settings this = settings).
Proof.
  destruct (resolve_settings_run (default ∅ options) w)
    as (a & b & c & d & e & w1 & Hres & _).
  destruct (member_settings a b c d e) as (_ & _ & _ & _ & _ & Hnone & Hdom).
  eexists _, w1. split; [exact Hres|]. split; [exact Hdom|]. split; [exact Hnone|].
  split.
  - intros v. rewrite <- Hres. unfold resolve_settings, member.
    by rewrite !lookup_insert_ne.
  - intros r w' Hrun this Hin.
    eapply bound_to_wrappers; [|exact Hin].
    eapply hyperform_bound_to; [exact Hres|exact Hrun].
Qed.

(** On the sample page the form and the [div] can be wrapped together, and
    so can the document: the objects patched are different objects, the
    prototypes of the patched controls are not patched, and the installation
    completes. *)
Lemma sample_page_ready (form : form_argument) :
  form = sample_collection ∨ form = Single 4 →
  NoDup (all_targets sample_page form)
  ∧ (∀ id o p, id ∈ all_targets sample_page form →
               objects sample_page !! id = Some o →
               p ∈ object_prototypes o → p ∉ all_targets sample_page form)
  ∧ (∀ f, f ∈ nodes_of form →
          installable getters_return_undefined sample_polyfills sample_getters
            sample_page f).
Proof.
  intros [-> | ->].
  - split; [compute_done|]. split.
    + intros id o p Hid Ho Hp.
      change (all_targets sample_page sample_collection) with [3%N; 5%N; 1%N] in *.
      apply elem_of_cons in Hid as [->|Hid]; [|apply elem_of_cons in Hid as [->|Hid]];
        [| |apply list_elem_of_singleton in Hid as ->];
        vm_compute in Ho; injection Ho as <-; simpl in Hp;
        try apply list_elem_of_singleton in Hp as ->;
        try (by apply elem_of_nil in Hp); compute_done.
    + intros f Hf.
      change (nodes_of sample_collection) with [1%N; 2%N] in Hf.
      apply elem_of_cons in Hf as [->|Hf]; [|apply list_elem_of_singleton in Hf as ->];
        (split; [by eexists|vm_compute; reflexivity]).
  - split; [compute_done|]. split.
    + intros id o p Hid Ho Hp.
      change (all_targets sample_page (Single 4)) with [50%N; 51%N; 52%N; 53%N; 54%N; 60%N] in *.
      repeat (apply elem_of_cons in Hid as [->|Hid]);
        try (by apply elem_of_nil in Hid);
        vm_compute in Ho; injection Ho as <-; simpl in Hp;
        by apply elem_of_nil in Hp.
    + intros f Hf. apply list_elem_of_singleton in Hf as ->.
      split; [by eexists|vm_compute; reflexivity].
Qed.

Lemma hyperform_returns_wrappers_witness :
  (∃ results w',
     hyperform getters_return_undefined sample_polyfills sample_getters
       sample_collection (Some sample_options) sample_page
     = (Normal (RArray results), w')
     ∧ length results = 2)
  ∧ (∃ r w',
       hyperform getters_return_undefined sample_polyfills sample_getters
         (Single 4) None sample_page = (Normal r, w')).
Proof.
  split.
  - destruct (hyperform_returns_wrappers getters_return_undefined sample_polyfills
                sample_getters sample_collection (Some sample_options) sample_page)
      as (_ & _ & Hshape & _ & Hcompletes).
    destruct (sample_page_ready sample_collection (or_introl eq_refl))
      as (Hnd & Hfree & Hok).
    destruct (Hcompletes Hnd Hfree Hok) as (r & w' & Hrun).
    destruct (resolve_settings_run sample_options sample_page)
      as (a & b & c & d & e & w1 & Hres & _).
    destruct (Hshape _ _ _ _ Hres Hrun) as [_ Hlen].
    destruct r as [this|results]; [destruct Hlen|].
    exists results, w'. split; [exact Hrun|exact Hlen].
  - destruct (hyperform_returns_wrappers getters_return_undefined sample_polyfills
                sample_getters (Single 4) None sample_page)
      as (_ & _ & _ & _ & Hcompletes).
    destruct (sample_page_ready (Single 4) (or_intror eq_refl))
      as (Hnd & Hfree & Hok).
    exact (Hcompletes Hnd Hfree Hok).
Defined.

(** Without the condition on the patched objects [hyperform] need not
    return, even if the installation completes for each member taken alone:
    the input of the sample form is also in the [elements] of the fieldset,
    and reading the [required] getter, installed on it for the form, throws
    when the polyfills are installed on it again for the fieldset. *)
Example hyperform_on_form_and_its_fieldset :
  installable getters_return_undefined sample_polyfills sample_getters sample_page 1
  ∧ installable getters_return_undefined sample_polyfills sample_getters sample_page 3
  ∧ ∃ w', hyperform getters_return_undefined sample_polyfills sample_getters
            (Collection [Single 1; Single 3]) None sample_page
          = (Throw TypeError, w').
Proof.
  split; [split; [by eexists|vm_compute; reflexivity]|].
  split; [split; [by eexists|vm_compute; reflexivity]|].
  eexists. vm_compute. reflexivity.
Qed.

Lemma hyperform_settings_fields_witness :
  ∃ settings w1,
    resolve_settings sample_options sample_page = (Normal settings, w1)
    ∧ dom settings
      = ({[ "strict"; "revalidate"; "valid_event"; "extend_fieldset"; "classes" ]}
         : gset string)
    ∧ settings !! "novalidate_on_elements" = None.
Proof.
  destruct (hyperform_settings_fields getters_return_undefined sample_polyfills
              sample_getters sample_collection (Some sample_options) sample_page)
    as (settings & w1 & Hres & Hdom & Hnone & _).
  exists settings, w1. split; [exact Hres|]. split; [exact Hdom|exact Hnone].
Defined.

(** * Further properties of the code *)

(** ** The property installer, case by case *)

Lemma delete_property_Normal (p : string) (el el1 : element) :
  delete_property p el = (Normal tt, el1) →
  own el1 !! p = None ∧ prototype el1 = prototype el
  ∧ extensible el1 = extensible el.
Proof.
  unfold delete_property. destruct (own el !! p) as [cur|] eqn:Hown.
  - destruct (configurable_of cur); [|done]. intros [= <-]. simpl.
    by rewrite lookup_delete_eq.
  - by intros [= <-].
Qed.

Lemma delete_property_shape (p : string) (el : element) :
  prototype (delete_property p el).2 = prototype el
  ∧ extensible (delete_property p el).2 = extensible el.
Proof.
  unfold delete_property.
  destruct (own el !! p) as [cur|]; [|by split].
  destruct (configurable_of cur); split; reflexivity.
Qed.

Lemma Object_defineProperty_shape (p : string) (a : option descriptor) (el : element) :
  prototype (Object_defineProperty p a el).2 = prototype el
  ∧ extensible (Object_defineProperty p a el).2 = extensible el.
Proof.
  unfold Object_defineProperty, DefineOwnProperty, throw.
  destruct a as [d|]; [|by split].
  destruct (valid_descriptor d); [|by split].
  destruct (own el !! p) as [cur|].
  - destruct (already_same d cur); [by split|].
    destruct (change_allowed d cur); split; reflexivity.
  - destruct (extensible el) eqn:E; simpl; auto.
Qed.

(** Defining a property that is not there yet. *)
Lemma Object_defineProperty_new (p : string) (d : descriptor) (el el' : element) :
  own el !! p = None →
  Object_defineProperty p (Some d) el = (Normal tt, el') →
  el' = set_own (insert p (new_property d)) el
  ∧ valid_descriptor d = true ∧ extensible el = true.
Proof.
  intros Hown. unfold Object_defineProperty, DefineOwnProperty, throw.
  destruct (valid_descriptor d); [|done]. rewrite Hown.
  destruct (extensible el); [|done]. by intros [= <-].
Qed.

(** Redefining a configurable property with a descriptor read from a stored
    property: the stored property replaces it. *)
Lemma Object_defineProperty_full (k : string) (x cur : property) (el : element) :
  own el !! k = Some cur →
  configurable_of cur = true →
  wf_property x = true →
  ∃ el', Object_defineProperty k (Some (FromPropertyDescriptor x)) el = (Normal tt, el')
       ∧ own el' !! k = Some x.
Proof.
  intros Hown Hconf Hwf. unfold Object_defineProperty.
  rewrite (valid_FromPropertyDescriptor _ Hwf).
  unfold DefineOwnProperty. rewrite Hown.
  destruct (already_same (FromPropertyDescriptor x) cur) eqn:Hsame.
  - exists el. split; [done|]. rewrite Hown. f_equal.
    destruct x, cur; simpl in Hsame; try done;
      repeat (apply andb_prop in Hsame as [Hsame ?]);
      repeat match goal with
             | H : bool_decide _ = true |- _ => apply bool_decide_eq_true in H
             end; by subst.
  - unfold change_allowed. rewrite Hconf.
    eexists. split; [reflexivity|]. simpl. rewrite lookup_insert_eq. f_equal.
    by destruct x, cur.
Qed.

Section InstallerCases.

Variable call_getter : value -> element -> outcome value.

(** X1. On an extensible element that does not have the property, own or
    inherited, the installer defines it from the descriptor, absent
    attributes taking their defaults, and changes nothing else: no backup
    key is created. *)
Theorem installer_defines_absent_property
    (p : string) (d : descriptor) (el : element) :
  HasProperty el p = false →
  extensible el = true →
  valid_descriptor d = true →
  installer call_getter p d el
  = (Normal tt, set_own (insert p (new_property d)) el).
Proof. apply installer_absent. Qed.

(** X2. An own, configurable property whose value carries no marker is
    copied, attribute for attribute, to ['_original_' + property] and then
    replaced by the property the descriptor describes; nothing else on the
    element changes. *)
Theorem installer_backs_up_own_property
    (p : string) (d : descriptor) (el : element) (cur : property) (v h : value) :
  own el !! p = Some cur →
  Get call_getter el p = Normal v →
  get_hyperform v = Normal h →
  ToBoolean h = false →
  wf_property cur = true →
  configurable_of cur = true →
  own el !! ("_original_" +:+ p) = None →
  extensible el = true →
  valid_descriptor d = true →
  installer call_getter p d el
  = (Normal tt,
     set_own (fun t => <[p := new_property d]> (<["_original_" +:+ p := cur]> t)) el).
Proof. apply installer_own_property. Qed.

Lemma installer_frame (p q : string) (d : descriptor) (el : element) :
  q ≠ p →
  q ≠ "_original_" +:+ p →
  own (installer call_getter p d el).2 !! q = own el !! q
  ∧ prototype (installer call_getter p d el).2 = prototype el
  ∧ extensible (installer call_getter p d el).2 = extensible el.
Proof.
  intros Hp Ho.
  destruct (installer call_getter p d el) as [o el'] eqn:Hrun. cbn [snd].
  revert Hrun. unfold installer. unfold bind at 1.
  assert ((needs_backup call_getter p el).2 = el) as Hsame.
  { unfold needs_backup. js_unfold.
    destruct (HasProperty el p); [|done].
    destruct (Get call_getter el p) as [v|e]; [|done].
    by destruct (get_hyperform v). }
  destruct (needs_backup call_getter p el) as [[backup|e] el0];
    cbn [snd] in Hsame; subst el0; [|by intros [= _ <-]].
  unfold bind at 1.
  match goal with |- context [(if backup then ?a else ?b) el] =>
    set (step1 := (if backup then a else b) el) end.
  assert (own step1.2 !! q = own el !! q
          ∧ prototype step1.2 = prototype el
          ∧ extensible step1.2 = extensible el) as (H1 & H2 & H3).
  { subst step1. destruct backup; [|done]. js_unfold.
    split; [by apply Object_defineProperty_other|].
    apply Object_defineProperty_shape. }
  destruct step1 as [[[]|e] el1]; cbn [snd] in H1, H2, H3;
    [|by intros [= _ <-]].
  unfold bind.
  pose proof (delete_property_other p q el1 Hp) as H4.
  pose proof (delete_property_shape p el1) as [H5 H6].
  destruct (delete_property p el1) as [[[]|e] el2]; cbn [snd] in H4, H5, H6.
  - pose proof (Object_defineProperty_other p q (Some d) el2 Hp) as H7.
    pose proof (Object_defineProperty_shape p (Some d) el2) as [H8 H9].
    intros Hrun. rewrite Hrun in H7, H8, H9. cbn [snd] in H7, H8, H9.
    by rewrite H7, H8, H9, H4, H5, H6.
  - intros [= _ <-]. by rewrite H4, H5, H6.
Qed.

(** X3. Whatever the element, the descriptor and the outcome, the installer
    touches at most the property and its ['_original_'] key: every other own
    property, the prototype chain and the extensible flag are as before. *)
Theorem installer_touches_two_keys
    (p q : string) (d : descriptor) (el : element) :
  q ≠ p →
  q ≠ "_original_" +:+ p →
  own (installer call_getter p d el).2 !! q = own el !! q
  ∧ prototype (installer call_getter p d el).2 = prototype el
  ∧ extensible (installer call_getter p d el).2 = extensible el.
Proof. apply installer_frame. Qed.

(** X4. When the element has the property and its value is [undefined] or
    [null], reading [.hyperform] of it throws: the installer ends with a
    [TypeError] before it has changed anything. *)
Theorem installer_nullish_value_throws
    (p : string) (d : descriptor) (el : element) (v : value) :
  HasProperty el p = true →
  Get call_getter el p = Normal v →
  v = VUndefined ∨ v = VNull →
  installer call_getter p d el = (Throw TypeError, el).
Proof.
  intros Hin Hget Hv. unfold installer, needs_backup. js_unfold.
  rewrite Hin, Hget. by destruct Hv as [-> | ->].
Qed.

(** X5. An own property that is not configurable and carries no marker is
    first copied to ['_original_' + property]; the [delete] that follows
    throws a [TypeError] in strict code. The installer ends there: the copy
    stays on the element and the property is not overwritten. *)
Theorem installer_stops_at_non_configurable
    (p : string) (d : descriptor) (el : element) (cur : property) (v h : value) :
  own el !! p = Some cur →
  Get call_getter el p = Normal v →
  get_hyperform v = Normal h →
  ToBoolean h = false →
  wf_property cur = true →
  configurable_of cur = false →
  own el !! ("_original_" +:+ p) = None →
  extensible el = true →
  installer call_getter p d el
  = (Throw TypeError, set_own (insert ("_original_" +:+ p) cur) el).
Proof.
  intros Hown Hget Hh Hm Hwf Hconf Horig Hext.
  assert (HasProperty el p = true) as Hin.
  { unfold HasProperty, GetProperty. simpl. rewrite Hown.
    apply bool_decide_eq_true. eauto. }
  unfold installer. unfold bind at 1.
  rewrite (needs_backup_unmarked _ _ _ _ _ Hin Hget Hh Hm).
  js_unfold. unfold Object_getOwnPropertyDescriptor. rewrite Hown. simpl.
  rewrite (valid_FromPropertyDescriptor _ Hwf).
  unfold DefineOwnProperty. rewrite Horig, Hext.
  rewrite new_property_FromPropertyDescriptor.
  unfold delete_property. simpl.
  rewrite lookup_insert_ne by apply original_key_ne.
  by rewrite Hown, Hconf.
Qed.

(** With the marker on what is read, and a property that can be redefined,
    the installer completes with the property overwritten and nothing else
    changed. *)
Lemma reinstall_marker_path
    (p : string) (d : descriptor) (el : element) (v h : value) :
  HasProperty el p = true →
  Get call_getter el p = Normal v →
  get_hyperform v = Normal h →
  ToBoolean h = true →
  from_option configurable_of true (own el !! p) = true →
  extensible el = true →
  valid_descriptor d = true →
  installer call_getter p d el
  = (Normal tt, set_own (insert p (new_property d)) el).
Proof.
  intros Hin Hget Hh Hm Hconf Hext Hd.
  unfold installer. unfold bind at 1.
  rewrite (needs_backup_marked _ _ _ _ _ Hin Hget Hh Hm).
  js_unfold. unfold delete_property.
  unfold Object_defineProperty. rewrite Hd. unfold DefineOwnProperty.
  destruct (own el !! p) as [cur|] eqn:Hown; simpl in Hconf.
  - rewrite Hconf. simpl. rewrite lookup_delete_eq, Hext.
    unfold set_own. simpl. by rewrite insert_delete_eq.
  - by rewrite Hown, Hext.
Qed.

(** What a completed installation leaves behind. *)
Lemma installer_Normal (p : string) (d : descriptor) (el el' : element) :
  installer call_getter p d el = (Normal tt, el') →
  own el' !! p = Some (new_property d)
  ∧ valid_descriptor d = true ∧ extensible el' = true.
Proof.
  unfold installer. unfold bind at 1.
  destruct (needs_backup call_getter p el) as [[backup|e] el0]; [|done].
  unfold bind at 1.
  match goal with |- context [(if backup then ?a else ?b) el0] =>
    destruct ((if backup then a else b) el0) as [[[]|e] el1] end; [|done].
  unfold bind.
  destruct (delete_property p el1) as [[[]|e] el2] eqn:Hdel; [|done].
  apply delete_property_Normal in Hdel as (Hnone & _ & _).
  intros Hdef.
  destruct (Object_defineProperty_new p d el2 el' Hnone Hdef) as (-> & Hd & Hext).
  simpl. by rewrite lookup_insert_eq.
Qed.

Lemma installer_Normal_Get (p : string) (d : descriptor) (el el' : element) :
  installer call_getter p d el = (Normal tt, el') →
  own el' !! p = Some (new_property d)
  ∧ ∀ v, d_value d = Some v → Get call_getter el' p = Normal v.
Proof.
  intros Hrun. destruct (installer_Normal p d el el' Hrun) as (Hown & Hd & _).
  split; [done|]. intros v Hv.
  unfold Get, GetProperty. simpl. rewrite Hown.
  unfold new_property.
  assert (IsAccessorDescriptor d = false) as ->.
  { destruct (IsAccessorDescriptor d) eqn:Ha; [|done]. exfalso.
    unfold valid_descriptor in Hd. rewrite Ha in Hd.
    unfold IsDataDescriptor in Hd. rewrite Hv in Hd.
    rewrite (bool_decide_eq_true_2 (is_Some (Some v))) in Hd by eauto.
    simpl in Hd. by rewrite andb_false_r in Hd. }
  by rewrite Hv.
Qed.

(** X6. Whenever the installer completes, the element's own property is
    the one the descriptor describes, whatever was there before; for a
    descriptor with a [value], reading the property yields that value, as
    in the installer's own example
    ([installer('foo', { value: 'bar' })(element); element.foo === 'bar']). *)
Theorem installer_result
    (p : string) (d : descriptor) (el el' : element) :
  installer call_getter p d el = (Normal tt, el') →
  own el' !! p = Some (new_property d)
  ∧ ∀ v, d_value d = Some v → Get call_getter el' p = Normal v.
Proof. apply installer_Normal_Get. Qed.

(** X7. Installing the same configurable descriptor a second time, when its
    value carries the marker, changes nothing: the marker makes the
    installer skip the backup, and [delete] and [defineProperty] put the
    same property back. *)
Theorem installer_twice_marked
    (p : string) (d : descriptor) (el el1 : element) (v h : value) :
  installer call_getter p d el = (Normal tt, el1) →
  d_value d = Some v →
  get_hyperform v = Normal h →
  ToBoolean h = true →
  d_configurable d = Some true →
  installer call_getter p d el1 = (Normal tt, el1).
Proof.
  intros Hrun Hv Hh Hm Hconf.
  destruct (installer_Normal p d el el1 Hrun) as (Hown & Hd & Hext).
  destruct (installer_Normal_Get p d el el1 Hrun) as [_ Hget].
  assert (HasProperty el1 p = true) as Hin.
  { unfold HasProperty, GetProperty. simpl. rewrite Hown.
    apply bool_decide_eq_true. eauto. }
  rewrite (reinstall_marker_path p d el1 v h Hin (Hget v Hv) Hh Hm); [| |done|done].
  - f_equal. destruct el1 as [o pr ex]. unfold set_own. simpl in *.
    f_equal. by apply insert_id.
  - rewrite Hown. simpl.
    unfold new_property. destruct (IsAccessorDescriptor d); simpl; by rewrite Hconf.
Qed.

Lemma value_descriptor_is_data (d : descriptor) (v : value) :
  valid_descriptor d = true → d_value d = Some v → IsAccessorDescriptor d = false.
Proof.
  intros Hd Hv. destruct (IsAccessorDescriptor d) eqn:Ha; [|done]. exfalso.
  unfold valid_descriptor in Hd. rewrite Ha in Hd.
  unfold IsDataDescriptor in Hd. rewrite Hv in Hd.
  rewrite (bool_decide_eq_true_2 (is_Some (Some v))) in Hd by eauto.
  simpl in Hd. by rewrite andb_false_r in Hd.
Qed.

(** Writing the backup copy, on a key that is free or configurable. *)
Lemma backup_copy (k : string) (x : property) (el : element) :
  from_option configurable_of true (own el !! k) = true →
  extensible el = true →
  wf_property x = true →
  ∃ el', Object_defineProperty k (Some (FromPropertyDescriptor x)) el = (Normal tt, el')
       ∧ own el' !! k = Some x.
Proof.
  intros Hconf Hext Hwf. destruct (own el !! k) as [cur|] eqn:Hown.
  - by apply (Object_defineProperty_full k x cur).
  - unfold Object_defineProperty, DefineOwnProperty.
    rewrite (valid_FromPropertyDescriptor _ Hwf), Hown, Hext.
    eexists. split; [reflexivity|]. simpl.
    by rewrite lookup_insert_eq, new_property_FromPropertyDescriptor.
Qed.

(** X8. The marker is all that protects the preserved original. When the
    value the installer put on the element carries no marker (as the
    ['bar'] of the installer's own example), a second installation on that
    element takes the first one's property for a foreign one and copies it
    to ['_original_' + property], over whatever was preserved there. *)
Theorem installer_twice_unmarked
    (p : string) (d d' : descriptor) (el el1 : element) (v h : value) :
  installer call_getter p d el = (Normal tt, el1) →
  d_value d = Some v →
  get_hyperform v = Normal h →
  ToBoolean h = false →
  d_configurable d = Some true →
  from_option configurable_of true (own el1 !! ("_original_" +:+ p)) = true →
  valid_descriptor d' = true →
  ∃ el2, installer call_getter p d' el1 = (Normal tt, el2)
       ∧ own el2 !! ("_original_" +:+ p) = Some (new_property d)
       ∧ own el2 !! p = Some (new_property d').
Proof.
  intros Hrun Hv Hh Hm Hconf Horig Hd'.
  destruct (installer_Normal p d el el1 Hrun) as (Hown & Hd & Hext).
  destruct (installer_Normal_Get p d el el1 Hrun) as [_ Hget].
  pose proof (value_descriptor_is_data d v Hd Hv) as Hdata.
  assert (HasProperty el1 p = true) as Hin.
  { unfold HasProperty, GetProperty. simpl. rewrite Hown.
    apply bool_decide_eq_true. eauto. }
  assert (wf_property (new_property d) = true) as Hwf.
  { unfold new_property. by rewrite Hdata. }
  assert (configurable_of (new_property d) = true) as Hconf1.
  { unfold new_property. rewrite Hdata. simpl. by rewrite Hconf. }
  destruct (backup_copy ("_original_" +:+ p) (new_property d) el1 Horig Hext Hwf)
    as (el1' & Hbackup & Hcopy).
  pose proof (Object_defineProperty_other ("_original_" +:+ p) p
                (Some (FromPropertyDescriptor (new_property d))) el1
                (not_eq_sym (original_key_ne p))) as Hkeep.
  pose proof (Object_defineProperty_shape ("_original_" +:+ p)
                (Some (FromPropertyDescriptor (new_property d))) el1) as [_ Hext1].
  rewrite Hbackup in Hkeep, Hext1. cbn [snd] in Hkeep, Hext1.
  exists (set_own (insert p (new_property d')) el1').
  split; [|split].
  - unfold installer.
    erewrite bind_Normal
      by exact (needs_backup_unmarked _ _ _ _ _ Hin (Hget v Hv) Hh Hm).
    erewrite bind_Normal.
    2: { erewrite bind_Normal by reflexivity.
         unfold Object_getOwnPropertyDescriptor. rewrite Hown. exact Hbackup. }
    unfold bind, delete_property. rewrite Hkeep, Hown, Hconf1.
    unfold Object_defineProperty. rewrite Hd'. unfold DefineOwnProperty. simpl.
    rewrite lookup_delete_eq, Hext1, Hext.
    unfold set_own. simpl. by rewrite insert_delete_eq.
  - simpl. by rewrite lookup_insert_ne by (apply not_eq_sym, original_key_ne).
  - simpl. by rewrite lookup_insert_eq.
Qed.

End InstallerCases.

Lemma installer_defines_absent_property_witness :
  installer getters_return_undefined "checkValidity" (method_descriptor 7) legacy_input
  = (Normal tt,
     set_own (insert "checkValidity" (new_property (method_descriptor 7))) legacy_input).
Proof.
  apply (installer_defines_absent_property getters_return_undefined
           "checkValidity" (method_descriptor 7) legacy_input); reflexivity.
Defined.

Lemma installer_backs_up_own_property_witness :
  installer getters_return_undefined "checkValidity" (method_descriptor 7)
    own_native_input
  = (Normal tt,
     set_own (fun t => <["checkValidity" := new_property (method_descriptor 7)]>
                (<["_original_checkValidity" :=
                     DataProperty (native_function 1) true true true]> t))
       own_native_input).
Proof.
  apply (installer_backs_up_own_property getters_return_undefined
           "checkValidity" (method_descriptor 7) own_native_input
           (DataProperty (native_function 1) true true true)
           (native_function 1) VUndefined); reflexivity.
Defined.

Lemma installer_touches_two_keys_witness :
  own (installer getters_return_undefined "checkValidity" (method_descriptor 7)
         native_input).2 !! "value"
  = own native_input !! "value".
Proof.
  apply (installer_touches_two_keys getters_return_undefined
           "checkValidity" "value" (method_descriptor 7) native_input);
    discriminate.
Defined.

Lemma installer_nullish_value_throws_witness :
  installer getters_return_undefined "onclick" (method_descriptor 7)
    input_without_handler
  = (Throw TypeError, input_without_handler).
Proof.
  apply (installer_nullish_value_throws getters_return_undefined
           "onclick" (method_descriptor 7) input_without_handler VNull);
    [reflexivity|reflexivity|by right].
Defined.

Lemma installer_stops_at_non_configurable_witness :
  installer getters_return_undefined "checkValidity" (method_descriptor 7) sealed_input
  = (Throw TypeError,
     set_own (insert "_original_checkValidity"
                (DataProperty (native_function 1) false true false)) sealed_input).
Proof.
  apply (installer_stops_at_non_configurable getters_return_undefined
           "checkValidity" (method_descriptor 7) sealed_input
           (DataProperty (native_function 1) false true false)
           (native_function 1) VUndefined); reflexivity.
Defined.

Lemma installer_result_witness :
  Get getters_return_undefined
    (installer getters_return_undefined "foo" bar_descriptor legacy_input).2 "foo"
  = Normal (VString "bar").
Proof.
  apply (installer_result getters_return_undefined "foo" bar_descriptor legacy_input
           (installer getters_return_undefined "foo" bar_descriptor legacy_input).2);
    reflexivity.
Defined.

Lemma installer_twice_marked_witness :
  let once :=
    (installer getters_return_undefined "checkValidity" (method_descriptor 7)
       own_native_input).2 in
  installer getters_return_undefined "checkValidity" (method_descriptor 7) once
  = (Normal tt, once).
Proof.
  apply (installer_twice_marked getters_return_undefined "checkValidity"
           (method_descriptor 7) own_native_input _ (marked_function 7) (VBool true));
    reflexivity.
Defined.

Lemma installer_twice_unmarked_witness :
  let once :=
    (installer getters_return_undefined "checkValidity" bar_descriptor
       own_native_input).2 in
  own once !! "_original_checkValidity"
  = Some (DataProperty (native_function 1) true true true)
  ∧ ∃ twice,
      installer getters_return_undefined "checkValidity" (method_descriptor 7) once
      = (Normal tt, twice)
      ∧ own twice !! "_original_checkValidity" = Some (new_property bar_descriptor)
      ∧ own twice !! "checkValidity" = Some (new_property (method_descriptor 7)).
Proof.
  split; [reflexivity|].
  apply (installer_twice_unmarked getters_return_undefined "checkValidity"
           bar_descriptor (method_descriptor 7) own_native_input _
           (VString "bar") VUndefined); reflexivity.
Defined.

(** ** The loops of the wrapper *)

Lemma for_each_member_length {A} (body : JS A unit) (els : list A) :
  length (for_each_member body els).2 = length els.
Proof.
  induction els as [|x rest IH]; [done|]. simpl.
  destruct (body x) as [[[]|e] x']; [|done].
  destruct (for_each_member body rest) as [o rest']. simpl in *. by rewrite IH.
Qed.

Lemma for_each_member_Normal {A} (body : JS A unit) (els : list A) :
  Forall (λ x, (body x).1 = Normal tt) els →
  for_each_member body els = (Normal tt, (λ x, (body x).2) <$> els).
Proof.
  induction 1 as [|x rest Hx _ IH]; [done|]. simpl.
  destruct (body x) as [o x']. simpl in Hx. subst o. by rewrite IH.
Qed.

Lemma for_each_member_Throw {A} (body : JS A unit)
    (before : list A) (x x' : A) (after : list A) (e : error) :
  Forall (λ x, (body x).1 = Normal tt) before →
  body x = (Throw e, x') →
  for_each_member body (before ++ x :: after)
  = (Throw e, ((λ x, (body x).2) <$> before) ++ x' :: after).
Proof.
  intros Hbefore Hx. induction Hbefore as [|y rest Hy _ IH]; simpl.
  - by rewrite Hx.
  - destruct (body y) as [o y']. simpl in Hy. subst o. by rewrite IH.
Qed.

Section WrapperLoops.

Variable call_getter : value -> element -> outcome value.
Variable polyfill_descriptor : string -> descriptor.
Variable property_getters : list (string * descriptor).

(** X9. [Wrapper.install] works through the elements in order and stops at
    the first one on which an installation throws: the elements before it
    are installed, that one is left as far as its own installation got, the
    ones after it are untouched, and the exception is what [install] ends
    with. The collection keeps its length either way, and when no element
    throws every one of them is installed. *)
Theorem Wrapper_install_stops_at_first_throw (els : list element) :
  let body := install_element call_getter polyfill_descriptor property_getters in
  length (Wrapper_install call_getter polyfill_descriptor property_getters els).2
  = length els
  ∧ (Forall (λ el, (body el).1 = Normal tt) els →
     Wrapper_install call_getter polyfill_descriptor property_getters els
     = (Normal tt, (λ el, (body el).2) <$> els))
  ∧ (∀ before el el' after e,
       els = before ++ el :: after →
       Forall (λ el, (body el).1 = Normal tt) before →
       body el = (Throw e, el') →
       Wrapper_install call_getter polyfill_descriptor property_getters els
       = (Throw e, ((λ el, (body el).2) <$> before) ++ el' :: after)).
Proof.
  intros body. unfold Wrapper_install. split; [apply for_each_member_length|].
  split; [apply for_each_member_Normal|].
  intros before el el' after e -> Hbefore Hel.
  by apply for_each_member_Throw.
Qed.

Lemma installer_keeps (p q : string) (d : descriptor) :
  q ≠ p → q ≠ "_original_" +:+ p → keeps q (installer call_getter p d).
Proof. intros Hp Ho el. by apply installer_frame. Qed.

Lemma install_properties_keeps (getters : list (string * descriptor)) (q : string) :
  (∀ n, n ∈ getters.*1 → q ≠ n ∧ q ≠ "_original_" +:+ n) →
  keeps q (install_properties call_getter getters).
Proof.
  unfold install_properties. induction getters as [|[n d] rest IH]; intros Hq.
  - done.
  - simpl. apply keeps_bind.
    + destruct (Hq n) as [H1 H2]; [left|]. by apply installer_keeps.
    + intros _. apply IH. intros m Hm. apply Hq. by right.
Qed.

(** X10. What [Wrapper.install] does to an element is confined to the
    polyfilled properties, the property getters and their ['_original_']
    keys: any other own property of the element ([value], [type], a
    property of the page's own) is the same afterwards, whether the
    installation completes or throws. *)
Theorem install_element_keeps_other_properties (q : string) (el : element) :
  (∀ n, n ∈ polyfill_names ++ property_getters.*1 →
        q ≠ n ∧ q ≠ "_original_" +:+ n) →
  own (install_element call_getter polyfill_descriptor property_getters el).2 !! q
  = own el !! q.
Proof.
  intros Hq. rewrite install_element_for_each.
  apply install_properties_keeps. intros n Hn. apply Hq.
  rewrite fmap_app in Hn. apply elem_of_app in Hn as [Hn|Hn]; apply elem_of_app.
  - left. apply list_elem_of_fmap in Hn as ([n' d'] & -> & Hin).
    apply list_elem_of_fmap in Hin as (m & [= -> ->] & Hm). done.
  - by right.
Qed.

(** X11. On elements that have none of the polyfilled properties and none
    of the property getters (the controls of a browser without native
    constraint validation), [Wrapper.install] completes, and every element
    ends up with each polyfill and each getter as an own property, defined
    from its descriptor, and is otherwise unchanged. *)
Theorem Wrapper_install_on_fresh_elements (els : list element) :
  NoDup (polyfill_names ++ property_getters.*1) →
  (∀ n, n ∈ polyfill_names → valid_descriptor (polyfill_descriptor n) = true) →
  (∀ n d, (n, d) ∈ property_getters → valid_descriptor d = true) →
  Forall (λ el, extensible el = true
                ∧ ∀ n, n ∈ polyfill_names ++ property_getters.*1 →
                       HasProperty el n = false) els →
  ∃ els',
    Wrapper_install call_getter polyfill_descriptor property_getters els
    = (Normal tt, els')
    ∧ Forall2 (λ el el',
        (∀ n, n ∈ polyfill_names →
              own el' !! n = Some (new_property (polyfill_descriptor n)))
        ∧ (∀ n d, (n, d) ∈ property_getters → own el' !! n = Some (new_property d))
        ∧ (∀ q, q ∉ polyfill_names ++ property_getters.*1 →
                own el' !! q = own el !! q)) els els'.
Proof.
  intros Hnd Hpd Hgd Hels.
  set (polyfills := (λ n, (n, polyfill_descriptor n)) <$> polyfill_names).
  assert ((polyfills ++ property_getters).*1
          = polyfill_names ++ property_getters.*1) as Hnames.
  { rewrite fmap_app. f_equal. }
  unfold Wrapper_install.
  induction Hels as [|el rest [Hext Habs] _ IH].
  - exists []. split; [done|constructor].
  - destruct IH as (rest' & Hrest & Hall).
    destruct (install_properties_absent call_getter
                (polyfills ++ property_getters) el)
      as (el' & Hrun & Hdefined & Hother).
    { by rewrite Hnames. }
    { intros n d Hin. split.
      - apply Habs. rewrite <- Hnames. apply list_elem_of_fmap. by exists (n, d).
      - apply elem_of_app in Hin as [Hin|Hin]; [|by eapply Hgd].
        apply list_elem_of_fmap in Hin as (m & [= -> ->] & Hm). by apply Hpd. }
    { done. }
    exists (el' :: rest'). split.
    + simpl. rewrite Hrest. rewrite install_element_for_each. fold polyfills.
      by rewrite Hrun.
    + constructor; [|done]. split; [|split].
      * intros n Hn. apply Hdefined, elem_of_app. left.
        apply list_elem_of_fmap. by exists n.
      * intros n d Hin. apply Hdefined, elem_of_app. by right.
      * intros q Hq. apply Hother. by rewrite Hnames.
Qed.

End WrapperLoops.

Lemma Wrapper_install_stops_at_first_throw_witness :
  let body := install_element getters_return_undefined sample_polyfills sample_getters in
  Wrapper_install getters_return_undefined sample_polyfills sample_getters
    [legacy_input; native_input; legacy_input]
  = (Throw TypeError, [(body legacy_input).2; native_input; legacy_input]).
Proof.
  intros body.
  apply (proj2 (proj2 (Wrapper_install_stops_at_first_throw getters_return_undefined
           sample_polyfills sample_getters
           [legacy_input; native_input; legacy_input]))
           [legacy_input] native_input native_input [legacy_input] TypeError).
  - reflexivity.
  - constructor; [vm_compute; reflexivity|constructor].
  - vm_compute. reflexivity.
Defined.

Lemma install_element_keeps_other_properties_witness :
  own (install_element getters_return_undefined sample_polyfills sample_getters
         input_without_handler).2 !! "onclick"
  = Some (DataProperty VNull true true true).
Proof.
  etrans.
  - apply (install_element_keeps_other_properties getters_return_undefined
             sample_polyfills sample_getters "onclick" input_without_handler).
    apply Forall_forall. compute_done.
  - reflexivity.
Defined.

Lemma Wrapper_install_on_fresh_elements_witness :
  ∃ els',
    Wrapper_install getters_return_undefined sample_polyfills sample_getters
      [legacy_input; legacy_input] = (Normal tt, els')
    ∧ length els' = 2.
Proof.
  destruct (Wrapper_install_on_fresh_elements getters_return_undefined
              sample_polyfills sample_getters [legacy_input; legacy_input])
    as (els' & Hrun & Hall).
  - compute_done.
  - intros n _. reflexivity.
  - intros n d Hin. apply list_elem_of_singleton in Hin.
    injection Hin as -> ->. reflexivity.
  - repeat constructor; apply Forall_forall; compute_done.
  - exists els'. split; [exact Hrun|].
    symmetry. exact (Forall2_length _ _ _ Hall).
Defined.

(** ** Revalidation *)


(** X13. With the ['hybrid'] setting, an invalid control is not reported
    while the user types into it ([keyup], [change]), and not when it is
    left with the value it started with (a required field left empty): the
    report waits for a [blur] after the value has changed. *)
Theorem Wrapper_revalidate_hybrid_postpones
    (settings : gmap string value) (e : input_event) (reported : list N) :
  member settings "revalidate" = VString "hybrid" →
  ev_valid e = false →
  ev_type e ≠ "blur" ∨ ev_value e = ev_defaultValue e →
  Wrapper_revalidate settings e reported = (Normal tt, reported).
Proof.
  intros Hhybrid Hvalid Hcase.
  assert (String.eqb (ev_type e) "blur"
          && negb (strict_equal (ev_value e) (ev_defaultValue e)) = false) as Hblur.
  { unfold strict_equal. destruct Hcase as [Ht|Hv].
    - apply String.eqb_neq in Ht. by rewrite Ht.
    - rewrite bool_decide_eq_true_2 by done. apply andb_false_r. }
  unfold Wrapper_revalidate. rewrite Hblur. unfold strict_equal.
  rewrite Hhybrid, bool_decide_eq_true_2 by done. rewrite Hvalid. simpl.
  destruct (ev_class e); try reflexivity;
    by destruct (String.eqb (ev_type e) "keyup" || String.eqb (ev_type e) "change").
Qed.

Lemma Wrapper_revalidate_hybrid_postpones_witness :
  Wrapper_revalidate hybrid_settings (untouched_field_event "keyup") [] = (Normal tt, [])
  ∧ Wrapper_revalidate hybrid_settings (untouched_field_event "blur") []
    = (Normal tt, []).
Proof.
  split.
  - apply (Wrapper_revalidate_hybrid_postpones hybrid_settings
             (untouched_field_event "keyup") []);
      [reflexivity|reflexivity|left; discriminate].
  - apply (Wrapper_revalidate_hybrid_postpones hybrid_settings
             (untouched_field_event "blur") []);
      [reflexivity|reflexivity|right; reflexivity].
Defined.

(** ** Attaching and detaching the revalidator *)

Lemma remove_listener_absent (l : listener) (ls : list listener) :
  l ∉ ls → remove_listener l ls = ls.
Proof.
  intros Hl. unfold remove_listener. induction ls as [|x rest IH]; [done|].
  apply not_elem_of_cons in Hl as [Hne Hl].
  rewrite filter_cons_True by done. by rewrite IH.
Qed.

Lemma elem_of_remove_listener (l l' : listener) (ls : list listener) :
  l' ∈ remove_listener l ls ↔ l' ≠ l ∧ l' ∈ ls.
Proof. unfold remove_listener. by rewrite list_elem_of_filter. Qed.

Lemma remove_add_listener (l : listener) (ls : list listener) :
  remove_listener l (add_listener l ls) = remove_listener l ls.
Proof.
  unfold add_listener. case_bool_decide; [done|].
  unfold remove_listener. rewrite filter_app. simpl.
  rewrite filter_cons_False by (intros H'; by apply H').
  by rewrite filter_nil, app_nil_r.
Qed.

Lemma remove_add_listener_ne (l l' : listener) (ls : list listener) :
  l ≠ l' →
  remove_listener l (add_listener l' ls) = add_listener l' (remove_listener l ls).
Proof.
  intros Hne. unfold add_listener.
  rewrite (bool_decide_ext (l' ∈ remove_listener l ls) (l' ∈ ls)).
  2: { rewrite elem_of_remove_listener. naive_solver. }
  case_bool_decide; [done|].
  unfold remove_listener. rewrite filter_app. simpl.
  by rewrite filter_cons_True by done.
Qed.

Lemma detach_attach_listeners (r : N) (a b : bool) (ls : list listener) :
  (∀ l, l ∈ ls → l_callback l ≠ r) →
  let on_input :=
    if a then add_listener (Listener "change" r false)
                (add_listener (Listener "keyup" r false) ls)
    else ls in
  let on_blur := if b then add_listener (Listener "blur" r true) on_input else on_input in
  remove_listener (Listener "blur" r true)
    (remove_listener (Listener "change" r false)
       (remove_listener (Listener "keyup" r false) on_blur)) = ls.
Proof.
  intros Hfresh.
  assert (∀ t c, Listener t r c ∉ ls) as Hnot.
  { intros t c Hin. by apply (Hfresh _ Hin). }
  destruct a, b; simpl;
    rewrite ?(remove_add_listener_ne (Listener "keyup" r false)) by discriminate;
    rewrite ?remove_add_listener;
    rewrite ?(remove_listener_absent (Listener "keyup" r false)) by apply Hnot;
    rewrite ?(remove_add_listener_ne (Listener "change" r false)) by discriminate;
    rewrite ?remove_add_listener;
    rewrite ?(remove_listener_absent (Listener "change" r false)) by apply Hnot;
    rewrite ?remove_add_listener;
    by rewrite ?(remove_listener_absent (Listener "blur" r true)) by apply Hnot.
Qed.

(** X14. What the constructor attaches, [destroy] detaches. On a node on
    which the wrapper's revalidator is not registered yet, attaching the
    revalidation listeners (lines 137 to 148) and then running lines 153 to
    156 of [destroy] leaves every node with the listeners it had, in the
    order they had, whatever the [revalidate] setting; the three
    [removeEventListener] calls are harmless for the events the setting did
    not register. The form is no longer in [instances]. *)
Theorem Wrapper_detach_undoes_attach (this : wrapper) (n : node) (w : world) :
  nodes w !! wrapper_form this = Some n →
  (∀ l, l ∈ node_listeners n → l_callback l ≠ wrapper_revalidator this) →
  ∃ w', (Wrapper_attach this ;;; Wrapper_detach this)%js w = (Normal tt, w')
      ∧ nodes w' = nodes w
      ∧ instances w' = delete (wrapper_form this) (instances w).
Proof.
  intros Hn Hfresh.
  erewrite bind_Normal by (by apply Wrapper_attach_run).
  unfold Wrapper_detach, removeEventListener.
  erewrite bind_Normal by reflexivity.
  erewrite bind_Normal by (apply with_node_modify; apply lookup_insert_eq).
  erewrite bind_Normal by (apply with_node_modify; apply lookup_insert_eq).
  erewrite with_node_modify by apply lookup_insert_eq.
  eexists. split; [reflexivity|]. simpl. split; [|done].
  rewrite !insert_insert_eq.
  rewrite <- (insert_id (nodes w) _ _ Hn) at 2. f_equal.
  destruct n as [c els ls]. unfold set_node_listeners. simpl. f_equal.
  by apply detach_attach_listeners.
Qed.

(** ** The loop of [Wrapper.install] on objects of the page *)

Lemma store_element_of (h : heap) (o : object) :
  store_element (element_of h o) o = o.
Proof. by destruct o. Qed.

Lemma element_of_insert (h : heap) (id : N) (o' o : object) :
  id ∉ object_prototypes o →
  element_of (<[id := o']> h) o = element_of h o.
Proof.
  intros Hid. unfold element_of. f_equal. apply Forall_fmap_ext, Forall_forall.
  intros p Hp. unfold own_table. rewrite lookup_insert_ne; [done|].
  by intros ->.
Qed.

(** A loop over objects of the page that are all different, none of them a
    prototype of another, is the loop over the members one by one, each seen
    as it was at the start: it has the same outcome, leaves in each object
    what the loop leaves in the member, and touches no other object. This
    is where [Wrapper_install] on an array of elements and [install] on the
    page agree. *)
Lemma for_each_with_object (m : JS element unit) (els : list N) :
  ∀ (os : list object) (h : heap),
    NoDup els →
    Forall2 (λ id o, h !! id = Some o) els os →
    (∀ o p, o ∈ os → p ∈ object_prototypes o → p ∉ els) →
    let run := for_each_member m (element_of h <$> os) in
    let after := for_each (λ el, with_object el m) els h in
    after.1 = run.1
    ∧ (∀ i id o el', els !! i = Some id → os !! i = Some o → run.2 !! i = Some el' →
         after.2 !! id = Some (store_element el' o))
    ∧ (∀ j, j ∉ els → after.2 !! j = h !! j).
Proof.
  induction els as [|id ids IH]; intros os h Hnd Hos Hprotos.
  - apply Forall2_nil_inv_l in Hos as ->. cbv zeta. simpl.
    split; [done|]. split; [|done]. intros i id o el' Hi. by rewrite lookup_nil in Hi.
  - apply Forall2_cons_inv_l in Hos as (o & os' & Ho & Hos & ->).
    apply NoDup_cons in Hnd as [Hid Hnd]. cbv zeta.
    assert (for_each (λ el, with_object el m) (id :: ids) h
            = match m (element_of h o) with
              | (Normal _, el1) =>
                  for_each (λ el, with_object el m) ids (<[id := store_element el1 o]> h)
              | (Throw e, el1) => (Throw e, <[id := store_element el1 o]> h)
              end) as ->.
    { simpl. unfold bind, with_object at 1. rewrite Ho.
      by destruct (m (element_of h o)) as [[[]|e] el1]. }
    rewrite fmap_cons. cbn [for_each_member].
    destruct (m (element_of h o)) as [[[]|e] el1] eqn:Hm.
    + (* the body completes on the first member *)
      set (h1 := <[id := store_element el1 o]> h).
      assert (element_of h1 <$> os' = element_of h <$> os') as Hviews.
      { apply Forall_fmap_ext, Forall_forall. intros o' Ho'.
        apply element_of_insert. intros Hin.
        apply (Hprotos o' id); [by right|done|by left]. }
      destruct (IH os' h1 Hnd) as (Hout & Hmem & Hother).
      { apply Forall2_same_length_lookup. split; [by eapply Forall2_length|].
        intros i id' o' Hi Ho'. subst h1. rewrite lookup_insert_ne.
        - exact (Forall2_lookup_lr _ _ _ _ _ _ Hos Hi Ho').
        - intros ->. apply Hid. by eapply list_elem_of_lookup_2. }
      { intros o' p Ho' Hp Hin. apply (Hprotos o' p); [by right|done|by right]. }
      cbv zeta in Hout, Hmem, Hother. rewrite Hviews in Hout, Hmem.
      destruct (for_each_member m (element_of h <$> os')) as [r rest'].
      cbn [fst snd] in *. split; [done|]. split.
      * intros [|i] id' o' el'; simpl.
        -- intros [= <-] [= <-] [= <-]. rewrite Hother by done.
           subst h1. apply lookup_insert_eq.
        -- apply Hmem.
      * intros j Hj. apply not_elem_of_cons in Hj as [Hne Hj].
        rewrite Hother by done. subst h1. by rewrite lookup_insert_ne.
    + (* the body throws on the first member *)
      cbn [fst snd]. split; [done|]. split.
      * intros [|i] id' o' el'; simpl.
        -- intros [= <-] [= <-] [= <-]. apply lookup_insert_eq.
        -- intros Hi Ho' Hel'.
           rewrite list_lookup_fmap, Ho' in Hel'. injection Hel' as <-.
           rewrite store_element_of. rewrite lookup_insert_ne.
           ++ exact (Forall2_lookup_lr _ _ _ _ _ _ Hos Hi Ho').
           ++ intros ->. apply Hid. by eapply list_elem_of_lookup_2.
      * intros j Hj. apply not_elem_of_cons in Hj as [Hne Hj].
        by rewrite lookup_insert_ne.
Qed.

(** X27. [Wrapper.install] on objects of the page. When the members of
    [els] are all different objects and none of them is a prototype of
    another, installing on them is installing on each member as it was at
    the start, one by one as [Wrapper_install] does on an array of separate
    elements: the outcome is the same, each object is left with what the
    loop leaves in the member, and no other object of the page is
    touched. *)
Theorem install_on_distinct_members
    (call_getter : value -> element -> outcome value)
    (polyfill_descriptor : string -> descriptor)
    (property_getters : list (string * descriptor))
    (els : list N) (os : list object) (h : heap) :
  NoDup els →
  Forall2 (λ id o, h !! id = Some o) els os →
  (∀ o p, o ∈ os → p ∈ object_prototypes o → p ∉ els) →
  let run :=
    Wrapper_install call_getter polyfill_descriptor property_getters
      (element_of h <$> os) in
  let after := install call_getter polyfill_descriptor property_getters els h in
  after.1 = run.1
  ∧ (∀ i id o el', els !! i = Some id → os !! i = Some o → run.2 !! i = Some el' →
       after.2 !! id = Some (store_element el' o))
  ∧ (∀ j, j ∉ els → after.2 !! j = h !! j).
Proof. apply for_each_with_object. Qed.

(** The fieldset and the input of the sample page: the installation on the
    page completes as it does on the two elements taken apart. *)
Lemma install_on_distinct_members_witness :
  (install getters_return_undefined sample_polyfills sample_getters
     [3%N; 5%N] legacy_heap).1
  = (Wrapper_install getters_return_undefined sample_polyfills sample_getters
       (element_of legacy_heap <$> [legacy_object [54%N]; legacy_object [51%N]])).1.
Proof.
  apply (install_on_distinct_members getters_return_undefined sample_polyfills
           sample_getters [3%N; 5%N] [legacy_object [54%N]; legacy_object [51%N]]
           legacy_heap).
  - apply NoDup_cons. split; [|apply NoDup_singleton].
    intros Hin. apply list_elem_of_singleton in Hin. discriminate Hin.
  - repeat constructor.
  - intros o p Ho Hp Hin.
    apply elem_of_cons in Ho as [->|Ho]; [|apply list_elem_of_singleton in Ho as ->];
      apply list_elem_of_singleton in Hp as ->;
      (apply elem_of_cons in Hin as [Hin|Hin];
         [discriminate Hin|apply list_elem_of_singleton in Hin; discriminate Hin]).
Defined.

(** ** Registration in [instances] and [get_wrapper] *)

Section Registration.

Variable call_getter : value -> element -> outcome value.
Variable polyfill_descriptor : string -> descriptor.
Variable property_getters : list (string * descriptor).

(** What the constructor leaves in [instances], whatever its outcome. *)
Lemma Wrapper_constructor_instances
    (form : N) (settings : gmap string value) (w : world) :
  instances (Wrapper_constructor call_getter polyfill_descriptor property_getters
               form settings w).2
  = if is_object w form
    then <[form := Wrapper form settings (next_id w)]> (instances w)
    else instances w.
Proof.
  destruct (nodes w !! form) as [n|] eqn:Hn.
  - assert (is_object w form = true) as ->.
    { unfold is_object. apply bool_decide_eq_true_2. right. by eexists. }
    destruct (Wrapper_constructor_run call_getter polyfill_descriptor
                property_getters form settings n w Hn)
      as (w1 & Hsetup & _ & _ & _ & Hrun).
    pose proof (Wrapper_setup_run form settings n w Hn) as Hw1. cbv zeta in Hw1.
    rewrite Hsetup in Hw1. injection Hw1 as Hw1.
    pose proof (Wrapper_install_phase_objects call_getter polyfill_descriptor
                  property_getters form w1) as Hw2. cbv zeta in Hw2.
    destruct (Wrapper_install_phase _ _ _ form w1) as [[[]|e] w2];
      rewrite Hrun; cbn [snd] in *; rewrite Hw2, Hw1; reflexivity.
  - destruct (Wrapper_constructor_missing call_getter polyfill_descriptor
                property_getters form settings w Hn)
      as (w' & Hrun & _ & _ & _ & Hinst).
    rewrite Hrun. exact Hinst.
Qed.

(** X15. [new Wrapper(form, settings)] registers the new instance under
    the form before it does anything else, and nothing later in the
    constructor touches [instances]. So when [form] is an object, then in
    every outcome, also when the constructor throws, [instances] is what it
    was with the form mapped to the new instance, and [get_wrapper] finds
    that instance for every element whose [form] is the wrapped one,
    wherever in the page it is. When [form] is no object (a selector string,
    [null]), [instances.set] throws: the constructor ends with a [TypeError]
    and nothing is registered, nor changed on the page. *)
Theorem Wrapper_constructor_registers
    (form : N) (settings : gmap string value) (w : world)
    (window : N) (chain : list N) :
  let run :=
    Wrapper_constructor call_getter polyfill_descriptor property_getters
      form settings w in
  (is_object w form = true →
   instances run.2 = <[form := Wrapper form settings (next_id w)]> (instances w)
   ∧ get_wrapper (instances run.2) window (Some form) chain
     = Some (Wrapper form settings (next_id w)))
  ∧ (is_object w form = false →
     run.1 = Throw TypeError
     ∧ instances run.2 = instances w
     ∧ objects run.2 = objects w ∧ nodes run.2 = nodes w).
Proof.
  cbv zeta. rewrite Wrapper_constructor_instances. split.
  - intros ->. split; [done|]. unfold get_wrapper. by rewrite lookup_insert_eq.
  - intros Hobj. rewrite Hobj.
    assert (nodes w !! form = None) as Hn.
    { unfold is_object in Hobj. apply bool_decide_eq_false in Hobj.
      destruct (nodes w !! form) eqn:Hn; [|done].
      exfalso. apply Hobj. right. by eexists. }
    destruct (Wrapper_constructor_missing call_getter polyfill_descriptor
                property_getters form settings w Hn) as (w' & -> & Ho & Hnodes & _).
    done.
Qed.

(** X16. On an event target the constructor can only throw while it
    installs the polyfills (for one, on a form with a control that inherits
    a native [checkValidity]). It then ends after [catch_submit] has run and
    before any revalidation listener is attached: the target is left with
    the [click] and [keypress] listeners of [catch_submit] added to the
    listeners it had, and nothing else. *)
Theorem Wrapper_constructor_throw_keeps_catch_submit
    (form : N) (settings : gmap string value) (n : node) (w w' : world) (e : error) :
  nodes w !! form = Some n →
  Wrapper_constructor call_getter polyfill_descriptor property_getters
    form settings w = (Throw e, w') →
  listeners_of w' form
  = add_listener (Listener "keypress" (N.succ (N.succ (next_id w))) false)
      (add_listener (Listener "click" (N.succ (next_id w)) false) (node_listeners n)).
Proof.
  intros Hn Hthrow.
  destruct (Wrapper_constructor_run call_getter polyfill_descriptor
              property_getters form settings n w Hn)
    as (w1 & _ & _ & Hnodes1 & _ & Hrun).
  pose proof (Wrapper_install_phase_objects call_getter polyfill_descriptor
                property_getters form w1) as Hw2. cbv zeta in Hw2.
  destruct (Wrapper_install_phase _ _ _ form w1) as [[[]|e'] w2];
    rewrite Hrun in Hthrow; [done|].
  injection Hthrow as _ <-. cbn [snd] in Hw2.
  unfold listeners_of. rewrite Hw2. simpl. rewrite Hnodes1, lookup_insert_eq.
  reflexivity.
Qed.

End Registration.

(** X17. [get_wrapper] looks in three places, in this order. The wrapper
    of the element's own [form], when that form is wrapped, wins over
    everything else, also over a wrapped fieldset that is nearer to the
    element. Otherwise the wrapper of the nearest wrapped node on the way
    from the element up to the document is returned. Otherwise the result is
    whatever is registered for the window, [undefined] when nothing is. *)
Theorem get_wrapper_order
    (instances : gmap N wrapper) (window : N) (form : option N) (chain : list N) :
  (∀ f this, form = Some f → instances !! f = Some this →
     get_wrapper instances window form chain = Some this)
  ∧ (∀ i a this,
       (∀ f, form = Some f → instances !! f = None) →
       chain !! i = Some a →
       instances !! a = Some this →
       (∀ j b, j < i → chain !! j = Some b → instances !! b = None) →
       get_wrapper instances window form chain = Some this)
  ∧ ((∀ f, form = Some f → instances !! f = None) →
     (∀ a, a ∈ chain → instances !! a = None) →
     get_wrapper instances window form chain = instances !! window).
Proof.
  assert (∀ i a this,
            chain !! i = Some a → instances !! a = Some this →
            (∀ j b, j < i → chain !! j = Some b → instances !! b = None) →
            walk_up instances chain = Some this) as Hwalk.
  { induction chain as [|x rest IH]; intros i a this Hi Ha Hbefore.
    - by rewrite lookup_nil in Hi.
    - destruct i as [|i]; simpl in *.
      + injection Hi as ->. by rewrite Ha.
      + rewrite (Hbefore 0 x) by (lia || done).
        apply (IH i a this Hi Ha). intros j b Hj Hb.
        apply (Hbefore (S j) b); [lia|done]. }
  assert ((∀ a, a ∈ chain → instances !! a = None) →
          walk_up instances chain = None) as Hnone.
  { induction chain as [|x rest IH]; intros Hall; [done|]. simpl.
    rewrite (Hall x) by left. apply IH.
    - intros i a this Hi Ha Hbefore. by rewrite Hall in Ha by (right; by eapply list_elem_of_lookup_2).
    - intros a Ha. apply Hall. by right. }
  unfold get_wrapper. split; [|split].
  - intros f this -> Hf. by rewrite Hf.
  - intros i a this Hform Hi Ha Hbefore.
    assert (match form with Some f => instances !! f | None => None end = None) as ->.
    { destruct form as [f|]; [by apply Hform|done]. }
    by rewrite (Hwalk i a this Hi Ha Hbefore).
  - intros Hform Hall.
    assert (match form with Some f => instances !! f | None => None end = None) as ->.
    { destruct form as [f|]; [by apply Hform|done]. }
    by rewrite (Hnone Hall).
Qed.

(** On the sample page the [div] is registered by the constructor; the
    value 7, which names no object of the page, is not. *)
Lemma Wrapper_constructor_registers_witness :
  instances (Wrapper_constructor getters_return_undefined sample_polyfills
               sample_getters 2 hybrid_settings sample_page).2 !! 2%N
  = Some (Wrapper 2 hybrid_settings 10)
  ∧ (Wrapper_constructor getters_return_undefined sample_polyfills
       sample_getters 7 hybrid_settings sample_page).1 = Throw TypeError.
Proof.
  split.
  - destruct (Wrapper_constructor_registers getters_return_undefined sample_polyfills
                sample_getters 2 hybrid_settings sample_page 0 []) as [Hobject _].
    destruct (Hobject eq_refl) as [Hinstances _].
    rewrite Hinstances. apply lookup_insert_eq.
  - destruct (Wrapper_constructor_registers getters_return_undefined sample_polyfills
                sample_getters 7 hybrid_settings sample_page 0 []) as [_ Hprimitive].
    destruct (Hprimitive eq_refl) as [Hthrow _]. exact Hthrow.
Defined.

Lemma Wrapper_detach_undoes_attach_witness :
  ∃ w', (Wrapper_attach (Wrapper 1 hybrid_settings 10) ;;;
         Wrapper_detach (Wrapper 1 hybrid_settings 10))%js sample_world
        = (Normal tt, w')
      ∧ nodes w' = nodes sample_world.
Proof.
  destruct (Wrapper_detach_undoes_attach (Wrapper 1 hybrid_settings 10)
              sample_form sample_world eq_refl) as (w' & Hrun & Hnodes & _).
  - intros l Hl. destruct (not_elem_of_nil l Hl).
  - exists w'. split; [exact Hrun|exact Hnodes].
Defined.

(** On the page with the native control the constructor throws. *)
Lemma native_page_constructor_throws :
  ∃ w', Wrapper_constructor getters_return_undefined sample_polyfills sample_getters
          1 hybrid_settings native_page = (Throw TypeError, w').
Proof. eexists. vm_compute. reflexivity. Qed.

Lemma Wrapper_constructor_throw_keeps_catch_submit_witness :
  ∃ w', Wrapper_constructor getters_return_undefined sample_polyfills sample_getters
          1 hybrid_settings native_page = (Throw TypeError, w')
      ∧ listeners_of w' 1 = [Listener "click" 11 false; Listener "keypress" 12 false].
Proof.
  destruct native_page_constructor_throws as (w' & Hrun).
  exists w'. split; [exact Hrun|].
  exact (Wrapper_constructor_throw_keeps_catch_submit getters_return_undefined
           sample_polyfills sample_getters 1 hybrid_settings _ native_page w'
           TypeError eq_refl Hrun).
Defined.

Lemma get_wrapper_order_witness :
  get_wrapper sample_instances 0 (Some 1%N) [5%N; 3%N; 1%N; 2%N]
  = Some (Wrapper 1 hybrid_settings 10)
  ∧ get_wrapper sample_instances 0 None [5%N; 3%N; 1%N; 2%N]
    = Some (Wrapper 3 hybrid_settings 20).
Proof.
  split.
  - apply (proj1 (get_wrapper_order sample_instances 0 (Some 1%N)
                    [5%N; 3%N; 1%N; 2%N]) 1%N); reflexivity.
  - apply (proj1 (proj2 (get_wrapper_order sample_instances 0 None
                           [5%N; 3%N; 1%N; 2%N])) 1 3%N).
    + discriminate.
    + reflexivity.
    + reflexivity.
    + intros [|j] b Hj Hb; [|lia]. injection Hb as <-. reflexivity.
Defined.

(** ** The listeners of [catch_submit] *)

Section SubmissionListeners.

Variable text_types : list string.
Variable reportValidity : option form_state -> bool.

Lemma check_run (e : event) (f : form_state) (trace : list action) :
  target_form (target e) = Some f →
  ∃ o added, check reportValidity e trace = (o, trace ++ added)
           ∧ listener_outcome reportValidity e false o added.
Proof.
  intros Hf. unfold check, form_submit, emit. js_unfold. rewrite Hf.
  destruct (reportValidity (Some f)) eqn:Hrv; simpl.
  - destruct (named_elements f "submit") as [|c cs] eqn:Hsub; simpl.
    + exists (Normal tt), [PreventDefault; ReportValidity; Submit].
      split; [by rewrite <- !app_assoc|].
      apply (submits _ e false f); [by rewrite Hf|done|done].
    + exists (Throw TypeError), [PreventDefault; ReportValidity].
      split; [by rewrite <- !app_assoc|].
      apply (fails_on_submit _ e false f); [by rewrite Hf|done|by rewrite Hsub].
  - exists (Normal tt), [PreventDefault; ReportValidity].
    split; [by rewrite <- !app_assoc|].
    apply finds_invalid. by rewrite Hf.
Qed.

Lemma listener_outcome_weaken (e : event) (o : outcome unit) (added : list action) :
  listener_outcome reportValidity e false o added →
  listener_outcome reportValidity e true o added.
Proof.
  intros H. destruct H as [|f|i Hi| |f|f]; [constructor| | |by constructor| |].
  - by apply (fails_on_hasAttribute _ e true f).
  - discriminate Hi.
  - by apply (submits _ e true f).
  - by apply (fails_on_submit _ e true f).
Qed.

Lemma form_validates_cases (e : event) :
  form_validates e = Normal false
  ∨ (∃ f, form_validates e = Normal true ∧ target_form (target e) = Some f)
  ∨ (∃ f, form_validates e = Throw TypeError ∧ target_form (target e) = Some f
          ∧ named_elements f "hasAttribute" ≠ []).
Proof.
  unfold form_validates, form_hasAttribute_novalidate.
  destruct (target_form (target e)) as [f|]; [|by left].
  destruct (named_elements f "hasAttribute") as [|c cs] eqn:Hhas.
  - destruct (has_novalidate f); [by left|]. right. left. by exists f.
  - right. right. exists f. by rewrite Hhas.
Qed.

(** X18. Whatever the event, each listener of [catch_submit] does one of a
    few things: nothing; for the keypress listener, [preventDefault] and a
    click on a member of [form.elements]; or [preventDefault], then
    [reportValidity] on the form, then [form.submit()] exactly when
    [reportValidity] returned true. So the form is never submitted by them
    without a successful validation, and never without the default action
    having been prevented first. A listener throws in two cases only, both
    with an element of the form shadowing a member of the form: before it
    has done anything, when the element is exposed as [hasAttribute], and in
    place of the submission, when it is exposed as [submit]. *)
Theorem submission_listeners_outcomes (e : event) (trace : list action) :
  (∃ o added,
     keypress_listener text_types reportValidity e trace = (o, trace ++ added)
     ∧ listener_outcome reportValidity e true o added)
  ∧ (∃ o added,
       click_listener reportValidity e trace = (o, trace ++ added)
       ∧ listener_outcome reportValidity e false o added).
Proof.
  split.
  - unfold keypress_listener, implicit_submission, lift_outcome.
    destruct (negb (defaultPrevented e) && _ && _ && _).
    2: { exists (Normal tt), []. split; [by rewrite app_nil_r|constructor]. }
    destruct (form_validates_cases e) as [->|[(f & -> & Hf)|(f & -> & Hf & Hhas)]].
    + exists (Normal tt), []. split; [by rewrite app_nil_r|constructor].
    + unfold bind at 1. rewrite Hf. cbn [from_option].
      destruct (first_submit 0 (form_elements_types f)) as [i|].
      * exists (Normal tt), [PreventDefault; Click i]. split.
        -- unfold emit. js_unfold. by rewrite <- app_assoc.
        -- by constructor.
      * destruct (check_run e f trace Hf) as (o & added & Hrun & Hout).
        exists o, added. split; [done|by apply listener_outcome_weaken].
    + exists (Throw TypeError), []. split; [by rewrite app_nil_r|].
      by apply (fails_on_hasAttribute _ e true f).
  - unfold click_listener, explicit_submission, lift_outcome.
    destruct (negb (defaultPrevented e) && _ && _ && _).
    2: { exists (Normal tt), []. split; [by rewrite app_nil_r|constructor]. }
    destruct (form_validates_cases e) as [->|[(f & -> & Hf)|(f & -> & Hf & Hhas)]].
    + exists (Normal tt), []. split; [by rewrite app_nil_r|constructor].
    + unfold bind at 1. by apply (check_run e f).
    + exists (Throw TypeError), []. split; [by rewrite app_nil_r|].
      by apply (fails_on_hasAttribute _ e false f).
Qed.

End SubmissionListeners.

(** Both failures occur: a click on a submit button named [submit] ends
    with a [TypeError] after the form has been validated, and so does Enter
    in a form with a hidden field of that name; a control named
    [hasAttribute] makes the listener throw before it does anything. *)
Example listeners_shadowed :
  click_listener (λ _, true)
    (Event false 0
       (EventTarget "INPUT" "submit" false
          (Some (FormState false [ Control "INPUT" "submit" ["submit"] ])))) []
  = (Throw TypeError, [PreventDefault; ReportValidity])
  ∧ keypress_listener ["text"] (λ _, true) (enter_in shadowing_form) []
    = (Throw TypeError, [PreventDefault; ReportValidity])
  ∧ keypress_listener ["text"] (λ _, true)
      (enter_in (FormState false [ Control "INPUT" "text" ["hasAttribute"] ])) []
    = (Throw TypeError, []).
Proof. by repeat split. Qed.

Lemma add_listener_fresh (l : listener) (ls : list listener) :
  l ∉ ls → add_listener l ls = ls ++ [l].
Proof. intros Hl. unfold add_listener. by rewrite bool_decide_eq_false_2. Qed.

(** X19. The two listeners of [catch_submit] are function expressions, so
    every call registers two new functions and [addEventListener] has
    nothing to recognise: catching submission twice on the same node (as
    wrapping the same form twice does) leaves it with two [click] and two
    [keypress] listeners after the ones it had. *)
Theorem catch_submit_twice (form : N) (n : node) (w : world) :
  nodes w !! form = Some n →
  (∀ l, l ∈ node_listeners n → (l_callback l < next_id w)%N) →
  let r := next_id w in
  ∃ w', (catch_submit form ;;; catch_submit form)%js w = (Normal tt, w')
      ∧ listeners_of w' form
        = node_listeners n
          ++ [ Listener "click" r false;
               Listener "keypress" (N.succ r) false;
               Listener "click" (N.succ (N.succ r)) false;
               Listener "keypress" (N.succ (N.succ (N.succ r))) false ].
Proof.
  intros Hn Hfresh r.
  destruct (catch_submit_run form n w Hn) as (w1 & Hrun1 & Hn1 & Hnext1).
  destruct (catch_submit_run form _ w1 Hn1) as (w2 & Hrun2 & Hn2 & _).
  exists w2. split.
  - erewrite bind_Normal by exact Hrun1. exact Hrun2.
  - unfold listeners_of. rewrite Hn2. simpl. rewrite Hnext1. fold r.
    assert (∀ t c k, (r ≤ k)%N → Listener t k c ∉ node_listeners n) as Hold.
    { intros t c k Hk Hin. specialize (Hfresh _ Hin). simpl in Hfresh. lia. }
    rewrite (add_listener_fresh (Listener "click" r false)) by (apply Hold; lia).
    rewrite (add_listener_fresh (Listener "keypress" (N.succ r) false)).
    2: { rewrite elem_of_app, list_elem_of_singleton.
         intros [Hin|[=]]. by apply (Hold _ _ _ (N.le_succ_diag_r r)) in Hin. }
    rewrite (add_listener_fresh (Listener "click" (N.succ (N.succ r)) false)).
    2: { rewrite !elem_of_app, !list_elem_of_singleton.
         intros [[Hin|[=]]|[=]]; [|lia].
         apply (Hold "click" false (N.succ (N.succ r))) in Hin; [done|lia]. }
    rewrite (add_listener_fresh
               (Listener "keypress" (N.succ (N.succ (N.succ r))) false)).
    2: { rewrite !elem_of_app, !list_elem_of_singleton.
         intros [[[Hin|[=]]|[=]]|[=]]; [|lia].
         apply (Hold "keypress" false (N.succ (N.succ (N.succ r)))) in Hin;
           [done|lia]. }
    by rewrite <- !app_assoc.
Qed.

Lemma catch_submit_twice_witness :
  ∃ w', (catch_submit 1 ;;; catch_submit 1)%js sample_world = (Normal tt, w')
      ∧ listeners_of w' 1
        = [ Listener "click" 10 false; Listener "keypress" 11 false;
            Listener "click" 12 false; Listener "keypress" 13 false ].
Proof.
  destruct (catch_submit_twice 1 sample_form sample_world eq_refl)
    as (w' & Hrun & Hls).
  - intros l Hl. destruct (not_elem_of_nil l Hl).
  - exists w'. split; [exact Hrun|exact Hls].
Defined.

(** ** The entry point, composed with the constructor *)

(** X20. The settings [hyperform] builds are a fixed point of its own
    option handling: handed back as options, as the recursive call on the
    members of a collection does, they come out unchanged, and no new
    [classes] object is created. *)
Theorem resolve_settings_fixed_point
    (options settings : gmap string value) (w w1 w2 : world) :
  resolve_settings options w = (Normal settings, w1) →
  resolve_settings settings w2 = (Normal settings, w2).
Proof. apply resolve_settings_idempotent. Qed.

Lemma resolve_settings_fixed_point_witness :
  ∃ settings w1,
    resolve_settings sample_options sample_page = (Normal settings, w1)
    ∧ resolve_settings settings sample_page = (Normal settings, sample_page).
Proof.
  destruct (resolve_settings_run sample_options sample_page)
    as (a & b & c & d & e & w1 & Hres & _).
  eexists _, w1. split; [exact Hres|].
  exact (resolve_settings_fixed_point _ _ _ _ sample_page Hres).
Defined.

Lemma resolve_settings_next_id (options : gmap string value) (w w1 : world)
    (settings : gmap string value) :
  resolve_settings options w = (Normal settings, w1) →
  nodes w1 = nodes w ∧ (next_id w ≤ next_id w1)%N.
Proof.
  unfold resolve_settings, new_object, fresh. js_unfold.
  destruct (negb _); intros [= _ <-]; simpl; split; (done || lia).
Qed.

(** The setting [revalidate] that is resolved when the option is left out. *)
Lemma resolve_settings_revalidate (options settings : gmap string value) (w w1 : world) :
  member options "revalidate" = VUndefined →
  resolve_settings options w = (Normal settings, w1) →
  member settings "revalidate"
  = if ToBoolean (member options "strict") then VString "onsubmit"
    else VString "hybrid".
Proof.
  intros Hrev. unfold resolve_settings. js_unfold. rewrite Hrev.
  assert (ToBoolean (or_default (member options "strict") (VBool false))
          = ToBoolean (member options "strict")) as ->.
  { unfold or_default, strict_equal. case_bool_decide as H; [by rewrite H|done]. }
  destruct (negb _); intros [= <- _]; unfold member; by simplify_map_eq.
Qed.

Section HyperformListeners.

Variable call_getter : value -> element -> outcome value.
Variable polyfill_descriptor : string -> descriptor.
Variable property_getters : list (string * descriptor).

(** X21. Called on a single event target without a [revalidate] option,
    [hyperform] leaves on it, after the listeners it had, the [click] and
    [keypress] listeners of [catch_submit] and then: with a truthy [strict]
    option nothing more (validation on submit only); otherwise the new
    revalidator for [keyup], for [change] and, capturing, for [blur] (the
    ['hybrid'] default). *)
Theorem hyperform_default_listeners
    (form : N) (options : gmap string value) (n : node) (w w' : world) (r : result) :
  nodes w !! form = Some n →
  (∀ l, l ∈ node_listeners n → (l_callback l < next_id w)%N) →
  member options "revalidate" = VUndefined →
  hyperform call_getter polyfill_descriptor property_getters
    (Single form) (Some options) w = (Normal r, w') →
  ∃ this, r = RWrapper this
    ∧ let k := wrapper_revalidator this in
      listeners_of w' form
      = node_listeners n
        ++ [ Listener "click" (N.succ k) false;
             Listener "keypress" (N.succ (N.succ k)) false ]
        ++ (if ToBoolean (member options "strict") then []
            else [ Listener "keyup" k false; Listener "change" k false;
                   Listener "blur" k true ]).
Proof.
  intros Hn Hfresh Hrev. rewrite hyperform_unfold. simpl.
  destruct (resolve_settings_run options w)
    as (sa & sb & sc & sd & se & w1 & Hres & _).
  erewrite bind_Normal by exact Hres.
  pose proof (resolve_settings_revalidate _ _ _ _ Hrev Hres) as Hsetting.
  destruct (resolve_settings_next_id _ _ _ _ Hres) as [Hnodes Hnext].
  set (settings := <["strict":=sa]> _) in *.
  assert (nodes w1 !! form = Some n) as Hn1 by (by rewrite Hnodes).
  destruct (Wrapper_constructor_run call_getter polyfill_descriptor
              property_getters form settings n w1 Hn1)
    as (w2 & _ & _ & _ & _ & Hrun).
  unfold bind at 1.
  destruct (Wrapper_install_phase _ _ _ form w2) as [[[]|e'] w3].
  2: { by rewrite Hrun. }
  rewrite Hrun. unfold ret.
  intros [= <- <-]. eexists. split; [reflexivity|].
  unfold listeners_of. cbn [nodes set_nodes wrapper_revalidator].
  rewrite lookup_insert_eq. cbn [from_option node_listeners set_node_listeners].
  rewrite Hsetting. clear Hrun. unfold caught_listeners.
  set (k := next_id w1) in *.
  assert (∀ t cap j, (k ≤ j)%N → Listener t j cap ∉ node_listeners n) as Hold.
  { intros t cap j Hj Hin. specialize (Hfresh _ Hin). simpl in Hfresh. lia. }
  rewrite (add_listener_fresh (Listener "click" (N.succ k) false))
    by (apply Hold; lia).
  rewrite (add_listener_fresh (Listener "keypress" (N.succ (N.succ k)) false)).
  2: { rewrite elem_of_app, list_elem_of_singleton.
       intros [Hin|[=]]. apply (Hold "keypress" false (N.succ (N.succ k))) in Hin;
         [done|lia]. }
  destruct (ToBoolean (member options "strict")); simpl.
  - by rewrite <- app_assoc.
  - rewrite (add_listener_fresh (Listener "keyup" k false)).
    2: { rewrite !elem_of_app, !list_elem_of_singleton.
         intros [[Hin|[=]]|[=]]. by apply (Hold "keyup" false k) in Hin. }
    rewrite (add_listener_fresh (Listener "change" k false)).
    2: { rewrite !elem_of_app, !list_elem_of_singleton.
         intros [[[Hin|[=]]|[=]]|[=]]. by apply (Hold "change" false k) in Hin. }
    rewrite (add_listener_fresh (Listener "blur" k true)).
    2: { rewrite !elem_of_app, !list_elem_of_singleton.
         intros [[[[Hin|[=]]|[=]]|[=]]|[=]]. by apply (Hold "blur" true k) in Hin. }
    by rewrite <- !app_assoc.
Qed.

(** X22. On an empty collection [hyperform] returns an empty array and
    wraps nothing: the objects, the nodes and [instances] of the page are as
    before. *)
Theorem hyperform_empty_collection
    (options : option (gmap string value)) (w : world) :
  ∃ w', hyperform call_getter polyfill_descriptor property_getters
          (Collection []) options w = (Normal (RArray []), w')
      ∧ objects w' = objects w ∧ nodes w' = nodes w ∧ instances w' = instances w.
Proof.
  rewrite hyperform_unfold.
  destruct (resolve_settings_run (default ∅ options) w)
    as (a & b & c & d & e & w1 & Hres & _).
  erewrite bind_Normal by exact Hres. exists w1. split; [reflexivity|].
  destruct (resolve_settings_world (default ∅ options) w) as (Ho & Hn & Hi & _).
  rewrite Hres in Ho, Hn, Hi. by repeat split.
Qed.

(** X23. What [hyperform] touches on the page, whether it returns or
    throws. Of the event targets, only the nodes it is called on (a single
    node, or the members of the collection) can get new listeners; no node
    changes its class or its [elements]. Of the objects, only those the
    polyfills are installed on can change: the controls in the [elements] of
    a wrapped form or fieldset, a wrapped form itself, and, when the window
    or a document is wrapped, the five element prototypes and
    [window.HTMLFormElement]. Every other node and object is left as it
    was. *)
Theorem hyperform_keeps_other_nodes
    (form : form_argument) (options : option (gmap string value)) (w : world) :
  let w' := (hyperform call_getter polyfill_descriptor property_getters
               form options w).2 in
  (∀ g, g ∉ nodes_of form → nodes w' !! g = nodes w !! g)
  ∧ (∀ j, j ∉ all_targets w form → objects w' !! j = objects w !! j)
  ∧ same_structure w w'.
Proof.
  cbv zeta.
  destruct (hyperform_frame call_getter polyfill_descriptor property_getters
              form options w) as (Hs & Hn & Ho).
  split; [exact Hn|]. split; [exact Ho|exact Hs].
Qed.

End HyperformListeners.

(** With the strict sample options [hyperform] completes on the sample
    form. *)
Lemma sample_hyperform_completes :
  ∃ r w',
    hyperform getters_return_undefined sample_polyfills sample_getters
      (Single 1) (Some sample_options) sample_world = (Normal r, w').
Proof. eexists _, _. vm_compute. reflexivity. Qed.

Lemma hyperform_default_listeners_witness :
  ∃ this w',
    hyperform getters_return_undefined sample_polyfills sample_getters
      (Single 1) (Some sample_options) sample_world = (Normal (RWrapper this), w')
    ∧ listeners_of w' 1
      = [ Listener "click" (N.succ (wrapper_revalidator this)) false;
          Listener "keypress" (N.succ (N.succ (wrapper_revalidator this))) false ].
Proof.
  destruct sample_hyperform_completes as (r & w' & Hrun).
  assert (∀ l, l ∈ node_listeners sample_form → (l_callback l < next_id sample_world)%N)
    as Hfresh.
  { intros l Hl. destruct (not_elem_of_nil l Hl). }
  destruct (hyperform_default_listeners getters_return_undefined sample_polyfills
              sample_getters 1 sample_options sample_form sample_world w' r
              eq_refl Hfresh eq_refl Hrun) as (this & Hr & Hls).
  exists this, w'. split; [rewrite <- Hr; exact Hrun|exact Hls].
Defined.

(** Wrapping the sample form leaves the [div] alone, as a node and as an
    object; the input in the form is patched. *)
Lemma hyperform_keeps_other_nodes_witness :
  let w' := (hyperform getters_return_undefined sample_polyfills sample_getters
               (Single 1) None sample_page).2 in
  nodes w' !! 2%N = nodes sample_page !! 2%N
  ∧ objects w' !! 2%N = objects sample_page !! 2%N.
Proof.
  destruct (hyperform_keeps_other_nodes getters_return_undefined sample_polyfills
              sample_getters (Single 1) None sample_page) as (Hnodes & Hobjects & _).
  split.
  - apply Hnodes. intros Hin. apply list_elem_of_singleton in Hin. discriminate Hin.
  - apply Hobjects.
    change (all_targets sample_page (Single 1)) with [3%N; 5%N; 1%N].
    intros Hin. repeat (apply elem_of_cons in Hin as [Hin|Hin]; [discriminate Hin|]).
    by apply elem_of_nil in Hin.
Defined.

Example hyperform_patches_controls :
  let w' := (hyperform getters_return_undefined sample_polyfills sample_getters
               (Single 1) None sample_page).2 in
  own_table (objects w') 5 !! "checkValidity" = Some (new_property (method_descriptor 7))
  ∧ own_table (objects sample_page) 5 !! "checkValidity" = None.
Proof. split; vm_compute; reflexivity. Qed.

(** ** What is not an event target, and what is wrapped before a failure *)

Section Failures.

Variable call_getter : value -> element -> outcome value.
Variable polyfill_descriptor : string -> descriptor.
Variable property_getters : list (string * descriptor).

(** X24. Called on something that is not an event target of the page, a
    primitive value or an object without [addEventListener], [hyperform]
    does not skip it: the constructor runs, and the call ends with a
    [TypeError], thrown by [instances.set] for a primitive value and by the
    [addEventListener] call of [catch_submit] for an object. *)
Theorem hyperform_not_an_event_target
    (form : N) (options : option (gmap string value)) (w : world) :
  nodes w !! form = None →
  ∃ w', hyperform call_getter polyfill_descriptor property_getters
          (Single form) options w = (Throw TypeError, w').
Proof.
  intros Hn. rewrite hyperform_unfold.
  destruct (resolve_settings_run (default ∅ options) w)
    as (sa & sb & sc & sd & se & w1 & Hres & _).
  erewrite bind_Normal by exact Hres.
  pose proof (resolve_settings_nodes (default ∅ options) w) as Hnodes.
  rewrite Hres in Hnodes. cbn [snd] in Hnodes.
  edestruct (Wrapper_constructor_missing call_getter polyfill_descriptor
               property_getters form) as (w' & Hnew & _);
    [by rewrite Hnodes|].
  exists w'. erewrite bind_Throw by exact Hnew. reflexivity.
Qed.

(** X25. [hyperform] on a collection is not all or nothing. When the first
    member is an event target for which the installation completes and the
    second is not an event target at all, the call ends with a [TypeError]
    and returns no array, but the first member has been wrapped by then and
    stays so: [instances] maps it to its wrapper, where [get_wrapper] finds
    it. *)
Theorem hyperform_wraps_before_failing
    (a b : N) (options : option (gmap string value)) (w : world) :
  a ≠ b →
  installable call_getter polyfill_descriptor property_getters w a →
  nodes w !! b = None →
  ∃ w' this,
    hyperform call_getter polyfill_descriptor property_getters
      (Collection [Single a; Single b]) options w = (Throw TypeError, w')
    ∧ wrapper_form this = a
    ∧ instances w' !! a = Some this.
Proof.
  intros Hab Hinst Hb. rewrite hyperform_unfold.
  destruct (resolve_settings_run (default ∅ options) w)
    as (sa & sb & sc & sd & se & w1 & Hres & _).
  erewrite bind_Normal by exact Hres.
  destruct (resolve_settings_world (default ∅ options) w)
    as (Hobj & Hnodes & _ & Hs1 & _).
  rewrite Hres in Hobj, Hnodes, Hs1. cbn [snd] in Hobj, Hnodes, Hs1.
  set (settings := <["strict":=sa]> _) in *.
  (* the first member *)
  destruct (Wrapper_constructor_completes call_getter polyfill_descriptor
              property_getters w w1 [] a settings) as (w2 & Hnew);
    [done|by rewrite Hobj| |done|].
  { intros id _. split; [apply not_elem_of_nil|].
    intros o p _ _. apply not_elem_of_nil. }
  pose proof (Wrapper_constructor_instances call_getter polyfill_descriptor
                property_getters a settings w1) as Hreg.
  destruct (Wrapper_constructor_frame call_getter polyfill_descriptor
              property_getters a settings w1) as (_ & Hother & _).
  rewrite Hnew in Hreg, Hother. cbn [snd] in Hreg, Hother.
  assert (is_object w1 a = true) as Hobja.
  { unfold is_object. apply bool_decide_eq_true_2. right.
    rewrite Hnodes. apply Hinst. }
  rewrite Hobja in Hreg.
  assert (hyperform call_getter polyfill_descriptor property_getters
            (Single a) (Some settings) w1
          = (Normal (RWrapper (Wrapper a settings (next_id w1))), w2)) as Hfirst.
  { rewrite hyperform_unfold.
    erewrite bind_Normal
      by exact (resolve_settings_idempotent _ _ _ _ w1 Hres).
    erewrite bind_Normal by exact Hnew. reflexivity. }
  (* the second member *)
  destruct (Wrapper_constructor_missing call_getter polyfill_descriptor
              property_getters b settings w2) as (w3 & Hfail & _ & _ & _ & Hreg2).
  { rewrite Hother by (by apply not_eq_sym). by rewrite Hnodes. }
  assert (hyperform call_getter polyfill_descriptor property_getters
            (Single b) (Some settings) w2 = (Throw TypeError, w3)) as Hsecond.
  { rewrite hyperform_unfold.
    erewrite bind_Normal
      by exact (resolve_settings_idempotent _ _ _ _ w2 Hres).
    erewrite bind_Throw by exact Hfail. reflexivity. }
  exists w3, (Wrapper a settings (next_id w1)). split; [|split].
  - erewrite bind_Throw; [reflexivity|]. rewrite map_call_cons.
    erewrite bind_Normal by exact Hfirst.
    erewrite bind_Throw; [reflexivity|]. rewrite map_call_cons.
    erewrite bind_Throw by exact Hsecond. reflexivity.
  - reflexivity.
  - rewrite Hreg2. destruct (is_object w2 b).
    + rewrite lookup_insert_ne by (by apply not_eq_sym). rewrite Hreg.
      apply lookup_insert_eq.
    + rewrite Hreg. apply lookup_insert_eq.
Qed.

End Failures.

Lemma hyperform_not_an_event_target_witness :
  ∃ w', hyperform getters_return_undefined sample_polyfills sample_getters
          (Single 7) None sample_page = (Throw TypeError, w').
Proof.
  apply (hyperform_not_an_event_target getters_return_undefined sample_polyfills
           sample_getters 7 None sample_page).
  reflexivity.
Defined.

Lemma hyperform_wraps_before_failing_witness :
  ∃ w' this,
    hyperform getters_return_undefined sample_polyfills sample_getters
      (Collection [Single 2; Single 7]) None sample_page = (Throw TypeError, w')
    ∧ wrapper_form this = 2%N
    ∧ instances w' !! 2%N = Some this.
Proof.
  apply (hyperform_wraps_before_failing getters_return_undefined sample_polyfills
           sample_getters 2 7 None sample_page).
  - discriminate.
  - split; [by eexists|reflexivity].
  - reflexivity.
Defined.

(** ** Where the polyfills go *)

Section InstallScope.

Variable call_getter : value -> element -> outcome value.
Variable polyfill_descriptor : string -> descriptor.
Variable property_getters : list (string * descriptor).

(** X26. What the constructor patches depends on what is wrapped, and on
    nothing else. For the window or a document only the five element
    prototypes and [window.HTMLFormElement] can change; for a form, only the
    members of its [elements] and the form itself; for a fieldset, only the
    members of its [elements]; for any other node nothing is installed at
    all. Every other object of the page keeps its properties, and nothing
    but properties of objects changes: not the nodes and their listeners,
    not [instances]. This holds whether the installation completes or
    throws. *)
Theorem Wrapper_install_phase_scope (form : N) (n : node) (w : world) :
  nodes w !! form = Some n →
  let w' := (Wrapper_install_phase call_getter polyfill_descriptor
               property_getters form w).2 in
  w' = set_objects (λ _, objects w') w
  ∧ match class_of n with
    | Window | HTMLDocument =>
        ∀ j, j ∉ element_prototypes w → j ≠ HTMLFormElement_object w →
             objects w' !! j = objects w !! j
    | HTMLFormElement =>
        ∀ j, j ∉ node_elements n → j ≠ form → objects w' !! j = objects w !! j
    | HTMLFieldSetElement =>
        ∀ j, j ∉ node_elements n → objects w' !! j = objects w !! j
    | OtherNode => w' = w
    end.
Proof.
  intros Hn. cbv zeta. split; [apply Wrapper_install_phase_objects|].
  pose proof (λ j, Wrapper_install_phase_other call_getter polyfill_descriptor
                     property_getters form j w) as Hother.
  cbv beta in Hother. unfold install_targets in Hother. rewrite Hn in Hother.
  destruct (class_of n) eqn:Hclass.
  - intros j Hj1 Hj2. apply Hother. rewrite elem_of_app, list_elem_of_singleton. tauto.
  - intros j Hj1 Hj2. apply Hother. rewrite elem_of_app, list_elem_of_singleton. tauto.
  - intros j Hj1 Hj2. apply Hother. rewrite elem_of_app, list_elem_of_singleton. tauto.
  - intros j Hj. by apply Hother.
  - rewrite Wrapper_install_phase_run, Hn, Hclass. unfold zoom. simpl.
    apply set_objects_id.
Qed.

End InstallScope.

Lemma Wrapper_install_phase_scope_witness :
  let w' := (Wrapper_install_phase getters_return_undefined sample_polyfills
               sample_getters 3 sample_page).2 in
  objects w' !! 1%N = objects sample_page !! 1%N
  ∧ objects w' !! 51%N = objects sample_page !! 51%N.
Proof.
  destruct (Wrapper_install_phase_scope getters_return_undefined sample_polyfills
              sample_getters 3 (Node HTMLFieldSetElement [5%N] []) sample_page eq_refl)
    as [_ Hother].
  split; apply Hother; intros Hin; apply list_elem_of_singleton in Hin;
    discriminate Hin.
Defined.

(** ** A browser without constraint validation *)

Section FreshPage.

Variable call_getter : value -> element -> outcome value.
Variable polyfill_descriptor : string -> descriptor.
Variable property_getters : list (string * descriptor).

Let names : list string := polyfill_names ++ property_getters.*1.

Hypothesis names_distinct : NoDup names.
Hypothesis polyfills_valid :
  ∀ name, name ∈ polyfill_names → valid_descriptor (polyfill_descriptor name) = true.
Hypothesis getters_valid :
  ∀ name d, (name, d) ∈ property_getters → valid_descriptor d = true.

Lemma install_element_fresh (el : element) :
  extensible el = true →
  (∀ name, name ∈ names → HasProperty el name = false) →
  (install_element call_getter polyfill_descriptor property_getters el).1 = Normal tt.
Proof using names_distinct polyfills_valid getters_valid.
  intros Hext Habs. rewrite install_element_for_each.
  set (polyfills := (λ n, (n, polyfill_descriptor n)) <$> polyfill_names).
  assert ((polyfills ++ property_getters).*1 = names) as Hnames.
  { unfold names. rewrite fmap_app. f_equal. }
  destruct (install_properties_absent call_getter (polyfills ++ property_getters) el)
    as (el' & Hrun & _); [by rewrite Hnames| |done|by rewrite Hrun].
  intros n d Hin. split.
  - apply Habs. rewrite <- Hnames. apply list_elem_of_fmap. by exists (n, d).
  - apply elem_of_app in Hin as [Hin|Hin]; [|by eapply getters_valid].
    apply list_elem_of_fmap in Hin as (m & [= -> ->] & Hm). by apply polyfills_valid.
Qed.

Lemma Wrapper_install_form_fresh (el : element) :
  extensible el = true →
  (∀ name, name ∈ names → HasProperty el name = false) →
  (Wrapper_install_form call_getter polyfill_descriptor el).1 = Normal tt.
Proof using polyfills_valid.
  intros Hext Habs. unfold Wrapper_install_form, polyfill_install, bind.
  rewrite installer_absent; [|apply Habs; compute_done|done|apply polyfills_valid; compute_done].
  rewrite installer_absent; [done| |done|apply polyfills_valid; compute_done].
  rewrite HasProperty_set_own_ne by discriminate. apply Habs. compute_done.
Qed.

(** Patching one object leaves the others fresh. *)
Lemma with_object_fresh {A} (targets : list N) (id t : N) (m : JS element A) (h : heap) :
  id ∈ targets → t ≠ id →
  fresh_object names targets h t →
  fresh_object names targets (with_object id m h).2 t.
Proof.
  intros Hid Hne (o & Ho & Hext & Hprotos & Habs).
  unfold with_object. destruct (h !! id) as [o'|]; [|by exists o].
  destruct (m (element_of h o')) as [r el]. cbn [snd].
  exists o. rewrite lookup_insert_ne by done. split; [done|]. split; [done|].
  split; [done|]. intros name Hname. rewrite element_of_insert; [by apply Habs|].
  intros Hin. by apply (Hprotos id).
Qed.

Lemma install_fresh (targets els : list N) (h : heap) :
  NoDup els →
  (∀ id, id ∈ els → id ∈ targets ∧ fresh_object names targets h id) →
  (install call_getter polyfill_descriptor property_getters els h).1 = Normal tt
  ∧ ∀ t, t ∉ els → fresh_object names targets h t →
         fresh_object names targets
           (install call_getter polyfill_descriptor property_getters els h).2 t.
Proof using names_distinct polyfills_valid getters_valid.
  revert h. induction els as [|id ids IH]; intros h Hnd Hfresh; [done|].
  apply NoDup_cons in Hnd as [Hid Hnd].
  destruct (Hfresh id) as (Hin & o & Ho & Hext & Hprotos & Habs); [by left|].
  unfold install. cbn [for_each]. fold (install call_getter polyfill_descriptor
                                          property_getters ids).
  set (step := with_object id
                 (install_element call_getter polyfill_descriptor property_getters)).
  assert (∀ t, t ≠ id → fresh_object names targets h t →
               fresh_object names targets (step h).2 t) as Hstep.
  { intros t Ht. by apply with_object_fresh. }
  assert ((step h).1 = Normal tt) as Hrun.
  { subst step. unfold with_object. rewrite Ho.
    pose proof (install_element_fresh (element_of h o) Hext Habs) as Hel.
    by destruct (install_element _ _ _ _) as [r el]. }
  unfold bind. destruct (step h) as [[[]|e] h1]; [|done]. cbn [snd] in Hstep.
  destruct (IH h1 Hnd) as [Hrest Hothers].
  { intros id' Hid'. destruct (Hfresh id') as [Hin' Hf']; [by right|].
    split; [done|]. apply Hstep; [|done]. by intros ->. }
  split; [done|]. intros t Ht Hf. apply not_elem_of_cons in Ht as [Hne Ht].
  by apply Hothers, Hstep.
Qed.

Lemma install_form_fresh (targets : list N) (t : N) (h : heap) :
  fresh_object names targets h t →
  (install_form call_getter polyfill_descriptor t h).1 = Normal tt.
Proof using polyfills_valid.
  intros (o & Ho & Hext & _ & Habs). unfold install_form, with_object. rewrite Ho.
  pose proof (Wrapper_install_form_fresh (element_of h o) Hext Habs) as Hel.
  by destruct (Wrapper_install_form _ _ _) as [r el].
Qed.

Lemma install_then_form_fresh (els : list N) (t : N) (h : heap) :
  NoDup (els ++ [t]) →
  (∀ id, id ∈ els ++ [t] → fresh_object names (els ++ [t]) h id) →
  ((install call_getter polyfill_descriptor property_getters els ;;;
    install_form call_getter polyfill_descriptor t)%js h).1 = Normal tt.
Proof using names_distinct polyfills_valid getters_valid.
  intros Hnd Hfresh. apply NoDup_app in Hnd as (Hnd & Hdisj & _).
  destruct (install_fresh (els ++ [t]) els h Hnd) as [Hrun Hothers].
  { intros id Hid. split; [apply elem_of_app; by left|].
    apply Hfresh, elem_of_app. by left. }
  assert (t ∉ els) as Ht.
  { intros Hin. apply (Hdisj t Hin). by left. }
  specialize (Hothers t Ht (Hfresh t ltac:(apply elem_of_app; right; by left))).
  unfold bind.
  destruct (install _ _ _ els h) as [[[]|e] h1]; [|done].
  by apply (install_form_fresh (els ++ [t])).
Qed.

(** X28. In a browser without constraint validation [hyperform] returns.
    Take a node of the page (a form, a fieldset, a document, the window,
    anything else) such that the objects the polyfills are installed on for
    it are all different objects of the page, extensible, with none of the
    polyfilled properties of their own or inherited, and none of them a
    prototype of another. With valid descriptors under distinct names, the
    installation completes for it, and [hyperform] called on it returns a
    wrapper. *)
Theorem hyperform_returns_on_fresh_objects
    (form : N) (options : option (gmap string value)) (w : world) :
  is_Some (nodes w !! form) →
  NoDup (install_targets w form) →
  (∀ id, id ∈ install_targets w form →
         fresh_object names (install_targets w form) (objects w) id) →
  installable call_getter polyfill_descriptor property_getters w form
  ∧ ∃ this w', hyperform call_getter polyfill_descriptor property_getters
                 (Single form) options w = (Normal (RWrapper this), w').
Proof using names_distinct polyfills_valid getters_valid.
  intros [n Hn] Hnd Hfresh.
  assert (installable call_getter polyfill_descriptor property_getters w form)
    as Hok.
  { split; [by eexists|]. rewrite Wrapper_install_phase_run, Hn.
    rewrite (install_targets_program w form n Hn) in Hnd, Hfresh.
    unfold zoom.
    assert ((install_program call_getter polyfill_descriptor property_getters
               (class_of n) (node_elements n) (element_prototypes w)
               (HTMLFormElement_object w) form (objects w)).1 = Normal tt) as Hrun.
    { unfold install_program, program_targets in *. destruct (class_of n).
      - by apply install_then_form_fresh.
      - by apply install_then_form_fresh.
      - by apply install_then_form_fresh.
      - eapply install_fresh; [done|]. intros id Hid. split; [done|by apply Hfresh].
      - done. }
    by destruct (install_program _ _ _ _ _ _ _ _ _) as [r h]. }
  split; [done|]. by apply hyperform_single_completes.
Qed.

End FreshPage.

(** The sample page is one of a browser without constraint validation: the
    form, the fieldset and the document can each be wrapped. *)
Lemma sample_page_fresh (form : N) :
  form ∈ [1%N; 3%N; 4%N] →
  ∀ id, id ∈ install_targets sample_page form →
        fresh_object (polyfill_names ++ sample_getters.*1)
          (install_targets sample_page form) (objects sample_page) id.
Proof.
  intros Hform id Hid.
  repeat (apply elem_of_cons in Hform as [->|Hform]);
    try (by apply elem_of_nil in Hform);
    vm_compute in Hid;
    repeat (apply elem_of_cons in Hid as [->|Hid]);
    try (by apply elem_of_nil in Hid);
    (eexists; split; [reflexivity|]; split; [reflexivity|]; split;
     [intros p Hp; vm_compute in Hp;
      repeat (apply elem_of_cons in Hp as [->|Hp]);
      try (by apply elem_of_nil in Hp); compute_done
     |intros name Hname;
      change (polyfill_names ++ sample_getters.*1)
        with [ "checkValidity"; "reportValidity"; "setCustomValidity"; "stepDown";
               "stepUp"; "validationMessage"; "validity"; "valueAsDate";
               "valueAsNumber"; "willValidate"; "required" ] in Hname;
      repeat (apply elem_of_cons in Hname as [->|Hname]);
      try (by apply elem_of_nil in Hname); reflexivity]).
Qed.

Lemma hyperform_returns_on_fresh_objects_witness :
  (∃ this w', hyperform getters_return_undefined sample_polyfills sample_getters
                (Single 1) None sample_page = (Normal (RWrapper this), w'))
  ∧ (∃ this w', hyperform getters_return_undefined sample_polyfills sample_getters
                  (Single 4) None sample_page = (Normal (RWrapper this), w')).
Proof.
  split.
  - apply (hyperform_returns_on_fresh_objects getters_return_undefined
             sample_polyfills sample_getters);
      [compute_done|done|by intros name d [= -> ->]%list_elem_of_singleton
      |by eexists|compute_done|apply sample_page_fresh; compute_done].
  - apply (hyperform_returns_on_fresh_objects getters_return_undefined
             sample_polyfills sample_getters);
      [compute_done|done|by intros name d [= -> ->]%list_elem_of_singleton
      |by eexists|compute_done|apply sample_page_fresh; compute_done].
Defined.
